(** * OpenAlex researcher discovery core (openalex_core.py)

    A shallow embedding of the data-acquisition layer: the retrying request
    executor [make_api_request], the ORCID enricher [enrich_with_orcid], the
    institution resolver [get_institution_id], the two author-discovery
    strategies with their merge [find_authors], and the orchestrator
    [find_researchers_with_api].

    Modelling conventions.
    - A Python [str] is a Rocq [string]; case mapping and whitespace are the
      ASCII ones.
    - A parsed JSON document is a [json] value; Python's [None] is [JNull].
      JSON numbers are integers.
    - Effects (network, clock, random source, the module-level ORCID cache)
      are threaded through a state-and-exception monad [M].  The outside
      world is a [world]: the reply to the k-th request and the k-th draw of
      the random source.
    - [print] calls are not logged; a subscript evaluated inside a printed
      f-string is still evaluated, since it can raise.
    - A Python [float] is the rational it denotes; an addition of floats is
      rounded to binary64 (53-bit significand, ties to even).  Exponent range
      and the platform's bound on sleep lengths are not modelled. *)

From Stdlib Require Import ZArith QArith Qround Bool List String Ascii Lia Lqa.
From Stdlib Require Import DecimalString Permutation.
Import ListNotations.
Local Open Scope string_scope.
Local Open Scope Z_scope.

(** ** Python strings *)

Module PyStr.

Definition is_space (c : ascii) : bool :=
  let n := nat_of_ascii c in
  ((9 <=? n) && (n <=? 13) || (28 <=? n) && (n <=? 32))%nat.

Definition lower_char (c : ascii) : ascii :=
  let n := nat_of_ascii c in
  if ((65 <=? n) && (n <=? 90))%nat then ascii_of_nat (n + 32) else c.

Fixpoint lower (s : string) : string :=
  match s with
  | EmptyString => EmptyString
  | String c r => String (lower_char c) (lower r)
  end.

Definition is_empty (s : string) : bool :=
  match s with EmptyString => true | _ => false end.

Fixpoint lstrip (s : string) : string :=
  match s with
  | EmptyString => EmptyString
  | String c r => if is_space c then lstrip r else s
  end.

Fixpoint rstrip (s : string) : string :=
  match s with
  | EmptyString => EmptyString
  | String c r =>
      let r' := rstrip r in
      if is_space c && is_empty r' then EmptyString else String c r'
  end.

(** [s.strip()] *)
Definition strip (s : string) : string := rstrip (lstrip s).

Definition snoc (s : string) (c : ascii) : string := s ++ String c EmptyString.

(** [s.split()]: the maximal runs of non-whitespace characters. *)
Fixpoint words (cur : string) (s : string) : list string :=
  match s with
  | EmptyString => if is_empty cur then [] else [cur]
  | String c r =>
      if is_space c
      then (if is_empty cur then words EmptyString r
            else cur :: words EmptyString r)
      else words (snoc cur c) r
  end.

Definition split (s : string) : list string := words EmptyString s.

(** [s.split(sep)[-1]] for a one-character separator. *)
Fixpoint last_segment (sep : ascii) (cur : string) (s : string) : string :=
  match s with
  | EmptyString => cur
  | String c r =>
      if Ascii.eqb c sep then last_segment sep EmptyString r
      else last_segment sep (snoc cur c) r
  end.

(** [p in s] on strings. *)
Fixpoint contains (p s : string) : bool :=
  String.prefix p s ||
  match s with
  | EmptyString => false
  | String _ r => contains p r
  end.

(** [s.replace(old, new)] for a non-empty [old]: non-overlapping
    occurrences, leftmost first. *)
Fixpoint replace_go (old new : string) (skip : nat) (s : string) : string :=
  match s with
  | EmptyString => EmptyString
  | String c r =>
      match skip with
      | S k => replace_go old new k r
      | O =>
          if String.prefix old s
          then new ++ replace_go old new (String.length old - 1) r
          else String c (replace_go old new 0 r)
      end
  end.

Definition replace (old new s : string) : string := replace_go old new 0 s.

Definition hex_digit (n : nat) : ascii :=
  if (n <? 10)%nat then ascii_of_nat (48 + n) else ascii_of_nat (55 + n).

Definition quote_safe (c : ascii) : bool :=
  let n := nat_of_ascii c in
  ((48 <=? n) && (n <=? 57) || (65 <=? n) && (n <=? 90)
   || (97 <=? n) && (n <=? 122)
   || (n =? 95) || (n =? 46) || (n =? 45) || (n =? 126) || (n =? 47))%nat.

(** [urllib.parse.quote(s)] with the default [safe='/']. *)
Fixpoint quote (s : string) : string :=
  match s with
  | EmptyString => EmptyString
  | String c r =>
      if quote_safe c then String c (quote r)
      else
        let n := nat_of_ascii c in
        String "%" (String (hex_digit (n / 16))
                      (String (hex_digit (n mod 16)) (quote r)))
  end.

(** [str(n)] for an integer. *)
Definition of_Z (n : Z) : string := NilEmpty.string_of_int (Z.to_int n).

Definition is_digit (c : ascii) : bool :=
  let n := nat_of_ascii c in ((48 <=? n) && (n <=? 57))%nat.

Definition digit_val (c : ascii) : Z := Z.of_nat (nat_of_ascii c) - 48.

(** The digits of an integer literal: decimal digits, a single underscore
    allowed between two digits.  [prev] tells whether the previous
    character was a digit. *)
Fixpoint digits (acc : Z) (prev : bool) (s : string) : option Z :=
  match s with
  | EmptyString => if prev then Some acc else None
  | String c r =>
      if is_digit c then digits (10 * acc + digit_val c) true r
      else if Ascii.eqb c "_" then (if prev then digits acc false r else None)
      else None
  end.

(** [int(s)] on a string, base 10; [None] stands for [ValueError]. *)
Definition to_int (s : string) : option Z :=
  match strip s with
  | String "+" r => digits 0 false r
  | String "-" r => option_map Z.opp (digits 0 false r)
  | t => digits 0 false t
  end.

End PyStr.

(** ** Exceptions and outcomes *)

Inductive exn : Type :=
| ValueError
| TypeError
| AttributeError
| KeyError
| IndexError
| RequestException.   (* requests.exceptions.RequestException and subclasses *)

Inductive outcome (A : Type) : Type :=
| Ok (a : A)
| Raise (e : exn).
Arguments Ok {A} a.
Arguments Raise {A} e.

Definition obind {A B} (o : outcome A) (k : A -> outcome B) : outcome B :=
  match o with
  | Ok a => k a
  | Raise e => Raise e
  end.

(** ** Parsed JSON documents and the Python operations applied to them *)

#[warnings="-register-all"]
Inductive json : Type :=
| JNull
| JBool (b : bool)
| JNum (n : Z)
| JStr (s : string)
| JArr (l : list json)
| JObj (l : list (string * json)).

(** Hashable values as dictionary keys: [True == 1] and [False == 0]. *)
Inductive key : Type :=
| KNone
| KInt (n : Z)
| KStr (s : string).

Module Py.

(** [bool(j)] *)
Definition truthy (j : json) : bool :=
  match j with
  | JNull => false
  | JBool b => b
  | JNum n => negb (n =? 0)
  | JStr s => negb (PyStr.is_empty s)
  | JArr l => match l with [] => false | _ => true end
  | JObj l => match l with [] => false | _ => true end
  end.

Fixpoint dict_get (l : list (string * json)) (k : string) : option json :=
  match l with
  | [] => None
  | (k', v) :: r => if String.eqb k' k then Some v else dict_get r k
  end.

(** [d.get(k, default)] *)
Definition get (d : json) (k : string) (default : json) : outcome json :=
  match d with
  | JObj l => Ok (match dict_get l k with Some v => v | None => default end)
  | _ => Raise AttributeError
  end.

(** [d[k]] for a string [k] *)
Definition item (d : json) (k : string) : outcome json :=
  match d with
  | JObj l =>
      match dict_get l k with Some v => Ok v | None => Raise KeyError end
  | _ => Raise TypeError
  end.

(** [d[0]] *)
Definition first (d : json) : outcome json :=
  match d with
  | JArr (x :: _) => Ok x
  | JArr [] => Raise IndexError
  | JStr (String c _) => Ok (JStr (String c EmptyString))
  | JStr EmptyString => Raise IndexError
  | JObj _ => Raise KeyError
  | _ => Raise TypeError
  end.

Fixpoint chars (s : string) : list json :=
  match s with
  | EmptyString => []
  | String c r => JStr (String c EmptyString) :: chars r
  end.

(** The elements visited by [for x in d]. *)
Definition iter (d : json) : outcome (list json) :=
  match d with
  | JArr l => Ok l
  | JStr s => Ok (chars s)
  | JObj l => Ok (map (fun kv => JStr (fst kv)) l)
  | _ => Raise TypeError
  end.

(** [d.lower()] *)
Definition lower (d : json) : outcome string :=
  match d with
  | JStr s => Ok (PyStr.lower s)
  | _ => Raise AttributeError
  end.

Definition is_str (p : string) (j : json) : bool :=
  match j with JStr s => String.eqb s p | _ => false end.

(** [p in d] for a string [p] *)
Definition contains (p : string) (d : json) : outcome bool :=
  match d with
  | JStr s => Ok (PyStr.contains p s)
  | JArr l => Ok (existsb (is_str p) l)
  | JObj l => Ok (match dict_get l p with Some _ => true | None => false end)
  | _ => Raise TypeError
  end.

(** [d.split('/')[-1]] *)
Definition last_segment (d : json) : outcome json :=
  match d with
  | JStr s => Ok (JStr (PyStr.last_segment "/" EmptyString s))
  | _ => Raise AttributeError
  end.

(** [d.replace(old, new)] *)
Definition replace (d : json) (old new : string) : outcome string :=
  match d with
  | JStr s => Ok (PyStr.replace old new s)
  | _ => Raise AttributeError
  end.

(** [quote(d)] *)
Definition quote (d : json) : outcome string :=
  match d with
  | JStr s => Ok (PyStr.quote s)
  | _ => Raise TypeError
  end.

(** [repr(j)]; escapes inside string literals are not rendered. *)
Fixpoint repr (j : json) : string :=
  match j with
  | JNull => "None"
  | JBool true => "True"
  | JBool false => "False"
  | JNum n => PyStr.of_Z n
  | JStr s => "'" ++ s ++ "'"
  | JArr l =>
      "[" ++ (fix go (l : list json) : string :=
                match l with
                | [] => ""
                | x :: r =>
                    match r with
                    | [] => repr x
                    | _ => repr x ++ ", " ++ go r
                    end
                end) l ++ "]"
  | JObj l =>
      "{" ++ (fix go (l : list (string * json)) : string :=
                match l with
                | [] => ""
                | (k, x) :: r =>
                    match r with
                    | [] => "'" ++ k ++ "': " ++ repr x
                    | _ => "'" ++ k ++ "': " ++ repr x ++ ", " ++ go r
                    end
                end) l ++ "}"
  end.

(** The text an f-string substitutes for [{j}]. *)
Definition str (j : json) : string :=
  match j with
  | JStr s => s
  | _ => repr j
  end.

(** [hash(j)], as far as dictionary and set membership are concerned. *)
Definition hash_key (j : json) : outcome key :=
  match j with
  | JNull => Ok KNone
  | JBool b => Ok (KInt (if b then 1 else 0))
  | JNum n => Ok (KInt n)
  | JStr s => Ok (KStr s)
  | _ => Raise TypeError
  end.

Definition key_eqb (a b : key) : bool :=
  match a, b with
  | KNone, KNone => true
  | KInt n, KInt m => n =? m
  | KStr s, KStr t => String.eqb s t
  | _, _ => false
  end.

End Py.

(** ** binary64 rounding of a positive rational *)

Module Float.

(** 2^e for an integer exponent of either sign *)
Definition pow2 (e : Z) : Q :=
  if 0 <=? e then inject_Z (2 ^ e) else (/ inject_Z (2 ^ (- e)))%Q.

(** Nearest integer, ties to even. *)
Definition rne (q : Q) : Z :=
  let f := Qfloor q in
  match (q - inject_Z f ?= 1 # 2)%Q with
  | Lt => f
  | Gt => f + 1
  | Eq => if Z.even f then f else f + 1
  end.

(** [floor (log2 q)] for [0 < q]. *)
Definition binade (q : Q) : Z :=
  if Qle_bool 1 q then Z.log2 (Qfloor q)
  else - Z.log2_up (Qceiling (/ q)).

(** The binary64 value nearest to [q]: 53 significant bits. *)
Definition round_double (q : Q) : Q :=
  match (q ?= 0)%Q with
  | Eq => 0%Q
  | Gt => let e := binade q - 52 in
          (inject_Z (rne (q * pow2 (- e))) * pow2 e)%Q
  | Lt => let e := binade (- q) - 52 in
          (- (inject_Z (rne (- q * pow2 (- e))) * pow2 e))%Q
  end.

(** [x + y] on two floats. *)
Definition add (x y : Q) : Q := round_double (x + y).

End Float.

(** ** The outside world and the program state *)

(** What [requests.get] produces: a raised [RequestException] (timeout,
    connection error) or a response.  [body] is the parsed body, [None]
    when the body is not valid JSON. *)
Inductive reply : Type :=
| NetError
| Response (status_code : Z) (headers : list (string * string))
           (body : option json).

Record world : Type := {
  net : nat -> reply;   (* the reply to the k-th request of the process *)
  rnd : nat -> Z        (* the k-th 53-bit draw of the random source *)
}.

Inductive event : Type :=
| EvGet (url : string) (headers : list (string * string)) (timeout : Z)
| EvSleep (seconds : Q).

(** The value of an [orcid_cache] entry; [enrich_with_orcid] returns either
    such a dictionary or the empty one. *)
Inductive enriched : Type :=
| NoOrcid                                (* {} *)
| Orcid (email department : json).       (* {"Email": .., "Department": ..} *)

Record state : Type := {
  reqs : nat;                            (* requests issued so far *)
  draws : nat;                           (* random draws so far *)
  log : list event;                      (* most recent event first *)
  orcid_cache : list (key * enriched)    (* the module-level dictionary *)
}.

Definition initial_state : state :=
  {| reqs := 0; draws := 0; log := []; orcid_cache := [] |}.

(** ** The monad *)

Definition M (A : Type) : Type := state -> outcome A * state.

Definition ret {A} (a : A) : M A := fun s => (Ok a, s).

Definition raise {A} (e : exn) : M A := fun s => (Raise e, s).

Definition bind {A B} (c : M A) (k : A -> M B) : M B :=
  fun s =>
    match c s with
    | (Ok a, s') => k a s'
    | (Raise e, s') => (Raise e, s')
    end.

Definition lift {A} (o : outcome A) : M A := fun s => (o, s).

Declare Scope py_scope.
Delimit Scope py_scope with py.
Notation "x <- c ;; k" := (bind c (fun x => k))
  (at level 61, c at next level, right associativity) : py_scope.
Notation "x <~ o ;; k" := (bind (lift o) (fun x => k))
  (at level 61, o at next level, right associativity) : py_scope.
Notation "c ;; k" := (bind c (fun _ => k))
  (at level 61, right associativity) : py_scope.
Local Open Scope py_scope.

(** [try: body except <classes>: handler] *)
Definition try_except {A} (body : M A) (catches : exn -> bool)
    (handler : M A) : M A :=
  fun s =>
    match body s with
    | (Ok a, s') => (Ok a, s')
    | (Raise e, s') => if catches e then handler s' else (Raise e, s')
    end.

(** A [for] loop whose body may leave the loop with a value ([Some]):
    a [return], or an assignment followed by [break]. *)
Fixpoint for_first {A R} (xs : list A) (body : A -> M (option R))
    : M (option R) :=
  match xs with
  | [] => ret None
  | x :: rest =>
      r <- body x ;;
      match r with
      | Some v => ret (Some v)
      | None => for_first rest body
      end
  end.

(** A [for] loop that runs to its end, updating local variables [acc]. *)
Fixpoint for_each {A S} (xs : list A) (acc : S) (body : S -> A -> M S)
    : M S :=
  match xs with
  | [] => ret acc
  | x :: rest => acc' <- body acc x ;; for_each rest acc' body
  end.

(** The same loop shape for a body without effects: the value assigned
    before the [break], if any. *)
Fixpoint find_first {A R} (xs : list A) (body : A -> outcome (option R))
    : outcome (option R) :=
  match xs with
  | [] => Ok None
  | x :: rest =>
      obind (body x) (fun r =>
      match r with
      | Some v => Ok (Some v)
      | None => find_first rest body
      end)
  end.

(** [range(n)] *)
Definition range (n : Z) : list Z := map Z.of_nat (seq 0 (Z.to_nat n)).

(** ** Python dictionaries in insertion order *)

Section Dict.

Context {K V : Type} (eqb : K -> K -> bool).

Fixpoint dict_lookup (d : list (K * V)) (k : K) : option V :=
  match d with
  | [] => None
  | (k', v) :: r => if eqb k' k then Some v else dict_lookup r k
  end.

(** [k in d] *)
Definition dict_mem (d : list (K * V)) (k : K) : bool :=
  match dict_lookup d k with Some _ => true | None => false end.

(** [d[k] = v]: a present key keeps its place, a new one goes last. *)
Fixpoint dict_set (d : list (K * V)) (k : K) (v : V) : list (K * V) :=
  match d with
  | [] => [(k, v)]
  | (k', v') :: r =>
      if eqb k' k then (k', v) :: r else (k', v') :: dict_set r k v
  end.

End Dict.

(** ** The program *)

Definition YOUR_EMAIL : string := "aamirraazia@gmail.com".

(** The state after a request, a sleep, a random draw. *)
Definition with_get (url : string) (headers : list (string * string))
    (timeout : Z) (s : state) : state :=
  {| reqs := S (reqs s); draws := draws s;
     log := EvGet url headers timeout :: log s;
     orcid_cache := orcid_cache s |}.

Definition with_sleep (seconds : Q) (s : state) : state :=
  {| reqs := reqs s; draws := draws s; log := EvSleep seconds :: log s;
     orcid_cache := orcid_cache s |}.

Definition with_draw (s : state) : state :=
  {| reqs := reqs s; draws := S (draws s); log := log s;
     orcid_cache := orcid_cache s |}.

(** The state after [orcid_cache[k] = result]. *)
Definition with_entry (k : key) (result : enriched) (s : state) : state :=
  {| reqs := reqs s; draws := draws s; log := log s;
     orcid_cache := dict_set Py.key_eqb (orcid_cache s) k result |}.

Section Program.

Variable W : world.

(** The next value of [random.random()]. *)
Definition next_jitter (s : state) : Q :=
  (inject_Z (rnd W (draws s) mod 2 ^ 53) / inject_Z (2 ^ 53))%Q.

(** [requests.get(url, headers=headers, timeout=timeout)] *)
Definition requests_get (url : string) (headers : list (string * string))
    (timeout : Z) : M reply :=
  fun s =>
    match net W (reqs s) with
    | NetError => (Raise RequestException, with_get url headers timeout s)
    | r => (Ok r, with_get url headers timeout s)
    end.

(** [time.sleep(seconds)] *)
Definition time_sleep (seconds : Q) : M unit :=
  fun s =>
    if Qle_bool 0 seconds then (Ok tt, with_sleep seconds s)
    else (Raise ValueError, s).

(** [random.uniform(0, 1)]: [0.0 + (1.0 - 0.0) * random()], which is exactly
    [random()], a multiple of 2^-53 below 1. *)
Definition random_uniform_0_1 : M Q :=
  fun s => (Ok (next_jitter s), with_draw s).

Definition status (r : reply) : Z :=
  match r with Response c _ _ => c | NetError => 0 end.

(** [response.headers.get(name)] on the case-insensitive header dictionary *)
Fixpoint headers_get (hs : list (string * string)) (name : string)
    : option string :=
  match hs with
  | [] => None
  | (k, v) :: r =>
      if String.eqb (PyStr.lower k) (PyStr.lower name) then Some v
      else headers_get r name
  end.

Definition response_headers (r : reply) : list (string * string) :=
  match r with Response _ hs _ => hs | NetError => [] end.

(** [response.json()]; requests raises its own [JSONDecodeError], a
    [RequestException], on a body that is not JSON. *)
Definition response_json (r : reply) : M json :=
  match r with
  | Response _ _ (Some j) => ret j
  | _ => raise RequestException
  end.

(** [int(response.headers.get('Retry-After', 60))] *)
Definition retry_after_of (r : reply) : outcome Z :=
  match headers_get (response_headers r) "Retry-After" with
  | None => Ok 60
  | Some v => match PyStr.to_int v with
              | Some n => Ok n
              | None => Raise ValueError
              end
  end.

Definition is_request_exception (e : exn) : bool :=
  match e with RequestException => true | _ => false end.

(** [delay = (2 ** attempt) + random.uniform(0, 1)] *)
Definition backoff_delay (attempt : Z) (jitter : Q) : Q :=
  Float.add (inject_Z (2 ^ attempt)) jitter.

(** The [if attempt > 0:] block at the head of an attempt. *)
Definition backoff (attempt : Z) : M unit :=
  if 0 <? attempt
  then jitter <- random_uniform_0_1 ;;
       time_sleep (backoff_delay attempt jitter)
  else ret tt.

(** One iteration of the attempt loop of [make_api_request]: [Some j] when
    the function returns [j], [None] when the loop goes on. *)
Definition api_attempt (url : string) (headers : list (string * string))
    (max_retries attempt : Z) : M (option json) :=
  try_except
    (backoff attempt ;;
     response <- requests_get url headers 30 ;;
     if status response =? 429 then
       retry_after <~ retry_after_of response ;;
       time_sleep (inject_Z retry_after) ;;
       ret None
     else if status response =? 200 then
       j <- response_json response ;;
       ret (Some j)
     else if status response =? 403 then
       time_sleep 5 ;;
       ret None
     else if status response =? 404 then
       ret (Some JNull)
     else
       ret None)
    is_request_exception
    (if attempt =? max_retries - 1 then ret (Some JNull)
     else time_sleep 2 ;; ret None).

Definition make_api_request (url : string) (headers : list (string * string))
    (max_retries : Z) : M json :=
  r <- for_first (range max_retries) (api_attempt url headers max_retries) ;;
  ret (match r with Some j => j | None => JNull end).

(** *** enrich_with_orcid *)

Definition cache_lookup (k : key) : M (option enriched) :=
  fun s => (Ok (dict_lookup Py.key_eqb (orcid_cache s) k), s).

(** [orcid_cache[orcid_id] = result] *)
Definition cache_store (k : key) (result : enriched) : M unit :=
  fun s => (Ok tt, with_entry k result s).

(** The first e-mail whose visibility is [PUBLIC]. *)
Definition public_email (data : json) : outcome json :=
  obind (Py.get data "person" (JObj [])) (fun person =>
  obind (Py.get person "emails" (JObj [])) (fun person_emails =>
  obind (Py.get person_emails "email" (JArr [])) (fun emails =>
  obind (Py.iter emails) (fun es =>
  obind (find_first es (fun e =>
           obind (Py.get e "visibility" JNull) (fun visibility =>
           if Py.is_str "PUBLIC" visibility
           then obind (Py.get e "email" JNull) (fun email => Ok (Some email))
           else Ok None))) (fun found =>
  Ok (match found with Some email => email | None => JNull end)))))).

(** The first non-empty department name among the employments. *)
Definition first_department (data : json) : outcome json :=
  obind (Py.get data "activities-summary" (JObj [])) (fun activities =>
  obind (Py.get activities "employments" (JObj [])) (fun employments =>
  obind (Py.get employments "employment-summary" (JArr []))
    (fun employment_summaries =>
  obind (Py.iter employment_summaries) (fun emps =>
  obind (find_first emps (fun emp =>
           obind (Py.get emp "department-name" JNull) (fun dept =>
           if Py.truthy dept then Ok (Some dept) else Ok None)))
    (fun found =>
  Ok (match found with Some dept => dept | None => JNull end)))))).

Definition orcid_headers : list (string * string) :=
  [("Accept", "application/json");
   ("User-Agent", "Academic Research Tool/1.0 (mailto:" ++ YOUR_EMAIL ++ ")")].

Definition orcid_url (orcid_id : json) : string :=
  "https://pub.orcid.org/v3.0/" ++ Py.str orcid_id.

(** The body of the [try] block: [Some result] when the function returns
    from inside it, [None] when control reaches the final [return {}]. *)
Definition orcid_fetch (orcid_id : json) (k : key) : M (option enriched) :=
  response <- requests_get (orcid_url orcid_id) orcid_headers 15 ;;
  if status response =? 200 then
    data <- response_json response ;;
    email <~ public_email data ;;
    department <~ first_department data ;;
    let result := Orcid email department in
    cache_store k result ;;
    ret (Some result)
  else
    ret None.

Definition enrich_with_orcid (orcid_id : json) : M enriched :=
  k <~ Py.hash_key orcid_id ;;
  cached <- cache_lookup k ;;
  match cached with
  | Some result => ret result
  | None =>
      r <- try_except (orcid_fetch orcid_id k) (fun _ => true) (ret None) ;;
      ret (match r with Some result => result | None => NoOrcid end)
  end.

(** [enriched.get(field)] *)
Definition enriched_email (e : enriched) : json :=
  match e with Orcid email _ => email | NoOrcid => JNull end.

Definition enriched_department (e : enriched) : json :=
  match e with Orcid _ department => department | NoOrcid => JNull end.

(** [enrich_with_orcid(orcid_id) if orcid_id else {}] *)
Definition enrich_if_present (orcid_id : json) : M enriched :=
  if Py.truthy orcid_id then enrich_with_orcid orcid_id else ret NoOrcid.

(** *** get_institution_id *)

Definition api_headers : list (string * string) :=
  [("User-Agent", "Academic Research Tool/1.0 (mailto:" ++ YOUR_EMAIL ++ ")");
   ("Accept", "application/json")].

(** The list [search_terms]; its third element indexes an empty list when
    the name has no token. *)
Definition search_terms (institution_name : string) : outcome (list string) :=
  match PyStr.split institution_name with
  | [] => Raise IndexError
  | token :: _ =>
      Ok [institution_name;
          PyStr.strip (PyStr.replace "University" "" institution_name);
          token]
  end.

Definition institutions_url (search_term : string) : string :=
  "https://api.openalex.org/institutions?search=" ++ PyStr.quote search_term
  ++ "&per_page=10".

(** [data and data.get('results')], as a condition *)
Definition has_results (data : json) : outcome bool :=
  if Py.truthy data
  then obind (Py.get data "results" JNull) (fun r => Ok (Py.truthy r))
  else Ok false.

(** [institution_name.lower() in inst_name or inst_name in
    institution_name.lower()] *)
Definition name_matches (institution_name : string) (institution : json)
    : outcome bool :=
  obind (Py.get institution "display_name" (JStr "")) (fun dn =>
  obind (Py.lower dn) (fun inst_name =>
  Ok (PyStr.contains (PyStr.lower institution_name) inst_name
      || PyStr.contains inst_name (PyStr.lower institution_name)))).

(** The identifier returned for a chosen result: the last path segment of
    its [id]; the following [print] reads [institution['display_name']]. *)
Definition chosen_id (institution : json) : outcome json :=
  obind (Py.item institution "id") (fun id =>
  obind (Py.contains "/" id) (fun has_slash =>
  obind (if has_slash then Py.last_segment id else Ok id)
    (fun institution_id =>
  obind (Py.item institution "display_name") (fun _ =>
  Ok institution_id)))).

(** The body of the loop over the results of a page. *)
Definition match_candidate (institution_name : string) (institution : json)
    : M (option json) :=
  is_match <~ name_matches institution_name institution ;;
  if is_match
  then institution_id <~ chosen_id institution ;; ret (Some institution_id)
  else ret None.

(** The choice within one non-empty results page. *)
Definition select_institution (institution_name : string) (results : json)
    : M json :=
  candidates <~ Py.iter results ;;
  found <- for_first candidates (match_candidate institution_name) ;;
  match found with
  | Some institution_id => ret institution_id
  | None =>
      institution <~ Py.first results ;;
      institution_id <~ chosen_id institution ;;
      ret institution_id
  end.

(** The body of the loop over the search terms. *)
Definition try_search_term (institution_name search_term : string)
    : M (option json) :=
  data <- make_api_request (institutions_url search_term) api_headers 5 ;;
  found <~ has_results data ;;
  if found then
    results <~ Py.item data "results" ;;
    institution_id <- select_institution institution_name results ;;
    ret (Some institution_id)
  else
    ret None.

Definition get_institution_id (institution_name : string) : M json :=
  terms <~ search_terms institution_name ;;
  r <- for_first terms (try_search_term institution_name) ;;
  ret (match r with Some institution_id => institution_id | None => JNull end).

(** *** Author records *)

(** The dictionaries built for an author.  The work-centric strategy sets
    all twelve keys; the direct strategy leaves out [Recent_Work_Title] and
    [DOI] ([None] here). *)
Record author_record : Type := {
  OpenAlex_ID : json;
  Full_Name : json;
  Institution : json;
  Email : json;
  Department : json;
  ORCID : json;
  Matched_Keyword : string;
  Works_Count : json;
  Cited_By_Count : json;
  Recent_Work_Title : option json;
  DOI : option json;
  Paper_URL : json
}.

Definition set_Institution (a : author_record) (v : json) : author_record :=
  {| OpenAlex_ID := OpenAlex_ID a; Full_Name := Full_Name a;
     Institution := v; Email := Email a; Department := Department a;
     ORCID := ORCID a; Matched_Keyword := Matched_Keyword a;
     Works_Count := Works_Count a; Cited_By_Count := Cited_By_Count a;
     Recent_Work_Title := Recent_Work_Title a; DOI := DOI a;
     Paper_URL := Paper_URL a |}.

Definition set_counts (a : author_record) (works cited : json)
    : author_record :=
  {| OpenAlex_ID := OpenAlex_ID a; Full_Name := Full_Name a;
     Institution := Institution a; Email := Email a;
     Department := Department a; ORCID := ORCID a;
     Matched_Keyword := Matched_Keyword a;
     Works_Count := works; Cited_By_Count := cited;
     Recent_Work_Title := Recent_Work_Title a; DOI := DOI a;
     Paper_URL := Paper_URL a |}.

(** *** find_authors_by_works *)

Definition works_url (keyword : string) (institution_id : json) : string :=
  "https://api.openalex.org/works?filter=institutions.id:I"
  ++ Py.str institution_id ++ "&search=" ++ PyStr.quote keyword
  ++ "&per_page=50".

(** [author and author.get('id')], as a condition *)
Definition has_id (author : json) : outcome bool :=
  if Py.truthy author
  then obind (Py.get author "id" JNull) (fun i => Ok (Py.truthy i))
  else Ok false.

(** The institution shown for an authorship: the display name of its first
    institution whose id contains "I<institution_id>", else the given
    university name. *)
Definition authorship_institution (authorship institution_id : json)
    (university_name : string) : M json :=
  institutions <~ Py.get authorship "institutions" (JArr []) ;;
  insts <~ Py.iter institutions ;;
  found <- for_first insts (fun institution =>
    id <~ Py.get institution "id" JNull ;;
    if Py.truthy id then
      id' <~ Py.item institution "id" ;;
      hit <~ Py.contains ("I" ++ Py.str institution_id) id' ;;
      if hit
      then name <~ Py.get institution "display_name" (JStr university_name) ;;
           ret (Some name)
      else ret None
    else ret None) ;;
  ret (match found with Some name => name | None => JStr university_name end).

Definition paper_url_of (work doi title : json) : outcome string :=
  if Py.truthy doi then Ok ("https://doi.org/" ++ Py.str doi)
  else if Py.truthy title then
    obind (Py.quote title) (fun search_query =>
    Ok ("https://scholar.google.com/scholar?q=" ++ search_query))
  else
    obind (Py.get work "id" (JStr "")) (fun id =>
    Py.replace id "https://openalex.org/" "https://openalex.org/works/").

(** The record stored in [authors_dict] for a newly seen author. *)
Definition new_author (keyword : string) (institution_id : json)
    (university_name : string) (work authorship author author_id : json)
    : M author_record :=
  author_institution <-
    authorship_institution authorship institution_id university_name ;;
  doi <~ Py.get work "doi" JNull ;;
  title <~ Py.get work "title" (JStr "") ;;
  paper_url <~ paper_url_of work doi title ;;
  orcid_id <~ Py.get author "orcid" JNull ;;
  enriched <- enrich_if_present orcid_id ;;
  full_name <~ Py.get author "display_name" (JStr "Unknown") ;;
  recent_title <~ Py.get work "title" (JStr "Unknown") ;;
  ret {| OpenAlex_ID := author_id;
         Full_Name := full_name;
         Institution := author_institution;
         Email := enriched_email enriched;
         Department := enriched_department enriched;
         ORCID := orcid_id;
         Matched_Keyword := keyword;
         Works_Count := JNum 0;
         Cited_By_Count := JNum 0;
         Recent_Work_Title := Some recent_title;
         DOI := Some doi;
         Paper_URL := JStr paper_url |}.

Definition authors_dict_t : Type := list (key * author_record).

(** The body of the loop over the authorships of one work. *)
Definition scan_authorship (keyword : string) (institution_id : json)
    (university_name : string) (work : json)
    (authors_dict : authors_dict_t) (authorship : json) : M authors_dict_t :=
  author <~ Py.get authorship "author" (JObj []) ;;
  with_id <~ has_id author ;;
  if with_id then
    author_id <~ Py.item author "id" ;;
    k <~ Py.hash_key author_id ;;
    if negb (dict_mem Py.key_eqb authors_dict k) then
      record <- new_author keyword institution_id university_name
                  work authorship author author_id ;;
      ret (dict_set Py.key_eqb authors_dict k record)
    else ret authors_dict
  else ret authors_dict.

(** The body of the loop over the works of the page. *)
Definition scan_work (keyword : string) (institution_id : json)
    (university_name : string)
    (authors_dict : authors_dict_t) (work : json) : M authors_dict_t :=
  authorships <~ Py.get work "authorships" (JArr []) ;;
  items <~ Py.iter authorships ;;
  for_each items authors_dict
    (scan_authorship keyword institution_id university_name work).

Definition author_url (author_id : json) : string :=
  "https://api.openalex.org/authors/" ++ Py.str author_id.

(** [last_known_inst and last_known_inst.get('display_name')] *)
Definition has_display_name (last_known_inst : json) : outcome bool :=
  if Py.truthy last_known_inst
  then obind (Py.get last_known_inst "display_name" JNull)
         (fun n => Ok (Py.truthy n))
  else Ok false.

(** The updates applied to [author_data] from a non-empty detail record. *)
Definition apply_details (author_data : author_record) (detailed_data : json)
    : outcome author_record :=
  obind (Py.get detailed_data "last_known_institution" (JObj []))
    (fun last_known_inst =>
  obind (has_display_name last_known_inst) (fun named =>
  obind (if named
         then obind (Py.item last_known_inst "display_name")
                (fun n => Ok (set_Institution author_data n))
         else Ok author_data) (fun author_data1 =>
  obind (Py.get detailed_data "works_count" (JNum 0)) (fun works =>
  obind (Py.get detailed_data "cited_by_count" (JNum 0)) (fun cited =>
  Ok (set_counts author_data1 works cited)))))).

(** The body of the detail loop over [list(authors_dict.items())[:20]]. *)
Definition fetch_details (author_details : list author_record)
    (entry : key * author_record) : M (list author_record) :=
  let author_data := snd entry in
  time_sleep (1 # 2) ;;
  detailed_data <-
    make_api_request (author_url (OpenAlex_ID author_data)) api_headers 5 ;;
  author_data' <~ (if Py.truthy detailed_data
                   then apply_details author_data detailed_data
                   else Ok author_data) ;;
  ret (author_details ++ [author_data'])%list.

Definition find_authors_by_works (keyword : string) (institution_id : json)
    (university_name : string) : M (list author_record) :=
  data <- make_api_request (works_url keyword institution_id) api_headers 5 ;;
  found <~ has_results data ;;
  if negb found then ret []
  else
    results <~ Py.item data "results" ;;
    works <~ Py.iter results ;;
    authors_dict <- for_each works []
      (scan_work keyword institution_id university_name) ;;
    for_each (firstn 20 authors_dict) [] fetch_details.

(** *** find_authors_direct *)

Definition authors_url (keyword : string) (institution_id : json) : string :=
  "https://api.openalex.org/authors?filter=last_known_institution.id:I"
  ++ Py.str institution_id ++ "&search=" ++ PyStr.quote keyword
  ++ "&per_page=25".

(** The body of the loop over the authors of the page. *)
Definition direct_author (keyword university_name : string)
    (authors : list author_record) (author : json)
    : M (list author_record) :=
  last_known_inst <~ Py.get author "last_known_institution" (JObj []) ;;
  named <~ has_display_name last_known_inst ;;
  institution_name <~ (if named then Py.item last_known_inst "display_name"
                       else Ok (JStr university_name)) ;;
  orcid_id <~ Py.get author "orcid" JNull ;;
  enriched <- enrich_if_present orcid_id ;;
  id <~ Py.get author "id" JNull ;;
  full_name <~ Py.get author "display_name" JNull ;;
  department <~ (if Py.truthy (enriched_department enriched)
                 then Ok (enriched_department enriched)
                 else Py.get last_known_inst "type" JNull) ;;
  works <~ Py.get author "works_count" (JNum 0) ;;
  cited <~ Py.get author "cited_by_count" (JNum 0) ;;
  ret (authors ++ [{| OpenAlex_ID := id;
                      Full_Name := full_name;
                      Institution := institution_name;
                      Email := enriched_email enriched;
                      Department := department;
                      ORCID := orcid_id;
                      Matched_Keyword := keyword;
                      Works_Count := works;
                      Cited_By_Count := cited;
                      Recent_Work_Title := None;
                      DOI := None;
                      Paper_URL := JNull |}])%list.

Definition find_authors_direct (keyword : string) (institution_id : json)
    (university_name : string) : M (list author_record) :=
  data <- make_api_request (authors_url keyword institution_id) api_headers 5 ;;
  found <~ has_results data ;;
  if negb found then ret []
  else
    results <~ Py.item data "results" ;;
    items <~ Py.iter results ;;
    for_each items [] (direct_author keyword university_name).

(** *** find_authors *)

(** [{a['OpenAlex_ID'] for a in authors}] *)
Fixpoint id_set (authors : list author_record) : outcome (list key) :=
  match authors with
  | [] => Ok []
  | a :: rest =>
      obind (Py.hash_key (OpenAlex_ID a)) (fun k =>
      obind (id_set rest) (fun ks => Ok (k :: ks)))
  end.

Definition key_in (k : key) (ks : list key) : bool :=
  existsb (Py.key_eqb k) ks.

(** The body of the loop over [direct_authors]. *)
Definition append_if_new (existing_ids : list key)
    (authors : list author_record) (author : author_record)
    : M (list author_record) :=
  k <~ Py.hash_key (OpenAlex_ID author) ;;
  if negb (key_in k existing_ids) then ret (authors ++ [author])%list
  else ret authors.

Definition find_authors (keyword : string) (institution_id : json)
    (university_name : string) : M (list author_record) :=
  authors <- find_authors_by_works keyword institution_id university_name ;;
  if (Z.of_nat (List.length authors) <? 5) then
    direct_authors <-
      find_authors_direct keyword institution_id university_name ;;
    existing_ids <~ id_set authors ;;
    for_each direct_authors authors (append_if_new existing_ids)
  else ret authors.

(** *** find_researchers_with_api *)

(** The body of the loop that fills [institution_data]. *)
Definition resolve_university (institution_data : list (string * json))
    (uni_name : string) : M (list (string * json)) :=
  uni_id <- get_institution_id uni_name ;;
  let institution_data' :=
    if Py.truthy uni_id
    then dict_set String.eqb institution_data uni_name uni_id
    else institution_data in
  time_sleep 1 ;;
  ret institution_data'.

(** The body of the loop over the keywords, for one institution. *)
Definition search_keyword (uni_name : string) (uni_id : json)
    (all_found_authors : list author_record) (keyword : string)
    : M (list author_record) :=
  authors <- find_authors keyword uni_id uni_name ;;
  let all_found_authors' :=
    match authors with
    | [] => all_found_authors
    | _ => (all_found_authors ++ authors)%list
    end in
  time_sleep 2 ;;
  ret all_found_authors'.

(** The body of the loop over [institution_data.items()]. *)
Definition search_university (keywords : list string)
    (all_found_authors : list author_record) (entry : string * json)
    : M (list author_record) :=
  for_each keywords all_found_authors (search_keyword (fst entry) (snd entry)).

(** The two loops: everything found, in iteration order. *)
Definition collect_authors (universities keywords : list string)
    : M (list author_record) :=
  institution_data <- for_each universities [] resolve_university ;;
  for_each institution_data [] (search_university keywords).

(** The rows kept by [drop_duplicates]: a row survives when no earlier row
    has its key. *)
Fixpoint keep_first (seen : list key) (rows : list (key * author_record))
    : list author_record :=
  match rows with
  | [] => []
  | (k, a) :: rest =>
      if key_in k seen then keep_first seen rest
      else a :: keep_first (k :: seen) rest
  end.

(** [pd.DataFrame(rows).drop_duplicates(subset=['OpenAlex_ID'])
    .reset_index(drop=True)]: the rows in order, the first row kept for each
    identifier; an unhashable identifier is a [TypeError]. *)
Definition drop_duplicates (rows : list author_record)
    : outcome (list author_record) :=
  obind (id_set rows) (fun ks => Ok (keep_first [] (combine ks rows))).

(** The result is [None] (the Python [None]) or [Some] data frame. *)
Definition find_researchers_with_api (universities keywords : list string)
    : M (option (list author_record)) :=
  all_found_authors <- collect_authors universities keywords ;;
  match all_found_authors with
  | [] => ret None
  | _ =>
      df_unique <~ drop_duplicates all_found_authors ;;
      ret (Some df_unique)
  end.

End Program.

(** ** Notions used by the statements *)

(** The state in which the request of an attempt is issued. *)
Definition after_backoff (W : world) (attempt : Z) (s : state) : state :=
  if 0 <? attempt
  then with_sleep (backoff_delay attempt (next_jitter W s)) (with_draw s)
  else s.


(** A relation between the state before and after a computation. *)
Definition preserves {A} (R : state -> state -> Prop) (c : M A) : Prop :=
  forall s, R s (snd (c s)).


(** The cached value of a key. *)
Definition cache_entry (s : state) (k : key) : option enriched :=
  dict_lookup Py.key_eqb (orcid_cache s) k.

(** No entry of the cache is lost or changed. *)
Definition cache_kept (s s' : state) : Prop :=
  forall k v, cache_entry s k = Some v -> cache_entry s' k = Some v.

(** The cache is the same. *)
Definition same_cache (s s' : state) : Prop := orcid_cache s' = orcid_cache s.

(** The calls a process can make into the module. *)
Inductive call : Type :=
| CallApi (url : string) (headers : list (string * string)) (max_retries : Z)
| CallEnrich (orcid_id : json)
| CallInstitution (institution_name : string)
| CallByWorks (keyword : string) (institution_id : json)
              (university_name : string)
| CallDirect (keyword : string) (institution_id : json)
             (university_name : string)
| CallAuthors (keyword : string) (institution_id : json)
              (university_name : string)
| CallResearchers (universities keywords : list string).

(** The state after a call, whatever its outcome. *)
Definition exec (W : world) (c : call) (s : state) : state :=
  match c with
  | CallApi url headers n => snd (make_api_request W url headers n s)
  | CallEnrich id => snd (enrich_with_orcid W id s)
  | CallInstitution name => snd (get_institution_id W name s)
  | CallByWorks kw id uni => snd (find_authors_by_works W kw id uni s)
  | CallDirect kw id uni => snd (find_authors_direct W kw id uni s)
  | CallAuthors kw id uni => snd (find_authors W kw id uni s)
  | CallResearchers unis kws => snd (find_researchers_with_api W unis kws s)
  end.

Definition exec_all (W : world) (calls : list call) (s : state) : state :=
  fold_left (fun s c => exec W c s) calls s.

(** The key under which a record is compared with others. *)
Definition row_key (a : author_record) : key :=
  match Py.hash_key (OpenAlex_ID a) with
  | Ok k => k
  | Raise _ => KNone
  end.

Definition key_dec (a b : key) : {a = b} + {a <> b}.
Proof.
  decide equality; [apply Z.eq_dec | apply string_dec].
Defined.

(** The number of distinct identifiers among the records of two lists. *)
Definition union_size (A B : list author_record) : nat :=
  List.length (nodup key_dec (map row_key A ++ map row_key B)%list).

(** An [authors_dict] as the scan builds it: one entry per key, each filed
    under the key of its own identifier. *)
Definition dict_ok (d : authors_dict_t) : Prop :=
  NoDup (map fst d) /\
  Forall (fun e => Py.hash_key (OpenAlex_ID (snd e)) = Ok (fst e)) d.

(** [keyword_sweep W uni_name uni_id keywords s found s']: from state [s],
    [find_authors] was run for each keyword in order, with the pacing sleep
    after each; [found] lists what each run returned. *)
Inductive keyword_sweep (W : world) (uni_name : string) (uni_id : json)
    : list string -> state -> list (list author_record) -> state -> Prop :=
| sweep_keywords_done s : keyword_sweep W uni_name uni_id [] s [] s
| sweep_keyword keyword keywords s authors s1 found s2 :
    find_authors W keyword uni_id uni_name s = (Ok authors, s1) ->
    keyword_sweep W uni_name uni_id keywords (with_sleep 2 s1) found s2 ->
    keyword_sweep W uni_name uni_id (keyword :: keywords) s
      (authors :: found) s2.

(** The same for every resolved institution in turn: the institutions are
    the outer loop, the keywords the inner one. *)
Inductive university_sweep (W : world) (keywords : list string)
    : list (string * json) -> state -> list (list author_record) -> state
      -> Prop :=
| sweep_universities_done s : university_sweep W keywords [] s [] s
| sweep_university entry entries s found s1 found' s2 :
    keyword_sweep W (fst entry) (snd entry) keywords s found s1 ->
    university_sweep W keywords entries s1 found' s2 ->
    university_sweep W keywords (entry :: entries) s (found ++ found')%list s2.

(** The first record of a list filed under the key of [r]. *)
Definition first_with_key (r : author_record) (rows : list author_record)
    : option author_record :=
  find (fun a => Py.key_eqb (row_key a) (row_key r)) rows.

(** A name without any non-whitespace character. *)
Fixpoint blank (s : string) : bool :=
  match s with
  | EmptyString => true
  | String c r => PyStr.is_space c && blank r
  end.


(** ** The list files and the text areas (load_list_from_file,
    save_text_to_file, the input lists of the page) *)

(** The text files of the working directory, by path. *)
Definition files : Type := string -> option string.

Module Text.

Definition LF : ascii := ascii_of_nat 10.
Definition CR : ascii := ascii_of_nat 13.

(** The lines that iterating over a file opened in text mode yields: each
    line with its terminator, and every terminator ("\n", "\r\n", "\r")
    read as "\n". *)
Fixpoint read_lines (cur : string) (s : string) : list string :=
  match s with
  | EmptyString => if PyStr.is_empty cur then [] else [cur]
  | String c r =>
      if Ascii.eqb c LF then PyStr.snoc cur LF :: read_lines EmptyString r
      else if Ascii.eqb c CR then
        match r with
        | String c2 r' =>
            if Ascii.eqb c2 LF
            then PyStr.snoc cur LF :: read_lines EmptyString r'
            else PyStr.snoc cur LF :: read_lines EmptyString r
        | EmptyString => PyStr.snoc cur LF :: read_lines EmptyString r
        end
      else read_lines (PyStr.snoc cur c) r
  end.

Definition is_linebreak (c : ascii) : bool :=
  let n := nat_of_ascii c in
  ((10 <=? n) && (n <=? 13) || (28 <=? n) && (n <=? 30))%nat.

(** [s.splitlines()] *)
Fixpoint splitlines_go (cur : string) (s : string) : list string :=
  match s with
  | EmptyString => if PyStr.is_empty cur then [] else [cur]
  | String c r =>
      if Ascii.eqb c CR then
        match r with
        | String c2 r' =>
            if Ascii.eqb c2 LF then cur :: splitlines_go EmptyString r'
            else cur :: splitlines_go EmptyString r
        | EmptyString => cur :: splitlines_go EmptyString r
        end
      else if is_linebreak c then cur :: splitlines_go EmptyString r
      else splitlines_go (PyStr.snoc cur c) r
  end.

Definition splitlines (s : string) : list string :=
  splitlines_go EmptyString s.

(** No line terminator of a text file occurs in the string. *)
Fixpoint one_line (s : string) : bool :=
  match s with
  | EmptyString => true
  | String c r => negb (Ascii.eqb c LF) && negb (Ascii.eqb c CR) && one_line r
  end.

(** [[x.strip() for x in xs if x.strip()]] *)
Definition stripped_entries (xs : list string) : list string :=
  map PyStr.strip
    (filter (fun x => negb (PyStr.is_empty (PyStr.strip x))) xs).

End Text.

(** [load_list_from_file] of openalex_core.py; [None] stands for the
    FileNotFoundError of [open]. *)
Definition load_list_from_file (fs : files) (filename : string)
    : option (list string) :=
  match fs filename with
  | None => None
  | Some content =>
      Some (Text.stripped_entries (Text.read_lines EmptyString content))
  end.

Module UI.

(** [load_list_from_file] of vertiv_ui_streamlit.py: a missing file gives
    the empty list. *)
Definition load_list_from_file (fs : files) (file_path : string)
    : list string :=
  match fs file_path with
  | None => []
  | Some content =>
      Text.stripped_entries (Text.read_lines EmptyString content)
  end.

(** What [save_text_to_file] writes: each line stripped and followed by a
    newline. *)
Fixpoint written (lines : list string) : string :=
  match lines with
  | [] => EmptyString
  | line :: rest => PyStr.strip line ++ String Text.LF (written rest)
  end.

(** [save_text_to_file(lines, file_path)]: the files afterwards. *)
Definition save_text_to_file (lines : list string) (file_path : string)
    (fs : files) : files :=
  fun p => if String.eqb p file_path then Some (written lines) else fs p.

(** The list saved by a "Save ... List" button for the text of an area:
    [text.strip().splitlines()]. *)
Definition saved_lines (text : string) : list string :=
  Text.splitlines (PyStr.strip text).

(** The list passed to the discovery for the text of an area:
    [[u.strip() for u in text.strip().splitlines() if u.strip()]]. *)
Definition entries (text : string) : list string :=
  Text.stripped_entries (Text.splitlines (PyStr.strip text)).

End UI.

(** A computation raises only exceptions that satisfy [P]. *)
Definition raises_only {A} (P : exn -> Prop) (c : M A) : Prop :=
  forall s e s', c s = (Raise e, s') -> P e.

(** An exception other than the one [requests.get] raises. *)
Definition handled (e : exn) : Prop := e <> RequestException.

(** The exception a call ends with, if any. *)
Definition call_error (W : world) (c : call) (s : state) : option exn :=
  let err {A} (r : outcome A * state) : option exn :=
    match fst r with Raise e => Some e | Ok _ => None end in
  match c with
  | CallApi url headers n => err (make_api_request W url headers n s)
  | CallEnrich id => err (enrich_with_orcid W id s)
  | CallInstitution name => err (get_institution_id W name s)
  | CallByWorks kw id uni => err (find_authors_by_works W kw id uni s)
  | CallDirect kw id uni => err (find_authors_direct W kw id uni s)
  | CallAuthors kw id uni => err (find_authors W kw id uni s)
  | CallResearchers unis kws => err (find_researchers_with_api W unis kws s)
  end.

(** A name fit for the resolver: stripped, not blank, with its list of
    search terms. *)
Definition clean_name (e : string) : Prop :=
  PyStr.strip e = e /\ blank e = false /\
  exists token,
    search_terms e =
    Ok [e; PyStr.strip (PyStr.replace "University" "" e); token].



(** A record whose identifier can be a dictionary key. *)
Definition hashable (a : author_record) : Prop :=
  exists k, Py.hash_key (OpenAlex_ID a) = Ok k.

(** A record as the work-centric strategy builds it: it names the keyword
    and carries a paper link, a title field and a DOI field. *)
Definition from_works (keyword : string) (a : author_record) : Prop :=
  Matched_Keyword a = keyword /\
  (exists u, Paper_URL a = JStr u) /\
  (exists t, Recent_Work_Title a = Some t) /\
  (exists d, DOI a = Some d).

(** A record as the direct strategy builds it: it names the keyword and
    has no paper link, title or DOI. *)
Definition from_direct (keyword : string) (a : author_record) : Prop :=
  Matched_Keyword a = keyword /\
  Paper_URL a = JNull /\ Recent_Work_Title a = None /\ DOI a = None.

(** The record the direct strategy builds for one entry of its page. *)
Definition direct_record (keyword : string) (item : json)
    (a : author_record) : Prop :=
  Py.get item "id" JNull = Ok (OpenAlex_ID a) /\
  Py.get item "display_name" JNull = Ok (Full_Name a) /\
  Py.get item "orcid" JNull = Ok (ORCID a) /\
  Py.get item "works_count" (JNum 0) = Ok (Works_Count a) /\
  Py.get item "cited_by_count" (JNum 0) = Ok (Cited_By_Count a) /\
  from_direct keyword a.

(** What both strategies guarantee of a record returned for a keyword. *)
Definition found_for (keyword : string) (a : author_record) : Prop :=
  Matched_Keyword a = keyword /\ hashable a /\
  (from_works keyword a \/ from_direct keyword a).

(** An entry of the table of resolved institutions: a listed name with a
    truthy identifier that the resolver returned for it. *)
Definition resolved (W : world) (universities : list string)
    (entry : string * json) : Prop :=
  In (fst entry) universities /\ Py.truthy (snd entry) = true /\
  exists s0 s1, get_institution_id W (fst entry) s0 = (Ok (snd entry), s1).

(** Every cached value is the result of a successful lookup. *)
Definition cache_clean (s : state) : Prop :=
  Forall (fun entry => snd entry <> NoOrcid) (orcid_cache s).

(** ** Stub worlds used by the examples *)

Module Stub.

Definition url : string := "https://api.openalex.org/works?search=cooling".



(** A 429 whose [Retry-After] is an HTTP date. *)
Definition rate_limited_until_date : world :=
  {| net := fun _ =>
       Response 429 [("Retry-After", "Wed, 21 Oct 2015 07:28:00 GMT")] None;
     rnd := fun _ => 0 |}.


(** 500, then 403, then 404. *)
Definition not_found_third : world :=
  {| net := fun k =>
       match k with
       | O => Response 500 [] None
       | S O => Response 403 [] None
       | _ => Response 404 [] None
       end;
     rnd := fun _ => 12345 |}.

Definition institution (id display_name : string) : json :=
  JObj [("id", JStr id); ("display_name", JStr display_name)].

Definition page (results : list json) : json :=
  JObj [("results", JArr results)].

(** The institution search finds nothing for the first two terms and a
    page without a matching name for the third. *)
Definition third_term_only : world :=
  {| net := fun k =>
       match k with
       | O => Response 200 [] (Some (page []))
       | S O => Response 404 [] None
       | _ => Response 200 []
                (Some (page [institution "https://openalex.org/I1" "Foo";
                             institution "https://openalex.org/I2"
                               "Example College"]))
       end;
     rnd := fun _ => 0 |}.

Definition author_doc (id : string) : json :=
  JObj [("id", JStr id); ("display_name", JStr ("Dr " ++ id))].

(** A work with a title and one authorship. *)
Definition work_by (id : string) : json :=
  JObj [("title", JStr "Liquid cooling");
        ("authorships", JArr [JObj [("author", author_doc id)]])].

(** The works search returns works by a, b, a; the detail lookups answer
    with a record, then 404; the direct search returns b, c, d. *)
Definition two_strategies : world :=
  {| net := fun k =>
       match k with
       | 0 => Response 200 []
                (Some (page [work_by "a"; work_by "b"; work_by "a"]))
       | 1 => Response 200 [] (Some (JObj [("works_count", JNum 10)]))
       | 2 => Response 404 [] None
       | _ => Response 200 []
                (Some (page [author_doc "b"; author_doc "c"; author_doc "d"]))
       end%nat;
     rnd := fun _ => 0 |}.

(** The works search finds nothing; the direct search returns the same
    author twice. *)
Definition repeated_direct : world :=
  {| net := fun k =>
       match k with
       | 0 => Response 404 [] None
       | _ => Response 200 [] (Some (page [author_doc "c"; author_doc "c"]))
       end%nat;
     rnd := fun _ => 0 |}.

Definition letters : list string :=
  ["a"; "b"; "c"; "d"; "e"; "f"; "g"; "h"; "i"; "j"; "k"; "l"; "m"; "n";
   "o"; "p"; "q"; "r"; "s"; "t"; "u"].

(** A works page by 21 different authors; every detail lookup is a 404. *)
Definition twenty_one_authors : world :=
  {| net := fun k =>
       match k with
       | 0 => Response 200 [] (Some (page (map work_by letters)))
       | _ => Response 404 [] None
       end%nat;
     rnd := fun _ => 0 |}.

Definition orcid_doc : json :=
  JObj [("person",
         JObj [("emails",
                JObj [("email",
                       JArr [JObj [("visibility", JStr "LIMITED");
                                   ("email", JStr "hidden@example.org")];
                             JObj [("visibility", JStr "PUBLIC");
                                   ("email", JStr "j.doe@example.org")]])])]);
        ("activities-summary",
         JObj [("employments",
                JObj [("employment-summary",
                       JArr [JObj [("department-name", JNull)];
                             JObj [("department-name", JStr "Physics")]])])])].

(** The registry answers the first request with [orcid_doc] and is down
    afterwards. *)
Definition registry_up_once : world :=
  {| net := fun k =>
       match k with
       | O => Response 200 [] (Some orcid_doc)
       | _ => NetError
       end;
     rnd := fun _ => 0 |}.

(** One institution and two keywords.  "cooling" finds a, b through works
    and b, c directly; "thermal" finds b, d through works and nothing
    directly.  Every detail lookup is a 404. *)
Definition one_university : world :=
  {| net := fun k =>
       match k with
       | 0 => Response 200 []
                (Some (page [institution "https://openalex.org/I1"
                               "Example University"]))
       | 1 => Response 200 [] (Some (page [work_by "a"; work_by "b"]))
       | 4 => Response 200 [] (Some (page [author_doc "b"; author_doc "c"]))
       | 5 => Response 200 [] (Some (page [work_by "b"; work_by "d"]))
       | _ => Response 404 [] None
       end%nat;
     rnd := fun _ => 0 |}.


End Stub.

(** * Properties *)

Local Open Scope list_scope.

(** ** binary64 rounding *)

Section Rounding.

Import Float.

Lemma inject_le a b : a <= b -> (inject_Z a <= inject_Z b)%Q.
Proof. intros H. rewrite <- Zle_Qle. exact H. Qed.

Lemma inject_lt a b : a < b -> (inject_Z a < inject_Z b)%Q.
Proof. intros H. rewrite <- Zlt_Qlt. exact H. Qed.

Lemma rne_floor_or_succ q :
  rne q = Qfloor q \/
  (rne q = Qfloor q + 1 /\ (inject_Z (Qfloor q) < q)%Q).
Proof.
  unfold rne.
  destruct (Qcompare_spec (q - inject_Z (Qfloor q)) (1#2)) as [E|L|G].
  - destruct (Z.even (Qfloor q));
      [left; reflexivity|right; split; [reflexivity|]].
    assert (H : (q == inject_Z (Qfloor q) + (1#2))%Q) by (rewrite <- E; ring).
    rewrite H at 2. rewrite <- (Qplus_0_r (inject_Z (Qfloor q))) at 1.
    apply Qplus_lt_r. reflexivity.
  - left; reflexivity.
  - right; split; [reflexivity|].
    apply Qlt_minus_iff. eapply Qlt_trans; [|exact G]. reflexivity.
Qed.

Lemma rne_lower z q : (inject_Z z <= q)%Q -> z <= rne q.
Proof.
  intros H. assert (z <= Qfloor q).
  { rewrite <- (Qfloor_Z z). apply Qfloor_resp_le; exact H. }
  destruct (rne_floor_or_succ q) as [E|[E _]]; lia.
Qed.

Lemma rne_upper z q : (q <= inject_Z z)%Q -> rne q <= z.
Proof.
  intros H. assert (Qfloor q <= z).
  { rewrite <- (Qfloor_Z z). apply Qfloor_resp_le; exact H. }
  destruct (rne_floor_or_succ q) as [E|[E L]]; [lia|].
  assert (inject_Z (Qfloor q) < inject_Z z)%Q by (eapply Qlt_le_trans; eauto).
  rewrite <- Zlt_Qlt in H1. lia.
Qed.

Lemma rne_near z q :
  (inject_Z z <= q)%Q -> (q < inject_Z z + (1#2))%Q -> rne q = z.
Proof.
  intros Hl Hu.
  assert (F : Qfloor q = z).
  { symmetry. apply Z.le_antisymm.
    - rewrite <- (Qfloor_Z z). apply Qfloor_resp_le; exact Hl.
    - assert (Qfloor q < z + 1); [|lia].
      rewrite Zlt_Qlt. eapply Qle_lt_trans; [apply Qfloor_le|].
      eapply Qlt_le_trans; [exact Hu|]. rewrite inject_Z_plus.
      apply Qplus_le_r. discriminate. }
  unfold rne. rewrite F.
  destruct (Qcompare_spec (q - inject_Z z) (1#2)) as [E|L|G]; [| reflexivity |].
  - exfalso. assert (H : (q == inject_Z z + (1#2))%Q) by (rewrite <- E; ring).
    rewrite H in Hu. exact (Qlt_irrefl _ Hu).
  - exfalso. assert (H : (inject_Z z + (1#2) < q)%Q).
    { apply Qlt_minus_iff in G. apply Qlt_minus_iff.
      eapply Qlt_le_trans; [exact G|]. apply Qle_lteq. right. ring. }
    exact (Qlt_irrefl _ (Qlt_trans _ _ _ H Hu)).
Qed.

Lemma Qfloor_eq z q :
  (inject_Z z <= q)%Q -> (q < inject_Z z + 1)%Q -> Qfloor q = z.
Proof.
  intros Hl Hu. symmetry. apply Z.le_antisymm.
  - rewrite <- (Qfloor_Z z). apply Qfloor_resp_le; exact Hl.
  - assert (Qfloor q < z + 1); [|lia].
    rewrite Zlt_Qlt. eapply Qle_lt_trans; [apply Qfloor_le|].
    rewrite inject_Z_plus. exact Hu.
Qed.

Lemma pow2_nonneg e : 0 <= e -> pow2 e = inject_Z (2 ^ e).
Proof. intros H. unfold pow2. destruct (Z.leb_spec 0 e); [reflexivity|lia]. Qed.

Lemma pow2_nonpos e : e <= 0 -> (pow2 e == / inject_Z (2 ^ (- e)))%Q.
Proof.
  intros H. unfold pow2. destruct (Z.leb_spec 0 e); [|reflexivity].
  replace e with 0 by lia. reflexivity.
Qed.

Lemma pow2_neg e : e < 0 -> pow2 e = (/ inject_Z (2 ^ (- e)))%Q.
Proof. intros H. unfold pow2. destruct (Z.leb_spec 0 e); [lia|reflexivity]. Qed.

Lemma jitter_range r : 0 <= r < 2 ^ 53 ->
  (0 <= inject_Z r / inject_Z (2 ^ 53))%Q /\
  (inject_Z r / inject_Z (2 ^ 53) < 1)%Q.
Proof.
  intros [H0 H1]. split.
  - apply Qle_shift_div_l; [reflexivity|]. rewrite Qmult_0_l.
    apply (inject_le 0 r H0).
  - apply Qlt_shift_div_r; [reflexivity|]. rewrite Qmult_1_l.
    apply (inject_lt _ _ H1).
Qed.

Lemma round_double_window n (j : Q) :
  1 <= n -> (0 <= j)%Q -> (j < 1)%Q ->
  (inject_Z (2 ^ n) <= add (inject_Z (2 ^ n)) j)%Q /\
  (add (inject_Z (2 ^ n)) j <= inject_Z (2 ^ n) + 1)%Q.
Proof.
  intros Hn Hj0 Hj1.
  set (a := 2 ^ n).
  assert (Ha : 2 <= a).
  { unfold a. change 2 with (2 ^ 1) at 1. apply Z.pow_le_mono_r; lia. }
  assert (HaQ : (2 <= inject_Z a)%Q) by (apply (inject_le 2 a Ha)).
  set (x := (inject_Z a + j)%Q).
  assert (Hx : (inject_Z a <= x)%Q) by (unfold x; lra).
  assert (Hx1 : (x < inject_Z a + 1)%Q) by (unfold x; lra).
  unfold add, round_double. fold x.
  assert (Hpos : (x ?= 0)%Q = Gt).
  { apply Qgt_alt. lra. }
  rewrite Hpos.
  assert (Hb : binade x = n).
  { unfold binade.
    assert (Qle_bool 1 x = true) by (apply Qle_bool_iff; lra).
    rewrite H. rewrite (Qfloor_eq a x Hx Hx1). unfold a.
    apply Z.log2_pow2. lia. }
  rewrite Hb.
  destruct (Z.le_gt_cases n 52) as [Hle|Hgt].
  - (* the unit in the last place is at most 1 *)
    set (c := 2 ^ (52 - n)).
    assert (Hc : 1 <= c) by (unfold c; apply (Z.pow_le_mono_r 2 0); lia).
    assert (HcQ : (1 <= inject_Z c)%Q) by (apply (inject_le 1 c Hc)).
    assert (Hac : a * c = 2 ^ 52).
    { unfold a, c. rewrite <- Z.pow_add_r by lia. f_equal. lia. }
    assert (HacQ : (inject_Z a * inject_Z c == inject_Z (2 ^ 52))%Q).
    { rewrite <- inject_Z_mult. rewrite Hac. reflexivity. }
    replace (- (n - 52)) with (52 - n) by lia.
    rewrite (pow2_nonneg (52 - n)) by lia. fold c.
    rewrite (pow2_nonpos (n - 52)) by lia.
    replace (- (n - 52)) with (52 - n) by lia. fold c.
    set (m := rne (x * inject_Z c)).
    assert (Hm0 : 2 ^ 52 <= m).
    { apply rne_lower. rewrite <- HacQ. apply Qmult_le_compat_r; lra. }
    assert (Hm1 : m <= 2 ^ 52 + c).
    { apply rne_upper. rewrite inject_Z_plus. rewrite <- HacQ.
      setoid_replace (inject_Z a * inject_Z c + inject_Z c)%Q
        with ((inject_Z a + 1) * inject_Z c)%Q by ring.
      apply Qmult_le_compat_r; lra. }
    rewrite <- Hac in Hm0, Hm1.
    split.
    + apply Qle_shift_div_l; [lra|]. rewrite <- inject_Z_mult.
      apply inject_le. exact Hm0.
    + apply Qle_shift_div_r; [lra|].
      setoid_replace ((inject_Z a + 1) * inject_Z c)%Q
        with (inject_Z (a * c + c))
        by (rewrite inject_Z_plus, inject_Z_mult; ring).
      apply inject_le. exact Hm1.
  - (* the unit in the last place is at least 2: the jitter is rounded away *)
    set (c := 2 ^ (n - 52)).
    assert (Hc : 2 <= c).
    { unfold c. change 2 with (2 ^ 1) at 1. apply Z.pow_le_mono_r; lia. }
    assert (HcQ : (2 <= inject_Z c)%Q) by (apply (inject_le 2 c Hc)).
    assert (Hac : a = 2 ^ 52 * c).
    { unfold a, c. rewrite <- Z.pow_add_r by lia. f_equal. lia. }
    rewrite (pow2_neg (- (n - 52))) by lia.
    replace (- - (n - 52)) with (n - 52) by lia. fold c.
    rewrite (pow2_nonneg (n - 52)) by lia. fold c.
    assert (Hy : (x * / inject_Z c == inject_Z (2 ^ 52) + j / inject_Z c)%Q).
    { unfold x. rewrite Hac, inject_Z_mult. field. lra. }
    assert (Hm : rne (x * / inject_Z c) = 2 ^ 52).
    { apply rne_near; rewrite Hy.
      - assert (0 <= j / inject_Z c)%Q; [|lra].
        apply Qle_shift_div_l; lra.
      - assert (j / inject_Z c < 1 # 2)%Q; [|lra].
        apply Qlt_shift_div_r; lra. }
    rewrite Hm. rewrite <- inject_Z_mult, <- Hac. split; lra.
Qed.

End Rounding.

(** ** Running monadic code *)

Lemma bind_ok_inv {A B} (c : M A) (k : A -> M B) s b s' :
  bind c k s = (Ok b, s') ->
  exists a s1, c s = (Ok a, s1) /\ k a s1 = (Ok b, s').
Proof.
  unfold bind. destruct (c s) as [[a|e] s1]; intros H.
  - exists a, s1. split; [reflexivity|exact H].
  - discriminate H.
Qed.

Lemma bind_lift_inv {A B} (o : outcome A) (k : A -> M B) s b s' :
  bind (lift o) k s = (Ok b, s') -> exists a, o = Ok a /\ k a s = (Ok b, s').
Proof.
  unfold bind, lift. destruct o as [a|e]; intros H.
  - exists a. split; [reflexivity|exact H].
  - discriminate H.
Qed.

Lemma ret_ok_inv {A} (x : A) s a s' :
  ret x s = (Ok a, s') -> a = x /\ s' = s.
Proof. unfold ret. intros H. inversion H. split; reflexivity. Qed.

(** An invariant of the local variables of a loop that runs to its end. *)
Lemma for_each_invariant {A S} (P : S -> Prop) (body : S -> A -> M S) :
  (forall acc x s acc' s', P acc -> body acc x s = (Ok acc', s') -> P acc') ->
  forall xs acc s r s',
    P acc -> for_each xs acc body s = (Ok r, s') -> P r.
Proof.
  intros Hbody xs.
  induction xs as [|x xs IH]; intros acc s r s' HP H; simpl in H.
  - apply ret_ok_inv in H. destruct H as [-> _]. exact HP.
  - apply bind_ok_inv in H. destruct H as (acc1 & s1 & H1 & H2).
    eapply IH; [|exact H2]. eapply Hbody; eauto.
Qed.

Section Preserves.

Variable R : state -> state -> Prop.
Hypothesis R_refl : forall s, R s s.
Hypothesis R_trans : forall s1 s2 s3, R s1 s2 -> R s2 s3 -> R s1 s3.

Lemma preserves_ret {A} (a : A) : preserves R (ret a).
Proof. intros s. apply R_refl. Qed.

Lemma preserves_raise {A} e : preserves R (@raise A e).
Proof. intros s. apply R_refl. Qed.

Lemma preserves_lift {A} (o : outcome A) : preserves R (lift o).
Proof. intros s. apply R_refl. Qed.

Lemma preserves_bind {A B} (c : M A) (k : A -> M B) :
  preserves R c -> (forall a, preserves R (k a)) -> preserves R (bind c k).
Proof.
  intros Hc Hk s. unfold bind. specialize (Hc s).
  destruct (c s) as [[a|e] s1]; simpl in *.
  - eapply R_trans; [exact Hc|apply Hk].
  - exact Hc.
Qed.

Lemma preserves_try {A} (c h : M A) catches :
  preserves R c -> preserves R h -> preserves R (try_except c catches h).
Proof.
  intros Hc Hh s. unfold try_except. specialize (Hc s).
  destruct (c s) as [[a|e] s1]; simpl in *.
  - exact Hc.
  - destruct (catches e); simpl.
    + eapply R_trans; [exact Hc|apply Hh].
    + exact Hc.
Qed.

Lemma preserves_for_first {A B} (xs : list A) (body : A -> M (option B)) :
  (forall x, preserves R (body x)) -> preserves R (for_first xs body).
Proof.
  intros Hb. induction xs as [|x xs IH]; simpl.
  - apply preserves_ret.
  - apply preserves_bind; [apply Hb|].
    intros [v|]; [apply preserves_ret|exact IH].
Qed.

Lemma preserves_for_each {A S} (xs : list A) (body : S -> A -> M S) :
  (forall acc x, preserves R (body acc x)) ->
  forall acc, preserves R (for_each xs acc body).
Proof.
  intros Hb. induction xs as [|x xs IH]; intros acc; simpl.
  - apply preserves_ret.
  - apply preserves_bind; [apply Hb|]. intros a. apply IH.
Qed.

End Preserves.

(** Reduce a [preserves] goal along the structure of the code; [Hr] and
    [Ht] are the reflexivity and transitivity of the relation. *)
Ltac preserves_step Hr Ht :=
  match goal with
  | |- preserves _ (bind _ _) => apply (preserves_bind _ Ht); [|intro]
  | |- preserves _ (ret _) => apply (preserves_ret _ Hr)
  | |- preserves _ (raise _) => apply (preserves_raise _ Hr)
  | |- preserves _ (lift _) => apply (preserves_lift _ Hr)
  | |- preserves _ (try_except _ _ _) => apply (preserves_try _ Ht)
  | |- preserves _ (for_first _ _) =>
      apply (preserves_for_first _ Hr Ht); intro
  | |- preserves _ (for_each _ _ _) =>
      apply (preserves_for_each _ Hr Ht); intros ? ?
  | |- preserves _ (if ?b then _ else _) => destruct b
  | |- preserves _ (match ?x with _ => _ end) => destruct x
  end.

(** ** make_api_request *)

Section Executor.

Variable W : world.

Lemma backoff_delay_window attempt s :
  1 <= attempt ->
  (inject_Z (2 ^ attempt) <= backoff_delay attempt (next_jitter W s))%Q /\
  (backoff_delay attempt (next_jitter W s) <= inject_Z (2 ^ attempt) + 1)%Q.
Proof.
  intros H. unfold backoff_delay, next_jitter.
  assert (Hr : 0 <= rnd W (draws s) mod 2 ^ 53 < 2 ^ 53)
    by (apply Z.mod_pos_bound; reflexivity).
  destruct (jitter_range _ Hr) as [H0 H1].
  apply round_double_window; assumption.
Qed.

Lemma backoff_run attempt s :
  backoff W attempt s = (Ok tt, after_backoff W attempt s).
Proof.
  unfold backoff, after_backoff. destruct (Z.ltb_spec 0 attempt) as [H|H].
  - unfold bind, random_uniform_0_1, time_sleep. simpl.
    assert (Hq : Qle_bool 0 (backoff_delay attempt (next_jitter W s)) = true).
    { apply Qle_bool_iff.
      destruct (backoff_delay_window attempt s) as [Hl _]; [lia|].
      eapply Qle_trans; [|exact Hl].
      apply (inject_le 0). apply Z.pow_nonneg. lia. }
    rewrite Hq. reflexivity.
  - reflexivity.
Qed.

Lemma reqs_after_backoff attempt s : reqs (after_backoff W attempt s) = reqs s.
Proof. unfold after_backoff. destruct (0 <? attempt); reflexivity. Qed.

Lemma retry_after_raises r e : retry_after_of r = Raise e -> e = ValueError.
Proof.
  unfold retry_after_of.
  destruct (headers_get (response_headers r) "Retry-After") as [v|];
    [|discriminate].
  destruct (PyStr.to_int v); [discriminate|].
  intros H. inversion H. reflexivity.
Qed.

(** The outcome of one attempt, by the reply it receives. *)
Lemma api_attempt_cases url headers max_retries attempt s :
  api_attempt W url headers max_retries attempt s =
  let s1 := with_get url headers 30 (after_backoff W attempt s) in
  let on_error :=
    if attempt =? max_retries - 1 then (Ok (Some JNull), s1)
    else (Ok None, with_sleep 2 s1) in
  match net W (reqs s) with
  | NetError => on_error
  | Response c hs b =>
      if c =? 429 then
        match retry_after_of (Response c hs b) with
        | Ok n => if Qle_bool 0 (inject_Z n)
                  then (Ok None, with_sleep (inject_Z n) s1)
                  else (Raise ValueError, s1)
        | Raise _ => (Raise ValueError, s1)
        end
      else if c =? 200 then
        match b with Some j => (Ok (Some j), s1) | None => on_error end
      else if c =? 403 then (Ok None, with_sleep 5 s1)
      else if c =? 404 then (Ok (Some JNull), s1)
      else (Ok None, s1)
  end.
Proof.
  unfold api_attempt, try_except. unfold bind at 1. rewrite backoff_run.
  unfold bind at 1. unfold requests_get. rewrite reqs_after_backoff.
  destruct (net W (reqs s)) as [|c hs b]; simpl.
  - destruct (attempt =? max_retries - 1); reflexivity.
  - destruct (c =? 429).
    + unfold bind, lift, time_sleep.
      destruct (retry_after_of (Response c hs b)) as [n|e] eqn:E.
      * destruct (Qle_bool 0 (inject_Z n)); reflexivity.
      * rewrite (retry_after_raises _ _ E). reflexivity.
    + destruct (c =? 200).
      * destruct b as [j|]; simpl.
        -- reflexivity.
        -- destruct (attempt =? max_retries - 1); reflexivity.
      * destruct (c =? 403); [reflexivity|].
        destruct (c =? 404); reflexivity.
Qed.

Lemma api_attempt_reqs url headers max_retries attempt s :
  reqs (snd (api_attempt W url headers max_retries attempt s)) = S (reqs s).
Proof.
  rewrite api_attempt_cases. cbv zeta.
  assert (E : reqs (with_get url headers 30 (after_backoff W attempt s))
              = S (reqs s)) by (simpl; rewrite reqs_after_backoff; reflexivity).
  destruct (net W (reqs s)) as [|c hs b].
  - destruct (attempt =? max_retries - 1); exact E.
  - destruct (c =? 429).
    + destruct (retry_after_of (Response c hs b)) as [n|e]; [|exact E].
      destruct (Qle_bool 0 (inject_Z n)); exact E.
    + destruct (c =? 200).
      * destruct b; [exact E|].
        destruct (attempt =? max_retries - 1); exact E.
      * destruct (c =? 403); [exact E|]. destruct (c =? 404); exact E.
Qed.

Lemma api_attempt_404 url headers max_retries attempt s :
  status (net W (reqs s)) = 404 ->
  api_attempt W url headers max_retries attempt s =
  (Ok (Some JNull), with_get url headers 30 (after_backoff W attempt s)).
Proof.
  intros H. rewrite api_attempt_cases. cbv zeta.
  destruct (net W (reqs s)) as [|c hs b]; simpl in H; [discriminate|].
  subst c. reflexivity.
Qed.

(** A 404 anywhere in the attempt loop ends it. *)
Lemma attempts_404 url headers max_retries attempts s i :
  (reqs s <= i)%nat ->
  (i < reqs (snd (for_first attempts
                    (api_attempt W url headers max_retries) s)))%nat ->
  status (net W i) = 404 ->
  exists older,
    for_first attempts (api_attempt W url headers max_retries) s =
    (Ok (Some JNull),
     {| reqs := S i; draws := draws older;
        log := EvGet url headers 30 :: log older;
        orcid_cache := orcid_cache older |}).
Proof.
  revert s. induction attempts as [|a rest IH]; intros s Hle Hlt H404.
  - simpl in Hlt. lia.
  - simpl in Hlt |- *. unfold bind in Hlt |- *.
    pose proof (api_attempt_reqs url headers max_retries a s) as Hr.
    destruct (Nat.eq_dec i (reqs s)) as [->|Hne].
    + exists (after_backoff W a s).
      rewrite (api_attempt_404 _ _ _ _ _ H404). simpl.
      unfold with_get. rewrite reqs_after_backoff. reflexivity.
    + destruct (api_attempt W url headers max_retries a s) as [[[v|]|e] s1];
        simpl in Hr, Hlt |- *; try lia.
      apply IH; [lia|exact Hlt|exact H404].
Qed.


(** C7: a 404 response is terminal.  Whichever request [i] of a call is
    answered 404, the call returns None, request [i] is its last one, and
    the last event of the call is that request: nothing is slept after it. *)
Theorem not_found_is_terminal url headers max_retries s i :
  (reqs s <= i)%nat ->
  (i < reqs (snd (make_api_request W url headers max_retries s)))%nat ->
  status (net W i) = 404 ->
  exists older,
    make_api_request W url headers max_retries s =
    (Ok JNull,
     {| reqs := S i; draws := draws older;
        log := EvGet url headers 30 :: log older;
        orcid_cache := orcid_cache older |}).
Proof.
  intros Hle Hlt H404. unfold make_api_request in *. unfold bind in *.
  destruct (attempts_404 url headers max_retries (range max_retries) s i)
    as (older & E); [exact Hle| |exact H404|].
  - destruct (for_first (range max_retries)
                (api_attempt W url headers max_retries) s) as [[r|e] s1];
      exact Hlt.
  - exists older. rewrite E. reflexivity.
Qed.



(** On the first attempt, a 429 whose Retry-After header is present and is
    not an integer literal ends the call with a ValueError. *)
Lemma unparsable_retry_after_raises url headers max_retries s hs b v :
  1 <= max_retries ->
  net W (reqs s) = Response 429 hs b ->
  headers_get hs "Retry-After" = Some v ->
  PyStr.to_int v = None ->
  make_api_request W url headers max_retries s =
  (Raise ValueError, with_get url headers 30 s).
Proof.
  intros Hm H429 Hh Hv. unfold make_api_request, range.
  destruct (Z.to_nat max_retries) as [|n] eqn:E; [lia|].
  simpl. unfold bind. rewrite api_attempt_cases. cbv zeta.
  rewrite H429. unfold retry_after_of. simpl. rewrite Hh, Hv. reflexivity.
Qed.

End Executor.



(** C5: a 429 whose Retry-After header holds an HTTP date makes
    [make_api_request] raise ValueError to its caller. *)
Theorem retry_after_date_raises :
  fst (make_api_request Stub.rate_limited_until_date Stub.url [] 5
         initial_state) = Raise ValueError.
Proof. reflexivity. Qed.

(** C7, witness. *)
Lemma not_found_is_terminal_witness :
  exists older,
    make_api_request Stub.not_found_third Stub.url [] 5 initial_state =
    (Ok JNull,
     {| reqs := 3; draws := draws older;
        log := EvGet Stub.url [] 30 :: log older;
        orcid_cache := orcid_cache older |}).
Proof.
  apply (not_found_is_terminal Stub.not_found_third Stub.url [] 5
           initial_state 2).
  - simpl. lia.
  - vm_compute. lia.
  - reflexivity.
Defined.



(** ** get_institution_id *)

Section Resolver.

Variable W : world.


Lemma snoc_not_empty cur c : PyStr.is_empty (PyStr.snoc cur c) = false.
Proof. unfold PyStr.snoc. destruct cur; reflexivity. Qed.

Lemma words_not_nil cur s :
  PyStr.is_empty cur = false \/ blank s = false -> PyStr.words cur s <> [].
Proof.
  revert cur. induction s as [|c r IH]; intros cur H; simpl.
  - destruct H as [H|H]; [rewrite H; discriminate|discriminate H].
  - destruct (PyStr.is_space c) eqn:Ec.
    + destruct (PyStr.is_empty cur) eqn:Ecur; [|discriminate].
      apply IH. right. destruct H as [H|H]; [discriminate H|].
      simpl in H. rewrite Ec in H. exact H.
    + apply IH. left. apply snoc_not_empty.
Qed.







(** The candidates scanned before the first matching one. *)
Lemma scan_candidates name pre rest s :
  Forall (fun x => name_matches name x = Ok false) pre ->
  for_first (pre ++ rest) (match_candidate name) s =
  for_first rest (match_candidate name) s.
Proof.
  induction 1 as [|x pre Hx Hpre IH]; [reflexivity|].
  simpl. unfold bind at 1. unfold match_candidate at 1.
  unfold bind, lift. rewrite Hx. exact IH.
Qed.

Lemma select_first_match name results pre c post s :
  Py.iter results = Ok (pre ++ c :: post) ->
  Forall (fun x => name_matches name x = Ok false) pre ->
  name_matches name c = Ok true ->
  select_institution name results s = (chosen_id c, s).
Proof.
  intros Hi Hpre Hc. unfold select_institution.
  unfold bind at 1. unfold lift at 1. rewrite Hi.
  unfold bind at 1. rewrite (scan_candidates name pre (c :: post) s Hpre).
  simpl. unfold match_candidate, bind, lift. rewrite Hc.
  destruct (chosen_id c); reflexivity.
Qed.












End Resolver.



(** ** The ORCID cache *)

Section Cache.

Variable W : world.

Lemma key_eqb_eq a b : Py.key_eqb a b = true <-> a = b.
Proof.
  destruct a, b; simpl; split; intros H; try discriminate; try reflexivity.
  - apply Z.eqb_eq in H. subst. reflexivity.
  - inversion H. apply Z.eqb_refl.
  - apply String.eqb_eq in H. subst. reflexivity.
  - inversion H. apply String.eqb_refl.
Qed.

Lemma key_eqb_refl a : Py.key_eqb a a = true.
Proof. apply key_eqb_eq. reflexivity. Qed.

Lemma dict_lookup_set_same {V} (d : list (key * V)) k v :
  dict_lookup Py.key_eqb (dict_set Py.key_eqb d k v) k = Some v.
Proof.
  induction d as [|[k' v'] d IH]; simpl.
  - rewrite key_eqb_refl. reflexivity.
  - destruct (Py.key_eqb k' k) eqn:E; simpl; rewrite E; [reflexivity|exact IH].
Qed.

Lemma dict_lookup_set_other {V} (d : list (key * V)) k v k' :
  k <> k' ->
  dict_lookup Py.key_eqb (dict_set Py.key_eqb d k v) k' =
  dict_lookup Py.key_eqb d k'.
Proof.
  intros Hne. induction d as [|[k0 v0] d IH]; simpl.
  - destruct (Py.key_eqb k k') eqn:E; [|reflexivity].
    apply key_eqb_eq in E. contradiction.
  - destruct (Py.key_eqb k0 k) eqn:E; simpl.
    + apply key_eqb_eq in E. subst k0.
      destruct (Py.key_eqb k k') eqn:E'; [|reflexivity].
      apply key_eqb_eq in E'. contradiction.
    + rewrite IH. reflexivity.
Qed.

Lemma same_cache_refl s : same_cache s s.
Proof. reflexivity. Qed.

Lemma same_cache_trans s1 s2 s3 :
  same_cache s1 s2 -> same_cache s2 s3 -> same_cache s1 s3.
Proof. unfold same_cache. intros H1 H2. rewrite H2. exact H1. Qed.

Lemma cache_kept_refl s : cache_kept s s.
Proof. intros k v H. exact H. Qed.

Lemma cache_kept_trans s1 s2 s3 :
  cache_kept s1 s2 -> cache_kept s2 s3 -> cache_kept s1 s3.
Proof. intros H1 H2 k v H. apply H2, H1, H. Qed.

Lemma same_cache_kept s s' : same_cache s s' -> cache_kept s s'.
Proof. intros H k v. unfold cache_entry. rewrite H. trivial. Qed.

Lemma preserves_weaken {A} (R R' : state -> state -> Prop) (c : M A) :
  (forall s s', R s s' -> R' s s') -> preserves R c -> preserves R' c.
Proof. intros Hw Hc s. apply Hw, Hc. Qed.

Lemma requests_get_cache url headers timeout :
  preserves same_cache (requests_get W url headers timeout).
Proof.
  intros s. unfold requests_get. destruct (net W (reqs s)); reflexivity.
Qed.

Lemma time_sleep_cache seconds : preserves same_cache (time_sleep seconds).
Proof.
  intros s. unfold time_sleep. destruct (Qle_bool 0 seconds); reflexivity.
Qed.

Lemma make_api_request_cache url headers max_retries :
  preserves same_cache (make_api_request W url headers max_retries).
Proof.
  unfold make_api_request.
  apply (preserves_bind _ same_cache_trans);
    [|intros r; apply (preserves_ret _ same_cache_refl)].
  apply (preserves_for_first _ same_cache_refl same_cache_trans).
  intros attempt s. rewrite api_attempt_cases. cbv zeta.
  assert (E : same_cache s
                (with_get url headers 30 (after_backoff W attempt s))).
  { unfold same_cache, after_backoff. destruct (0 <? attempt); reflexivity. }
  destruct (net W (reqs s)) as [|c hs b].
  - destruct (attempt =? max_retries - 1); exact E.
  - destruct (c =? 429).
    + destruct (retry_after_of (Response c hs b)) as [n|e]; [|exact E].
      destruct (Qle_bool 0 (inject_Z n)); exact E.
    + destruct (c =? 200).
      * destruct b; [exact E|].
        destruct (attempt =? max_retries - 1); exact E.
      * destruct (c =? 403); [exact E|]. destruct (c =? 404); exact E.
Qed.

(** The [try] block of [enrich_with_orcid], by the reply it receives. *)
Lemma orcid_fetch_cases id k s :
  orcid_fetch W id k s =
  let s1 := with_get (orcid_url id) orcid_headers 15 s in
  match net W (reqs s) with
  | NetError => (Raise RequestException, s1)
  | Response c hs b =>
      if c =? 200 then
        match b with
        | None => (Raise RequestException, s1)
        | Some data =>
            match public_email data with
            | Raise e => (Raise e, s1)
            | Ok email =>
                match first_department data with
                | Raise e => (Raise e, s1)
                | Ok department =>
                    (Ok (Some (Orcid email department)),
                     with_entry k (Orcid email department) s1)
                end
            end
        end
      else (Ok None, s1)
  end.
Proof.
  unfold orcid_fetch. unfold bind at 1. unfold requests_get.
  destruct (net W (reqs s)) as [|c hs b]; simpl; [reflexivity|].
  destruct (c =? 200); [|reflexivity].
  destruct b as [data|]; simpl; [|reflexivity].
  unfold bind, lift, cache_store, ret. cbv beta iota.
  destruct (public_email data); [|reflexivity].
  destruct (first_department data); reflexivity.
Qed.

Lemma enrich_hit id k result s :
  Py.hash_key id = Ok k ->
  cache_entry s k = Some result ->
  enrich_with_orcid W id s = (Ok result, s).
Proof.
  intros Hk Hc. unfold enrich_with_orcid, bind, lift, cache_lookup.
  rewrite Hk. unfold cache_entry in Hc. rewrite Hc. reflexivity.
Qed.

(** A call that is not served by the cache, by the reply it receives. *)
Lemma enrich_miss id k s :
  Py.hash_key id = Ok k ->
  cache_entry s k = None ->
  enrich_with_orcid W id s =
  let s1 := with_get (orcid_url id) orcid_headers 15 s in
  match net W (reqs s) with
  | Response c hs (Some data) =>
      if c =? 200 then
        match public_email data, first_department data with
        | Ok email, Ok department =>
            (Ok (Orcid email department),
             with_entry k (Orcid email department) s1)
        | _, _ => (Ok NoOrcid, s1)
        end
      else (Ok NoOrcid, s1)
  | _ => (Ok NoOrcid, s1)
  end.
Proof.
  intros Hk Hc. unfold enrich_with_orcid.
  unfold bind at 1. unfold lift. rewrite Hk.
  unfold bind at 1. unfold cache_lookup. unfold cache_entry in Hc. rewrite Hc.
  unfold bind, try_except. rewrite orcid_fetch_cases. cbv zeta.
  destruct (net W (reqs s)) as [|c hs [data|]]; try reflexivity.
  - destruct (c =? 200); [|reflexivity].
    destruct (public_email data); [|reflexivity].
    destruct (first_department data); reflexivity.
  - destruct (c =? 200); reflexivity.
Qed.

Lemma enrich_with_orcid_cache id :
  preserves cache_kept (enrich_with_orcid W id).
Proof.
  intros s. destruct (Py.hash_key id) as [k|e] eqn:Hk.
  - destruct (cache_entry s k) as [result|] eqn:Hc.
    + rewrite (enrich_hit id k result s Hk Hc). apply cache_kept_refl.
    + rewrite (enrich_miss id k s Hk Hc). cbv zeta.
      assert (E : cache_kept s (with_get (orcid_url id) orcid_headers 15 s))
        by (apply same_cache_kept; reflexivity).
      assert (F : forall r, cache_kept s
                (with_entry k r (with_get (orcid_url id) orcid_headers 15 s))).
      { intros r k' v Hv. unfold cache_entry, with_entry. simpl.
        rewrite dict_lookup_set_other; [exact Hv|].
        intros ->. rewrite Hc in Hv. discriminate Hv. }
      destruct (net W (reqs s)) as [|c hs [data|]]; try exact E.
      * destruct (c =? 200); [|exact E].
        destruct (public_email data); [|exact E].
        destruct (first_department data); [apply F|exact E].
  - unfold enrich_with_orcid, bind, lift. rewrite Hk. apply cache_kept_refl.
Qed.

Lemma make_api_request_kept url headers max_retries :
  preserves cache_kept (make_api_request W url headers max_retries).
Proof.
  apply (preserves_weaken same_cache); [exact same_cache_kept|].
  apply make_api_request_cache.
Qed.

Lemma time_sleep_kept seconds : preserves cache_kept (time_sleep seconds).
Proof.
  apply (preserves_weaken same_cache); [exact same_cache_kept|].
  apply time_sleep_cache.
Qed.

(** Walk through the code of a function that touches the cache only
    through [enrich_with_orcid]. *)
Ltac cache_walk :=
  repeat lazymatch goal with
    | |- preserves _ (make_api_request _ _ _ _) => apply make_api_request_kept
    | |- preserves _ (time_sleep _) => apply time_sleep_kept
    | |- preserves _ (enrich_with_orcid _ _) => apply enrich_with_orcid_cache
    | |- preserves _ (let _ := _ in _) => cbv zeta
    | |- _ => preserves_step cache_kept_refl cache_kept_trans
    end.

Lemma get_institution_id_kept name :
  preserves cache_kept (get_institution_id W name).
Proof.
  unfold get_institution_id, try_search_term, select_institution,
    match_candidate.
  cache_walk.
Qed.

Lemma find_authors_by_works_kept keyword institution_id university_name :
  preserves cache_kept
    (find_authors_by_works W keyword institution_id university_name).
Proof.
  unfold find_authors_by_works, scan_work, scan_authorship, new_author,
    authorship_institution, enrich_if_present, fetch_details.
  cache_walk.
Qed.

Lemma find_authors_direct_kept keyword institution_id university_name :
  preserves cache_kept
    (find_authors_direct W keyword institution_id university_name).
Proof.
  unfold find_authors_direct, direct_author, enrich_if_present.
  cache_walk.
Qed.

Lemma find_authors_kept keyword institution_id university_name :
  preserves cache_kept
    (find_authors W keyword institution_id university_name).
Proof.
  unfold find_authors, append_if_new.
  repeat lazymatch goal with
    | |- preserves _ (find_authors_by_works _ _ _ _) =>
        apply find_authors_by_works_kept
    | |- preserves _ (find_authors_direct _ _ _ _) =>
        apply find_authors_direct_kept
    | |- _ => preserves_step cache_kept_refl cache_kept_trans
    end.
Qed.

Lemma find_researchers_with_api_kept universities keywords :
  preserves cache_kept (find_researchers_with_api W universities keywords).
Proof.
  unfold find_researchers_with_api, collect_authors, resolve_university,
    search_university, search_keyword.
  repeat lazymatch goal with
    | |- preserves _ (get_institution_id _ _) => apply get_institution_id_kept
    | |- preserves _ (find_authors _ _ _ _) => apply find_authors_kept
    | |- preserves _ (time_sleep _) => apply time_sleep_kept
    | |- preserves _ (let _ := _ in _) => cbv zeta
    | |- _ => preserves_step cache_kept_refl cache_kept_trans
    end.
Qed.

Lemma exec_kept c s : cache_kept s (exec W c s).
Proof.
  destruct c; simpl.
  - apply make_api_request_kept.
  - apply enrich_with_orcid_cache.
  - apply get_institution_id_kept.
  - apply find_authors_by_works_kept.
  - apply find_authors_direct_kept.
  - apply find_authors_kept.
  - apply find_researchers_with_api_kept.
Qed.

Lemma exec_all_kept calls s : cache_kept s (exec_all W calls s).
Proof.
  revert s. induction calls as [|c calls IH]; intros s; simpl.
  - apply cache_kept_refl.
  - eapply cache_kept_trans; [apply exec_kept|apply IH].
Qed.

(** C6: once a call of [enrich_with_orcid] for an identifier has returned
    a result built from a 200 response, every later call in the process
    with that identifier returns the same result and leaves the state as it
    is: no request is issued.  A call that is not served by the cache and
    fails (network error, non-200 status, a body that is not JSON, an
    exception while reading the document) returns the empty result, issues
    its one request and leaves the cache as it was, so the next call with
    the identifier issues a request again. *)
Theorem orcid_cache_contract id k :
  Py.hash_key id = Ok k ->
  (forall s email department s1,
     enrich_with_orcid W id s = (Ok (Orcid email department), s1) ->
     forall calls,
       enrich_with_orcid W id (exec_all W calls s1) =
       (Ok (Orcid email department), exec_all W calls s1)) /\
  (forall s,
     cache_entry s k = None ->
     (net W (reqs s) = NetError \/
      (exists c hs b, net W (reqs s) = Response c hs b /\ c <> 200) \/
      (exists hs, net W (reqs s) = Response 200 hs None) \/
      (exists hs data e,
         net W (reqs s) = Response 200 hs (Some data) /\
         (public_email data = Raise e \/ first_department data = Raise e))) ->
     let s1 := with_get (orcid_url id) orcid_headers 15 s in
     enrich_with_orcid W id s = (Ok NoOrcid, s1) /\
     orcid_cache s1 = orcid_cache s /\
     reqs (snd (enrich_with_orcid W id s1)) = S (reqs s1)).
Proof.
  intros Hk. split.
  - intros s email department s1 Hrun calls.
    apply (enrich_hit id k _ _ Hk).
    apply exec_all_kept.
    destruct (cache_entry s k) as [result|] eqn:Hc.
    + rewrite (enrich_hit id k result s Hk Hc) in Hrun.
      inversion Hrun. subst. exact Hc.
    + rewrite (enrich_miss id k s Hk Hc) in Hrun. cbv zeta in Hrun.
      destruct (net W (reqs s)) as [|c hs [data|]]; try discriminate Hrun.
      destruct (c =? 200); [|discriminate Hrun].
      destruct (public_email data) as [em|]; [|discriminate Hrun].
      destruct (first_department data) as [dp|]; [|discriminate Hrun].
      inversion Hrun. subst. unfold cache_entry, with_entry. simpl.
      apply dict_lookup_set_same.
  - intros s Hc Hfail s1.
    assert (Hrun : enrich_with_orcid W id s = (Ok NoOrcid, s1)).
    { rewrite (enrich_miss id k s Hk Hc). cbv zeta. fold s1.
      destruct Hfail as [E|[(c & hs & b & E & Hne)|[(hs & E)|
                         (hs & data & e & E & He)]]]; rewrite E.
      - reflexivity.
      - destruct (Z.eqb_spec c 200) as [->|_]; [contradiction|].
        destruct b; reflexivity.
      - reflexivity.
      - simpl. destruct He as [He|He]; rewrite He; [reflexivity|].
        destruct (public_email data); reflexivity. }
    split; [exact Hrun|]. split; [reflexivity|].
    assert (Hc1 : cache_entry s1 k = None) by exact Hc.
    rewrite (enrich_miss id k s1 Hk Hc1). cbv zeta.
    destruct (net W (reqs s1)) as [|c hs [data|]]; try reflexivity.
    destruct (c =? 200); [|reflexivity].
    destruct (public_email data); [|reflexivity].
    destruct (first_department data); reflexivity.
Qed.

End Cache.

(** C6, witness: the first call for an identifier is answered 200; after
    another lookup and an API request the identifier is served from the
    cache. *)
Lemma orcid_cache_contract_witness :
  let W := Stub.registry_up_once in
  let id := JStr "0000-0002-1825-0097" in
  let s1 := snd (enrich_with_orcid W id initial_state) in
  let later := exec_all W [CallEnrich (JStr "0000-0001-5109-3700");
                           CallApi Stub.url [] 5] s1 in
  Py.hash_key id = Ok (KStr "0000-0002-1825-0097") /\
  enrich_with_orcid W id later =
  (Ok (Orcid (JStr "j.doe@example.org") (JStr "Physics")), later).
Proof.
  cbv zeta. split; [reflexivity|].
  destruct (orcid_cache_contract Stub.registry_up_once
              (JStr "0000-0002-1825-0097") (KStr "0000-0002-1825-0097")
              eq_refl) as [Hhit _].
  apply (Hhit initial_state (JStr "j.doe@example.org") (JStr "Physics")).
  reflexivity.
Defined.

(** ** find_authors_by_works *)

Section ByWorks.

Variable W : world.

Lemma dict_lookup_none_not_in {V} (d : list (key * V)) k :
  dict_lookup Py.key_eqb d k = None -> ~ In k (map fst d).
Proof.
  induction d as [|[k' v'] d IH]; simpl; intros H; [tauto|].
  destruct (Py.key_eqb k' k) eqn:E; [discriminate H|].
  intros [->|Hin]; [rewrite key_eqb_refl in E; discriminate E|].
  exact (IH H Hin).
Qed.

Lemma dict_set_new {V} (d : list (key * V)) k v :
  dict_lookup Py.key_eqb d k = None ->
  dict_set Py.key_eqb d k v = d ++ [(k, v)].
Proof.
  induction d as [|[k' v'] d IH]; simpl; intros H; [reflexivity|].
  destruct (Py.key_eqb k' k); [discriminate H|].
  rewrite (IH H). reflexivity.
Qed.

Lemma new_author_id keyword institution_id university_name work authorship
    author author_id s record s' :
  new_author W keyword institution_id university_name work authorship
    author author_id s = (Ok record, s') ->
  OpenAlex_ID record = author_id.
Proof.
  unfold new_author. intros H.
  apply bind_ok_inv in H. destruct H as (inst & s1 & _ & H).
  apply bind_lift_inv in H. destruct H as (doi & _ & H).
  apply bind_lift_inv in H. destruct H as (title & _ & H).
  apply bind_lift_inv in H. destruct H as (paper_url & _ & H).
  apply bind_lift_inv in H. destruct H as (orcid_id & _ & H).
  apply bind_ok_inv in H. destruct H as (enriched & s2 & _ & H).
  apply bind_lift_inv in H. destruct H as (full_name & _ & H).
  apply bind_lift_inv in H. destruct H as (recent_title & _ & H).
  apply ret_ok_inv in H. destruct H as [-> _]. reflexivity.
Qed.

Lemma dict_ok_nil : dict_ok [].
Proof. split; constructor. Qed.

Lemma dict_ok_add d k record :
  dict_ok d ->
  dict_lookup Py.key_eqb d k = None ->
  Py.hash_key (OpenAlex_ID record) = Ok k ->
  dict_ok (dict_set Py.key_eqb d k record).
Proof.
  intros [Hnd Hall] Hnone Hk. rewrite (dict_set_new d k record Hnone). split.
  - rewrite map_app. simpl. apply NoDup_app.
    + exact Hnd.
    + constructor; [simpl; tauto|constructor].
    + intros x Hx [E|[]]. subst x.
      exact (dict_lookup_none_not_in d k Hnone Hx).
  - apply Forall_app. split; [exact Hall|]. constructor; [exact Hk|constructor].
Qed.

Lemma scan_authorship_ok keyword institution_id university_name work
    d authorship s d' s' :
  dict_ok d ->
  scan_authorship W keyword institution_id university_name work d authorship s
  = (Ok d', s') ->
  dict_ok d'.
Proof.
  intros Hd H. unfold scan_authorship in H.
  apply bind_lift_inv in H. destruct H as (author & _ & H).
  apply bind_lift_inv in H. destruct H as ([|] & _ & H).
  - apply bind_lift_inv in H. destruct H as (author_id & _ & H).
    apply bind_lift_inv in H. destruct H as (k & Hk & H).
    unfold dict_mem in H.
    destruct (dict_lookup Py.key_eqb d k) eqn:Hl; simpl in H.
    + apply ret_ok_inv in H. destruct H as [-> _]. exact Hd.
    + apply bind_ok_inv in H. destruct H as (record & s1 & Hnew & H).
      apply ret_ok_inv in H. destruct H as [-> _].
      apply dict_ok_add; [exact Hd|exact Hl|].
      rewrite (new_author_id _ _ _ _ _ _ _ _ _ _ Hnew). exact Hk.
  - apply ret_ok_inv in H. destruct H as [-> _]. exact Hd.
Qed.

Lemma scan_work_ok keyword institution_id university_name d work s d' s' :
  dict_ok d ->
  scan_work W keyword institution_id university_name d work s = (Ok d', s') ->
  dict_ok d'.
Proof.
  intros Hd H. unfold scan_work in H.
  apply bind_lift_inv in H. destruct H as (authorships & _ & H).
  apply bind_lift_inv in H. destruct H as (items & _ & H).
  eapply (for_each_invariant dict_ok); [|exact Hd|exact H].
  intros acc x s0 acc' s0' Hacc Hstep.
  eapply scan_authorship_ok; eassumption.
Qed.

Lemma scan_works_ok keyword institution_id university_name works s d s' :
  for_each works [] (scan_work W keyword institution_id university_name) s
  = (Ok d, s') ->
  dict_ok d.
Proof.
  intros H. eapply (for_each_invariant dict_ok); [|exact dict_ok_nil|exact H].
  intros acc x s0 acc' s0' Hacc Hstep. eapply scan_work_ok; eassumption.
Qed.

Lemma apply_details_id a detailed a' :
  apply_details a detailed = Ok a' -> OpenAlex_ID a' = OpenAlex_ID a.
Proof.
  unfold apply_details.
  destruct (Py.get detailed "last_known_institution" (JObj [])) as [lki|];
    [|discriminate]. simpl.
  destruct (has_display_name lki) as [named|]; [|discriminate]. simpl.
  destruct named.
  - destruct (Py.item lki "display_name") as [n|]; [|discriminate]. simpl.
    destruct (Py.get detailed "works_count" (JNum 0)); [|discriminate]. simpl.
    destruct (Py.get detailed "cited_by_count" (JNum 0)); [|discriminate].
    simpl. intros H. inversion H. reflexivity.
  - simpl.
    destruct (Py.get detailed "works_count" (JNum 0)); [|discriminate]. simpl.
    destruct (Py.get detailed "cited_by_count" (JNum 0)); [|discriminate].
    simpl. intros H. inversion H. reflexivity.
Qed.

Lemma fetch_details_step acc entry s acc' s' :
  fetch_details W acc entry s = (Ok acc', s') ->
  exists a', acc' = acc ++ [a'] /\ OpenAlex_ID a' = OpenAlex_ID (snd entry).
Proof.
  unfold fetch_details. intros H.
  apply bind_ok_inv in H. destruct H as (u & s1 & _ & H).
  apply bind_ok_inv in H. destruct H as (detailed & s2 & _ & H).
  apply bind_lift_inv in H. destruct H as (a' & Ha & H).
  apply ret_ok_inv in H. destruct H as [-> _].
  exists a'. split; [reflexivity|].
  destruct (Py.truthy detailed).
  - apply (apply_details_id _ _ _ Ha).
  - inversion Ha. reflexivity.
Qed.

(** The detail loop returns one record per entry, in order, under the
    entry's identifier. *)
Lemma fetch_details_ids entries acc s l s' :
  for_each entries acc (fetch_details W) s = (Ok l, s') ->
  map OpenAlex_ID l =
  map OpenAlex_ID acc ++ map (fun e => OpenAlex_ID (snd e)) entries.
Proof.
  revert acc s.
  induction entries as [|e entries IH]; intros acc s H; simpl in H.
  - apply ret_ok_inv in H. destruct H as [-> _]. simpl.
    rewrite app_nil_r. reflexivity.
  - apply bind_ok_inv in H. destruct H as (acc1 & s1 & Hstep & H).
    destruct (fetch_details_step _ _ _ _ _ Hstep) as (a' & -> & Hid).
    rewrite (IH _ _ H). rewrite map_app. simpl. rewrite Hid.
    rewrite <- app_assoc. reflexivity.
Qed.

(** What a successful run of the work-centric strategy went through. *)
Lemma by_works_result keyword institution_id university_name s authors s' :
  find_authors_by_works W keyword institution_id university_name s
  = (Ok authors, s') ->
  exists data s1,
    make_api_request W (works_url keyword institution_id) api_headers 5 s
    = (Ok data, s1) /\
    ((has_results data = Ok false /\ authors = [] /\ s' = s1) \/
     (exists results works authors_dict s2,
        has_results data = Ok true /\
        Py.item data "results" = Ok results /\
        Py.iter results = Ok works /\
        for_each works []
          (scan_work W keyword institution_id university_name) s1
        = (Ok authors_dict, s2) /\
        dict_ok authors_dict /\
        map OpenAlex_ID authors =
        map (fun e => OpenAlex_ID (snd e)) (firstn 20 authors_dict) /\
        List.length authors = Nat.min 20 (List.length authors_dict))).
Proof.
  intros H. unfold find_authors_by_works in H.
  apply bind_ok_inv in H. destruct H as (data & s1 & Hq & H).
  apply bind_lift_inv in H. destruct H as (found & Hfound & H).
  exists data, s1. split; [exact Hq|].
  destruct found; cbn [negb] in H.
  - apply bind_lift_inv in H. destruct H as (results & Hitem & H).
    apply bind_lift_inv in H. destruct H as (works & Hiter & H).
    apply bind_ok_inv in H. destruct H as (authors_dict & s2 & Hscan & H).
    pose proof (fetch_details_ids _ _ _ _ _ H) as Hids.
    cbn [map app] in Hids.
    right. exists results, works, authors_dict, s2.
    split; [exact Hfound|]. split; [exact Hitem|]. split; [exact Hiter|].
    split; [exact Hscan|].
    split; [exact (scan_works_ok _ _ _ _ _ _ _ Hscan)|].
    split; [exact Hids|].
    rewrite <- (length_map OpenAlex_ID), Hids, length_map.
    apply length_firstn.
  - apply ret_ok_inv in H. destruct H as [-> ->].
    left. split; [exact Hfound|]. split; reflexivity.
Qed.

(** C9: find_authors_by_works returns at most 20 records.  When the scan of
    the works page found the authors [authors_dict] (one entry per author
    identifier, in the order of first encounter), the records returned are
    those of its first 20 entries; the authors beyond them are not in the
    result at all. *)
Theorem by_works_at_most_20 keyword institution_id university_name s
    authors s' :
  find_authors_by_works W keyword institution_id university_name s
  = (Ok authors, s') ->
  (List.length authors <= 20)%nat /\
  exists data s1,
    make_api_request W (works_url keyword institution_id) api_headers 5 s
    = (Ok data, s1) /\
    ((has_results data = Ok false /\ authors = [] /\ s' = s1) \/
     (exists results works authors_dict s2,
        has_results data = Ok true /\
        Py.item data "results" = Ok results /\
        Py.iter results = Ok works /\
        for_each works []
          (scan_work W keyword institution_id university_name) s1
        = (Ok authors_dict, s2) /\
        dict_ok authors_dict /\
        map OpenAlex_ID authors =
        map (fun e => OpenAlex_ID (snd e)) (firstn 20 authors_dict) /\
        List.length authors = Nat.min 20 (List.length authors_dict))).
Proof.
  intros H. pose proof (by_works_result _ _ _ _ _ _ H) as R.
  split; [|exact R].
  destruct R as (data & s1 & _ & [(_ & -> & _)|
                 (results & works & d & s2 & _ & _ & _ & _ & _ & _ & Hlen)]).
  - simpl. lia.
  - rewrite Hlen. apply Nat.le_min_l.
Qed.

End ByWorks.

(** C9, witness: a works page by 21 different authors yields the first 20
    of them. *)
Lemma by_works_at_most_20_witness :
  exists authors s',
    find_authors_by_works Stub.twenty_one_authors "cooling" (JStr "1")
      "Example University" initial_state = (Ok authors, s') /\
    (List.length authors <= 20)%nat /\
    map OpenAlex_ID authors = map JStr (firstn 20 Stub.letters).
Proof.
  destruct (find_authors_by_works Stub.twenty_one_authors "cooling" (JStr "1")
              "Example University" initial_state)
    as [[authors|e] s'] eqn:E.
  - exists authors, s'. split; [reflexivity|]. split.
    + exact (proj1 (by_works_at_most_20 Stub.twenty_one_authors "cooling"
                      (JStr "1") "Example University" initial_state _ _ E)).
    + vm_compute in E. inversion E. reflexivity.
  - vm_compute in E. discriminate E.
Defined.

(** ** find_authors *)

Section Merge.

Variable W : world.

Lemma key_in_In k ks : key_in k ks = true <-> In k ks.
Proof.
  unfold key_in. rewrite existsb_exists. split.
  - intros (x & Hx & E). apply key_eqb_eq in E. subst x. exact Hx.
  - intros H. exists k. split; [exact H|apply key_eqb_refl].
Qed.

Lemma id_set_row_keys l ks : id_set l = Ok ks -> ks = map row_key l.
Proof.
  revert ks. induction l as [|a l IH]; simpl; intros ks H.
  - inversion H. reflexivity.
  - unfold row_key at 1.
    destruct (Py.hash_key (OpenAlex_ID a)) as [k|]; [|discriminate H].
    simpl in H. destruct (id_set l) as [ks'|]; [|discriminate H].
    simpl in H. inversion H. rewrite (IH ks' eq_refl). reflexivity.
Qed.

Lemma id_set_hashable l :
  Forall (fun b => exists k, Py.hash_key (OpenAlex_ID b) = Ok k) l ->
  id_set l = Ok (map row_key l).
Proof.
  induction 1 as [|a l (k & Hk) Hl IH]; simpl; [reflexivity|].
  unfold row_key at 1. rewrite Hk, IH. reflexivity.
Qed.

Lemma id_set_ext l l' :
  map OpenAlex_ID l = map OpenAlex_ID l' -> id_set l = id_set l'.
Proof.
  revert l'. induction l as [|a l IH]; intros [|a' l'] H;
    try discriminate H; [reflexivity|].
  simpl in H. inversion H as [[Ha Hl]]. simpl. rewrite Ha, (IH l' Hl).
  reflexivity.
Qed.

Lemma id_set_entries (d : authors_dict_t) :
  Forall (fun e => Py.hash_key (OpenAlex_ID (snd e)) = Ok (fst e)) d ->
  id_set (map snd d) = Ok (map fst d).
Proof.
  induction 1 as [|e d He Hd IH]; simpl; [reflexivity|].
  rewrite He, IH. reflexivity.
Qed.

Lemma firstn_In {A} n (l : list A) x : In x (firstn n l) -> In x l.
Proof.
  revert n. induction l as [|y l IH]; intros [|n]; simpl; try tauto.
  intros [H|H]; [left; exact H|right; exact (IH n H)].
Qed.

Lemma NoDup_firstn {A} n (l : list A) : NoDup l -> NoDup (firstn n l).
Proof.
  intros H. revert n. induction H as [|x l Hx Hl IH]; intros [|n]; simpl;
    try constructor.
  - intros Hin. apply Hx. eapply firstn_In; exact Hin.
  - apply IH.
Qed.

Lemma Forall_firstn {A} (P : A -> Prop) n (l : list A) :
  Forall P l -> Forall P (firstn n l).
Proof.
  intros H. revert n. induction H as [|x l Hx Hl IH]; intros [|n]; simpl;
    constructor; [exact Hx|apply IH].
Qed.

(** The records of the work-centric strategy carry pairwise different,
    hashable identifiers. *)
Lemma by_works_keys keyword institution_id university_name s A s1 :
  find_authors_by_works W keyword institution_id university_name s
  = (Ok A, s1) ->
  id_set A = Ok (map row_key A) /\ NoDup (map row_key A).
Proof.
  intros H.
  destruct (by_works_result W _ _ _ _ _ _ H)
    as (data & s0 & _ & [(_ & -> & _)|
         (results & works & d & s2 & _ & _ & _ & _ & [Hnd Hall] & Hids & _)]).
  - split; [reflexivity|constructor].
  - assert (E : id_set A = Ok (map fst (firstn 20 d))).
    { rewrite (id_set_ext A (map snd (firstn 20 d)))
        by (rewrite map_map; exact Hids).
      apply id_set_entries. apply Forall_firstn. exact Hall. }
    rewrite <- (id_set_row_keys A _ E). split; [exact E|].
    rewrite <- firstn_map. apply NoDup_firstn. exact Hnd.
Qed.

(** The loop over the direct-search records appends those whose key is not
    among [existing_ids]. *)
Lemma merge_loop existing B acc s :
  Forall (fun b => exists k, Py.hash_key (OpenAlex_ID b) = Ok k) B ->
  for_each B acc (append_if_new existing) s =
  (Ok (acc ++ filter (fun b => negb (key_in (row_key b) existing)) B), s).
Proof.
  intros H. revert acc. induction H as [|b B (k & Hk) HB IH]; intros acc; simpl.
  - rewrite app_nil_r. reflexivity.
  - unfold bind at 1. unfold append_if_new at 1. unfold bind, lift.
    rewrite Hk. unfold row_key at 1. rewrite Hk.
    destruct (key_in k existing); simpl.
    + apply IH.
    + rewrite IH. rewrite <- app_assoc. reflexivity.
Qed.

Lemma filter_map_length {A B} (g : A -> B) (f : B -> bool) l :
  List.length (filter (fun a => f (g a)) l) =
  List.length (filter f (map g l)).
Proof.
  induction l as [|a l IH]; simpl; [reflexivity|].
  destruct (f (g a)); simpl; rewrite IH; reflexivity.
Qed.

Lemma union_count ka kb :
  NoDup ka -> NoDup kb ->
  (List.length ka
   + List.length (filter (fun k => negb (key_in k ka)) kb))%nat
  = List.length (nodup key_dec (ka ++ kb)).
Proof.
  intros Ha Hb. rewrite <- length_app.
  apply Permutation_length. apply NoDup_Permutation.
  - apply NoDup_app; [exact Ha|apply NoDup_filter; exact Hb|].
    intros x Hx Hf. apply filter_In in Hf. destruct Hf as [_ Hf].
    apply key_in_In in Hx. rewrite Hx in Hf. discriminate Hf.
  - apply NoDup_nodup.
  - intros x. rewrite nodup_In, !in_app_iff, filter_In. split.
    + intros [H|[H _]]; [left|right]; exact H.
    + intros [H|H]; [left; exact H|].
      destruct (key_in x ka) eqn:E.
      * left. apply key_in_In. exact E.
      * right. split; [exact H|reflexivity].
Qed.

(** C2, as amended: find_authors runs the work-centric strategy first.
    With 5 records or more it returns them as they are and nothing else is
    run; with fewer than 5 it runs the direct search from there and appends,
    after all work-centric records and in order, exactly the direct-search
    records whose identifier is not among the work-centric ones.  The final
    count equals the size of the union of the two identifier sets when the
    direct-search records carry pairwise different identifiers. *)
Theorem find_authors_merge keyword institution_id university_name s A s1 :
  find_authors_by_works W keyword institution_id university_name s
  = (Ok A, s1) ->
  ((5 <= List.length A)%nat ->
   find_authors W keyword institution_id university_name s = (Ok A, s1)) /\
  ((List.length A < 5)%nat ->
   forall B s2,
     find_authors_direct W keyword institution_id university_name s1
     = (Ok B, s2) ->
     Forall (fun b => exists k, Py.hash_key (OpenAlex_ID b) = Ok k) B ->
     find_authors W keyword institution_id university_name s =
     (Ok (A ++ filter (fun b => negb (key_in (row_key b) (map row_key A))) B),
      s2) /\
     (NoDup (map row_key B) ->
      List.length
        (A ++ filter (fun b => negb (key_in (row_key b) (map row_key A))) B)
      = union_size A B)).
Proof.
  intros HA. destruct (by_works_keys _ _ _ _ _ _ HA) as [Hset Hnd].
  split.
  - intros Hlen. unfold find_authors, bind. rewrite HA.
    destruct (Z.ltb_spec (Z.of_nat (List.length A)) 5); [lia|reflexivity].
  - intros Hlen B s2 HB Hhash. split.
    + unfold find_authors. unfold bind at 1. rewrite HA.
      destruct (Z.ltb_spec (Z.of_nat (List.length A)) 5); [|lia].
      unfold bind at 1. rewrite HB.
      unfold bind, lift. rewrite Hset.
      apply merge_loop. exact Hhash.
    + intros HndB. unfold union_size. rewrite <- (union_count _ _ Hnd HndB).
      rewrite length_app, length_map.
      rewrite (filter_map_length row_key
                 (fun k => negb (key_in k (map row_key A)))).
      reflexivity.
Qed.

End Merge.

(** C2, witness: three works by the authors a, b, a give two work-centric
    records; the direct search returns b, c, d, of which c and d are
    appended: four records for the four identifiers. *)
Lemma find_authors_merge_witness :
  exists authors s',
    find_authors Stub.two_strategies "cooling" (JStr "1") "Example University"
      initial_state = (Ok authors, s') /\
    map OpenAlex_ID authors = [JStr "a"; JStr "b"; JStr "c"; JStr "d"].
Proof.
  destruct (find_authors_by_works Stub.two_strategies "cooling" (JStr "1")
              "Example University" initial_state) as [[A|e] s1] eqn:EA;
    [|vm_compute in EA; discriminate EA].
  destruct (find_authors_merge Stub.two_strategies "cooling" (JStr "1")
              "Example University" initial_state A s1 EA) as [_ Hfew].
  vm_compute in EA. injection EA as <- <-.
  match type of Hfew with
  | _ -> forall B s2, ?run ?s1 = _ -> _ =>
      destruct (run s1) as [[B|e] s2] eqn:EB;
        [|vm_compute in EB; discriminate EB]
  end.
  specialize (Hfew ltac:(simpl; lia) B s2 eq_refl).
  vm_compute in EB. injection EB as <- <-.
  destruct Hfew as [Hrun _].
  - repeat constructor; eexists; reflexivity.
  - eexists. eexists. split; [exact Hrun|]. reflexivity.
Defined.

(** C2, counterexample: the work-centric strategy finds nobody and the
    direct search returns the same author twice; both records are appended,
    two records for one identifier. *)
Lemma find_authors_repeats_direct_duplicates :
  exists A s1 B s2 authors,
    find_authors_by_works Stub.repeated_direct "cooling" (JStr "1")
      "Example University" initial_state = (Ok A, s1) /\
    find_authors_direct Stub.repeated_direct "cooling" (JStr "1")
      "Example University" s1 = (Ok B, s2) /\
    find_authors Stub.repeated_direct "cooling" (JStr "1")
      "Example University" initial_state = (Ok authors, s2) /\
    List.length authors = 2%nat /\
    union_size A B = 1%nat.
Proof.
  do 5 eexists. split; [vm_compute; reflexivity|].
  split; [vm_compute; reflexivity|].
  split; [vm_compute; reflexivity|].
  split; vm_compute; reflexivity.
Qed.

(** ** find_researchers_with_api *)

Section Orchestrator.

Variable W : world.

Lemma search_keyword_step uni_name uni_id acc keyword s acc' s' :
  search_keyword W uni_name uni_id acc keyword s = (Ok acc', s') ->
  exists authors s1,
    find_authors W keyword uni_id uni_name s = (Ok authors, s1) /\
    acc' = acc ++ authors /\ s' = with_sleep 2 s1.
Proof.
  unfold search_keyword. intros H.
  apply bind_ok_inv in H. destruct H as (authors & s1 & Hf & H).
  cbv zeta in H. unfold bind, time_sleep in H. simpl in H.
  exists authors, s1. split; [exact Hf|].
  inversion H. split; [|reflexivity].
  destruct authors; [rewrite app_nil_r|]; reflexivity.
Qed.

Lemma keyword_loop uni_name uni_id keywords acc s r s' :
  for_each keywords acc (search_keyword W uni_name uni_id) s = (Ok r, s') ->
  exists found,
    keyword_sweep W uni_name uni_id keywords s found s' /\
    r = acc ++ List.concat found.
Proof.
  revert acc s. induction keywords as [|kw kws IH]; intros acc s H; simpl in H.
  - apply ret_ok_inv in H. destruct H as [-> ->].
    exists []. split; [constructor|]. simpl. rewrite app_nil_r. reflexivity.
  - apply bind_ok_inv in H. destruct H as (acc1 & s1 & Hstep & H).
    destruct (search_keyword_step _ _ _ _ _ _ _ Hstep)
      as (authors & s0 & Hf & -> & ->).
    destruct (IH _ _ H) as (found & Hsweep & ->).
    exists (authors :: found). split.
    + econstructor; eassumption.
    + simpl. rewrite app_assoc. reflexivity.
Qed.

Lemma university_loop keywords entries acc s r s' :
  for_each entries acc (search_university W keywords) s = (Ok r, s') ->
  exists found,
    university_sweep W keywords entries s found s' /\
    r = acc ++ List.concat found.
Proof.
  revert acc s. induction entries as [|e entries IH]; intros acc s H;
    simpl in H.
  - apply ret_ok_inv in H. destruct H as [-> ->].
    exists []. split; [constructor|]. simpl. rewrite app_nil_r. reflexivity.
  - apply bind_ok_inv in H. destruct H as (acc1 & s1 & Hstep & H).
    unfold search_university in Hstep.
    destruct (keyword_loop _ _ _ _ _ _ _ Hstep) as (found & Hk & ->).
    destruct (IH _ _ H) as (found' & Hu & ->).
    exists (found ++ found'). split.
    + econstructor; eassumption.
    + rewrite List.concat_app, app_assoc. reflexivity.
Qed.

Lemma combine_keys (l : list author_record) :
  combine (map row_key l) l = map (fun a => (row_key a, a)) l.
Proof. induction l as [|a l IH]; simpl; [|rewrite IH]; reflexivity. Qed.

Lemma keep_first_sound seen l r :
  In r (keep_first seen (map (fun a => (row_key a, a)) l)) ->
  In r l /\ ~ In (row_key r) seen.
Proof.
  revert seen. induction l as [|a l IH]; intros seen H; simpl in H; [tauto|].
  destruct (key_in (row_key a) seen) eqn:E.
  - destruct (IH _ H) as [Hin Hns]. split; [right; exact Hin|exact Hns].
  - destruct H as [->|H].
    + split; [left; reflexivity|].
      intros Hin. apply key_in_In in Hin. rewrite Hin in E. discriminate E.
    + destruct (IH _ H) as [Hin Hns]. split; [right; exact Hin|].
      intros Hs. apply Hns. right. exact Hs.
Qed.

Lemma keep_first_nodup seen l :
  NoDup (map row_key (keep_first seen (map (fun a => (row_key a, a)) l))).
Proof.
  revert seen. induction l as [|a l IH]; intros seen; simpl; [constructor|].
  destruct (key_in (row_key a) seen); [apply IH|].
  simpl. constructor; [|apply IH].
  intros Hin. apply in_map_iff in Hin. destruct Hin as (r & Hr & Hin).
  destruct (keep_first_sound _ _ _ Hin) as [_ Hns].
  apply Hns. left. symmetry. exact Hr.
Qed.

Lemma keep_first_complete seen l a :
  In a l -> ~ In (row_key a) seen ->
  In (row_key a)
     (map row_key (keep_first seen (map (fun a => (row_key a, a)) l))).
Proof.
  revert seen. induction l as [|b l IH]; intros seen Hin Hns; simpl;
    [destruct Hin|].
  destruct (key_in (row_key b) seen) eqn:E.
  - destruct Hin as [->|Hin].
    + apply key_in_In in E. contradiction.
    + apply IH; assumption.
  - simpl. destruct (key_dec (row_key b) (row_key a)) as [Eq|Ne];
      [left; exact Eq|right].
    destruct Hin as [->|Hin]; [contradiction Ne; reflexivity|].
    apply IH; [exact Hin|]. intros [H|H]; [contradiction|contradiction].
Qed.

Lemma keep_first_is_first seen l r :
  In r (keep_first seen (map (fun a => (row_key a, a)) l)) ->
  first_with_key r l = Some r.
Proof.
  unfold first_with_key.
  revert seen. induction l as [|a l IH]; intros seen H; simpl in H |- *;
    [destruct H|].
  destruct (key_in (row_key a) seen) eqn:E.
  - destruct (keep_first_sound _ _ _ H) as [_ Hns].
    destruct (Py.key_eqb (row_key a) (row_key r)) eqn:Ek.
    + apply key_eqb_eq in Ek. apply key_in_In in E. rewrite Ek in E.
      contradiction.
    + eapply IH; exact H.
  - destruct H as [->|H]; [rewrite key_eqb_refl; reflexivity|].
    destruct (keep_first_sound _ _ _ H) as [_ Hns].
    destruct (Py.key_eqb (row_key a) (row_key r)) eqn:Ek.
    + apply key_eqb_eq in Ek. exfalso. apply Hns. left. exact Ek.
    + eapply IH; exact H.
Qed.

(** C4: find_researchers_with_api returns None exactly when nothing was
    found over the sweep of the resolved institutions (outer loop) and the
    keywords (inner loop); otherwise it returns a collection with one record
    per identifier found, where the record kept for an identifier is its
    first occurrence in the order of the sweep. *)
Theorem researchers_first_seen universities keywords s all s1 :
  collect_authors W universities keywords s = (Ok all, s1) ->
  (exists institution_data s0 found,
     for_each universities [] (resolve_university W) s
     = (Ok institution_data, s0) /\
     university_sweep W keywords institution_data s0 found s1 /\
     all = List.concat found) /\
  (fst (find_researchers_with_api W universities keywords s) = Ok None <->
   all = []) /\
  (all <> [] ->
   Forall (fun b => exists k, Py.hash_key (OpenAlex_ID b) = Ok k) all ->
   exists df,
     find_researchers_with_api W universities keywords s = (Ok (Some df), s1)
     /\ NoDup (map row_key df)
     /\ (forall k, In k (map row_key df) <-> In k (map row_key all))
     /\ (forall r, In r df -> first_with_key r all = Some r)).
Proof.
  intros Hc. split; [|split].
  - unfold collect_authors in Hc.
    apply bind_ok_inv in Hc. destruct Hc as (institution_data & s0 & Hr & Hc).
    destruct (university_loop _ _ _ _ _ _ Hc) as (found & Hsweep & Hall).
    exists institution_data, s0, found. repeat split; assumption.
  - unfold find_researchers_with_api, bind. rewrite Hc.
    destruct all as [|a all']; simpl.
    + split; reflexivity.
    + split; [|discriminate]. unfold lift.
      destruct (drop_duplicates (a :: all')); simpl; discriminate.
  - intros Hne Hhash.
    exists (keep_first [] (map (fun a => (row_key a, a)) all)).
    split; [|split; [|split]].
    + unfold find_researchers_with_api, bind. rewrite Hc.
      destruct all as [|a all']; [contradiction Hne; reflexivity|].
      unfold lift, drop_duplicates.
      rewrite (id_set_hashable _ Hhash). simpl obind.
      rewrite combine_keys. reflexivity.
    + apply keep_first_nodup.
    + intros k. split.
      * intros Hin. apply in_map_iff in Hin. destruct Hin as (r & <- & Hin).
        apply in_map. exact (proj1 (keep_first_sound _ _ _ Hin)).
      * intros Hin. apply in_map_iff in Hin. destruct Hin as (a & <- & Hin).
        apply keep_first_complete; [exact Hin|intros []].
    + intros r Hin. eapply keep_first_is_first. exact Hin.
Qed.

End Orchestrator.

(** C4, witness: b is found for both keywords; the record kept is the one
    of the first keyword. *)
Lemma researchers_first_seen_witness :
  exists df s',
    find_researchers_with_api Stub.one_university ["Example University"]
      ["cooling"; "thermal"] initial_state = (Ok (Some df), s') /\
    map OpenAlex_ID df = [JStr "a"; JStr "b"; JStr "c"; JStr "d"] /\
    map Matched_Keyword df = ["cooling"; "cooling"; "cooling"; "thermal"].
Proof.
  destruct (collect_authors Stub.one_university ["Example University"]
              ["cooling"; "thermal"] initial_state) as [[all|e] s1] eqn:E;
    [|vm_compute in E; discriminate E].
  destruct (researchers_first_seen Stub.one_university ["Example University"]
              ["cooling"; "thermal"] initial_state all s1 E) as (_ & _ & H).
  vm_compute in E. injection E as <- <-.
  destruct H as (df & Hrun & _).
  - discriminate.
  - repeat constructor; eexists; reflexivity.
  - exists df. eexists. split; [exact Hrun|].
    vm_compute in Hrun. injection Hrun as <-. split; reflexivity.
Defined.

(** * Further properties of the code *)

(** ** The list files and the text areas *)

Section Lists.

Open Scope string_scope.

Lemma append_assoc (a b c : string) : (a ++ b) ++ c = a ++ (b ++ c).
Proof. induction a as [|x a IH]; simpl; [|rewrite IH]; reflexivity. Qed.

Lemma append_empty_r (a : string) : a ++ "" = a.
Proof. induction a as [|x a IH]; simpl; [|rewrite IH]; reflexivity. Qed.

Lemma snoc_append cur c x :
  PyStr.snoc cur c ++ x = cur ++ String c x.
Proof. unfold PyStr.snoc. rewrite append_assoc. reflexivity. Qed.

Lemma lstrip_head s :
  PyStr.lstrip s = "" \/
  exists c r, PyStr.lstrip s = String c r /\ PyStr.is_space c = false.
Proof.
  induction s as [|c r IH]; simpl; [left; reflexivity|].
  destruct (PyStr.is_space c) eqn:E; [exact IH|].
  right. exists c, r. split; [reflexivity|exact E].
Qed.

Lemma rstrip_idem s : PyStr.rstrip (PyStr.rstrip s) = PyStr.rstrip s.
Proof.
  induction s as [|c r IH]; simpl; [reflexivity|].
  destruct (PyStr.is_space c && PyStr.is_empty (PyStr.rstrip r)) eqn:E;
    [reflexivity|].
  simpl. rewrite IH, E. reflexivity.
Qed.

Lemma rstrip_head c r :
  PyStr.is_space c = false ->
  PyStr.rstrip (String c r) = String c (PyStr.rstrip r).
Proof. intros H. simpl. rewrite H. reflexivity. Qed.

Lemma rstrip_app_space r c :
  PyStr.is_space c = true ->
  PyStr.rstrip (r ++ String c "") = PyStr.rstrip r.
Proof.
  intros H. induction r as [|x r IH]; simpl.
  - rewrite H. reflexivity.
  - rewrite IH. reflexivity.
Qed.

(** The shape of a stripped string: empty, or from a non-whitespace
    character to a non-whitespace character. *)
Lemma strip_shape s :
  PyStr.strip s = "" \/
  exists c r, PyStr.strip s = String c r /\ PyStr.is_space c = false /\
              PyStr.rstrip r = r.
Proof.
  unfold PyStr.strip.
  destruct (lstrip_head s) as [E|(c & r & E & Hc)]; rewrite E.
  - left. reflexivity.
  - right. exists c, (PyStr.rstrip r).
    rewrite (rstrip_head c r Hc). repeat split; [exact Hc|apply rstrip_idem].
Qed.

Lemma strip_idem s : PyStr.strip (PyStr.strip s) = PyStr.strip s.
Proof.
  destruct (strip_shape s) as [E|(c & r & E & Hc & Hr)]; rewrite E.
  - reflexivity.
  - unfold PyStr.strip. simpl PyStr.lstrip. rewrite Hc.
    rewrite (rstrip_head c r Hc), Hr. reflexivity.
Qed.

Lemma strip_not_blank s :
  PyStr.is_empty (PyStr.strip s) = false -> blank (PyStr.strip s) = false.
Proof.
  destruct (strip_shape s) as [E|(c & r & E & Hc & _)]; rewrite E.
  - discriminate.
  - intros _. simpl. rewrite Hc. reflexivity.
Qed.

Lemma strip_line s :
  PyStr.strip (PyStr.strip s ++ String Text.LF "") = PyStr.strip s.
Proof.
  destruct (strip_shape s) as [E|(c & r & E & Hc & Hr)]; rewrite E.
  - reflexivity.
  - unfold PyStr.strip. simpl. rewrite Hc.
    rewrite (rstrip_head c _ Hc).
    rewrite (rstrip_app_space r Text.LF eq_refl), Hr. reflexivity.
Qed.

Lemma stripped_entries_clean xs e :
  In e (Text.stripped_entries xs) ->
  PyStr.strip e = e /\ blank e = false.
Proof.
  unfold Text.stripped_entries. intros H.
  apply in_map_iff in H. destruct H as (x & <- & H).
  apply filter_In in H. destruct H as [_ H].
  apply negb_true_iff in H.
  split; [apply strip_idem|apply strip_not_blank; exact H].
Qed.

Lemma blank_no_terms name :
  blank name = false ->
  exists token,
    search_terms name =
    Ok [name; PyStr.strip (PyStr.replace "University" "" name); token].
Proof.
  intros H. unfold search_terms, PyStr.split.
  destruct (PyStr.words "" name) as [|token rest] eqn:E.
  - exfalso. apply (words_not_nil "" name); [right; exact H|exact E].
  - exists token. reflexivity.
Qed.

(** X1: every name that the two loaders read from a file, and every entry
    taken from a text area of the page, is stripped and has a non-whitespace
    character, so the resolver's list of search terms can be built for it
    (the IndexError of a blank name cannot come from these inputs).  The
    loader of the core fails on a missing file, the loader of the page
    returns the empty list. *)
Theorem listed_names_are_clean fs path text :
  match load_list_from_file fs path with
  | Some names => Forall clean_name names
  | None => fs path = None /\ UI.load_list_from_file fs path = []
  end /\
  Forall clean_name (UI.load_list_from_file fs path) /\
  Forall clean_name (UI.entries text).
Proof.
  assert (C : forall xs, Forall clean_name (Text.stripped_entries xs)).
  { intros xs. apply Forall_forall. intros e Hin.
    destruct (stripped_entries_clean xs e Hin) as [Hs Hb].
    split; [exact Hs|]. split; [exact Hb|]. apply blank_no_terms. exact Hb. }
  unfold load_list_from_file, UI.load_list_from_file, UI.entries.
  destruct (fs path) as [content|].
  - split; [apply C|]. split; apply C.
  - split; [split; reflexivity|]. split; [constructor|apply C].
Qed.

Lemma one_line_append a b :
  Text.one_line (a ++ b) = Text.one_line a && Text.one_line b.
Proof.
  induction a as [|c a IH]; simpl; [reflexivity|].
  rewrite IH, andb_assoc. reflexivity.
Qed.

Lemma one_line_lstrip s :
  Text.one_line s = true -> Text.one_line (PyStr.lstrip s) = true.
Proof.
  induction s as [|c r IH]; simpl; intros H; [reflexivity|].
  destruct (PyStr.is_space c); [|exact H].
  apply IH. apply andb_true_iff in H. exact (proj2 H).
Qed.

Lemma one_line_rstrip s :
  Text.one_line s = true -> Text.one_line (PyStr.rstrip s) = true.
Proof.
  induction s as [|c r IH]; simpl; intros H; [reflexivity|].
  apply andb_true_iff in H. destruct H as [Hc Hr].
  destruct (PyStr.is_space c && PyStr.is_empty (PyStr.rstrip r));
    [reflexivity|].
  simpl. rewrite Hc, (IH Hr). reflexivity.
Qed.

Lemma one_line_strip s :
  Text.one_line s = true -> Text.one_line (PyStr.strip s) = true.
Proof.
  intros H. unfold PyStr.strip. apply one_line_rstrip, one_line_lstrip, H.
Qed.

(** Reading back one written line. *)
Lemma read_lines_line cur x rest :
  Text.one_line x = true ->
  Text.read_lines cur (x ++ String Text.LF rest) =
  (cur ++ x ++ String Text.LF "") :: Text.read_lines "" rest.
Proof.
  revert cur. induction x as [|c x IH]; intros cur H.
  - simpl. reflexivity.
  - simpl in H. apply andb_true_iff in H. destruct H as [Hc Hx].
    apply andb_true_iff in Hc. destruct Hc as [Hlf Hcr].
    apply negb_true_iff in Hlf. apply negb_true_iff in Hcr.
    simpl. rewrite Hlf, Hcr. rewrite (IH _ Hx).
    rewrite snoc_append. reflexivity.
Qed.

Lemma read_written lines :
  Forall (fun l => Text.one_line (PyStr.strip l) = true) lines ->
  Text.read_lines "" (UI.written lines) =
  map (fun l => PyStr.strip l ++ String Text.LF "") lines.
Proof.
  induction 1 as [|l lines Hl Hls IH]; simpl; [reflexivity|].
  rewrite (read_lines_line "" _ _ Hl), IH. reflexivity.
Qed.

Lemma stripped_entries_lines lines :
  Text.stripped_entries
    (map (fun l => PyStr.strip l ++ String Text.LF "") lines) =
  Text.stripped_entries lines.
Proof.
  unfold Text.stripped_entries.
  induction lines as [|l lines IH]; simpl; [reflexivity|].
  rewrite strip_line.
  destruct (PyStr.is_empty (PyStr.strip l)); simpl.
  - exact IH.
  - rewrite strip_line, IH. reflexivity.
Qed.

Lemma stripped_entries_fixed names :
  Forall (fun e => PyStr.strip e = e /\ PyStr.is_empty e = false) names ->
  Text.stripped_entries names = names.
Proof.
  unfold Text.stripped_entries.
  induction 1 as [|e names [Hs He] Hn IH]; simpl; [reflexivity|].
  rewrite Hs, He. simpl. rewrite Hs, IH. reflexivity.
Qed.

Lemma load_written lines :
  Forall (fun l => Text.one_line (PyStr.strip l) = true) lines ->
  Text.stripped_entries (Text.read_lines "" (UI.written lines))
  = Text.stripped_entries lines.
Proof.
  intros H. rewrite (read_written lines H). apply stripped_entries_lines.
Qed.

(** X2: loading a list file after saving it.  When no line holds a line
    terminator once stripped, [load_list_from_file] after
    [save_text_to_file] returns the lines stripped, without the empty ones,
    in order; a list of stripped non-empty names comes back as it is.  The
    other files are not touched. *)
Theorem save_then_load lines path fs :
  Forall (fun l => Text.one_line (PyStr.strip l) = true) lines ->
  UI.load_list_from_file (UI.save_text_to_file lines path fs) path
  = Text.stripped_entries lines /\
  load_list_from_file (UI.save_text_to_file lines path fs) path
  = Some (Text.stripped_entries lines) /\
  (Forall (fun e => PyStr.strip e = e /\ PyStr.is_empty e = false) lines ->
   UI.load_list_from_file (UI.save_text_to_file lines path fs) path = lines)
  /\
  (forall p, p <> path -> UI.save_text_to_file lines path fs p = fs p).
Proof.
  intros H.
  unfold UI.load_list_from_file, load_list_from_file, UI.save_text_to_file.
  rewrite String.eqb_refl, (load_written lines H).
  split; [reflexivity|]. split; [reflexivity|]. split.
  - apply stripped_entries_fixed.
  - intros p Hp. apply String.eqb_neq in Hp. rewrite Hp. reflexivity.
Qed.

Lemma string_pairs (P : string -> Prop) :
  P "" ->
  (forall c, P (String c "")) ->
  (forall c1 c2 r, P r -> P (String c2 r) -> P (String c1 (String c2 r))) ->
  forall s, P s.
Proof.
  intros H0 H1 H2 s.
  assert (H : P s /\ forall c, P (String c s)).
  { induction s as [|c r [IHr IHc]].
    - split; [exact H0|exact H1].
    - split; [apply IHc|]. intros c1. apply H2; [exact IHr|apply IHc]. }
  exact (proj1 H).
Qed.

Lemma linebreak_free c :
  Ascii.eqb c Text.CR = false -> Text.is_linebreak c = false ->
  negb (Ascii.eqb c Text.LF) && negb (Ascii.eqb c Text.CR) = true.
Proof.
  intros Hcr Hlb. rewrite Hcr.
  destruct (Ascii.eqb c Text.LF) eqn:E; [|reflexivity].
  apply Ascii.eqb_eq in E. subst c. discriminate Hlb.
Qed.

Lemma one_line_snoc cur c :
  Text.one_line cur = true ->
  negb (Ascii.eqb c Text.LF) && negb (Ascii.eqb c Text.CR) = true ->
  Text.one_line (PyStr.snoc cur c) = true.
Proof.
  intros Hcur Hc. unfold PyStr.snoc. rewrite one_line_append, Hcur.
  simpl. rewrite Hc. reflexivity.
Qed.

(** No element of [splitlines] holds a line terminator. *)
Lemma splitlines_one_line s cur :
  Text.one_line cur = true ->
  Forall (fun l => Text.one_line l = true) (Text.splitlines_go cur s).
Proof.
  revert cur. induction s as [|c|c1 c2 r IHr IH2] using string_pairs;
    intros cur Hcur.
  - simpl. destruct (PyStr.is_empty cur); repeat constructor. exact Hcur.
  - simpl. destruct (Ascii.eqb c Text.CR) eqn:Ecr;
      [repeat constructor; exact Hcur|].
    destruct (Text.is_linebreak c) eqn:Elb;
      [repeat constructor; exact Hcur|].
    rewrite snoc_not_empty. repeat constructor.
    apply one_line_snoc; [exact Hcur|apply linebreak_free; assumption].
  - cbn [Text.splitlines_go].
    destruct (Ascii.eqb c1 Text.CR) eqn:Ecr.
    + destruct (Ascii.eqb c2 Text.LF).
      * constructor; [exact Hcur|]. apply IHr. reflexivity.
      * constructor; [exact Hcur|]. apply IH2. reflexivity.
    + destruct (Text.is_linebreak c1) eqn:Elb.
      * constructor; [exact Hcur|]. apply IH2. reflexivity.
      * apply IH2.
        apply one_line_snoc; [exact Hcur|apply linebreak_free; assumption].
Qed.

(** X3: the list saved from a text area and loaded again is the list the
    discovery is run with: [load_list_from_file] after [save_text_to_file]
    of [text.strip().splitlines()] gives the stripped non-empty lines of the
    text. *)
Theorem saved_list_is_discovery_input text path fs :
  UI.load_list_from_file
    (UI.save_text_to_file (UI.saved_lines text) path fs) path
  = UI.entries text.
Proof.
  unfold UI.load_list_from_file, UI.save_text_to_file, UI.entries.
  rewrite String.eqb_refl. apply load_written.
  unfold UI.saved_lines, Text.splitlines.
  eapply Forall_impl; [|apply splitlines_one_line; reflexivity].
  intros l Hl. apply one_line_strip. exact Hl.
Qed.

End Lists.

(** X2, witness. *)
Lemma save_then_load_witness :
  UI.load_list_from_file
    (UI.save_text_to_file [" MIT "; "  "; "Stanford University"] "uni.txt"
       (fun _ => None)) "uni.txt"
  = ["MIT"; "Stanford University"].
Proof.
  apply (save_then_load [" MIT "; "  "; "Stanford University"] "uni.txt"
           (fun _ => None)).
  repeat constructor.
Defined.

(** ** More on make_api_request *)

Section ExecutorMore.

Variable W : world.

(** What an attempt that ends the call has received. *)
Lemma api_attempt_ends url headers max_retries attempt s r s1 :
  api_attempt W url headers max_retries attempt s = (r, s1) ->
  match r with
  | Ok None => True
  | Ok (Some v) =>
      s1 = with_get url headers 30 (after_backoff W attempt s) /\
      (v = JNull \/
       exists hs, net W (reqs s) = Response 200 hs (Some v))
  | Raise e =>
      s1 = with_get url headers 30 (after_backoff W attempt s) /\
      e = ValueError /\
      exists hs b v,
        net W (reqs s) = Response 429 hs b /\
        headers_get hs "Retry-After" = Some v /\
        (PyStr.to_int v = None \/
         exists n, PyStr.to_int v = Some n /\ n < 0)
  end.
Proof.
  rewrite api_attempt_cases. cbv zeta.
  destruct (net W (reqs s)) as [|c hs b] eqn:En.
  - destruct (attempt =? max_retries - 1); intros H; inversion H; subst;
      [split; [reflexivity|left; reflexivity]|exact I].
  - destruct (Z.eqb_spec c 429) as [->|_].
    + unfold retry_after_of. simpl.
      destruct (headers_get hs "Retry-After") as [v|] eqn:Eh.
      * destruct (PyStr.to_int v) as [n|] eqn:Ev.
        -- destruct (Qle_bool 0 (inject_Z n)) eqn:Eq; intros H; inversion H;
             subst; [exact I|].
           split; [reflexivity|]. split; [reflexivity|].
           exists hs, b, v. split; [reflexivity|]. split; [exact Eh|].
           right. exists n. split; [exact Ev|].
           destruct (Z.lt_ge_cases n 0) as [Hn|Hn]; [exact Hn|].
           assert (Qle_bool 0 (inject_Z n) = true)
             by (apply Qle_bool_iff; apply (inject_le 0 n); lia).
           congruence.
        -- intros H. inversion H; subst.
           split; [reflexivity|]. split; [reflexivity|].
           exists hs, b, v. split; [reflexivity|]. split; [exact Eh|].
           left. exact Ev.
      * simpl. intros H. inversion H; subst. exact I.
    + destruct (Z.eqb_spec c 200) as [->|_].
      * destruct b as [j|].
        -- intros H. inversion H; subst. split; [reflexivity|].
           right. exists hs. reflexivity.
        -- destruct (attempt =? max_retries - 1); intros H; inversion H;
             subst; [split; [reflexivity|left; reflexivity]|exact I].
      * destruct (c =? 403); [intros H; inversion H; subst; exact I|].
        destruct (c =? 404); intros H; inversion H; subst;
          [split; [reflexivity|left; reflexivity]|exact I].
Qed.

Lemma attempts_budget url headers max_retries attempts s :
  (reqs s
   <= reqs (snd (for_first attempts
                   (api_attempt W url headers max_retries) s))
   <= reqs s + List.length attempts)%nat.
Proof.
  revert s. induction attempts as [|a rest IH]; intros s; simpl.
  - lia.
  - unfold bind.
    pose proof (api_attempt_reqs W url headers max_retries a s) as Hr.
    destruct (api_attempt W url headers max_retries a s) as [[[v|]|e] s1];
      simpl in Hr |- *; try lia.
    specialize (IH s1). lia.
Qed.

(** X4: a call of make_api_request issues at most [max_retries] requests,
    at least one when [max_retries] is positive, and none at all (returning
    None at once) when it is not; it never touches the ORCID cache. *)
Theorem executor_request_budget url headers max_retries s :
  (reqs s
   <= reqs (snd (make_api_request W url headers max_retries s))
   <= reqs s + Z.to_nat max_retries)%nat /\
  (1 <= max_retries ->
   (reqs s < reqs (snd (make_api_request W url headers max_retries s)))%nat)
  /\
  (max_retries <= 0 ->
   make_api_request W url headers max_retries s = (Ok JNull, s)) /\
  orcid_cache (snd (make_api_request W url headers max_retries s))
  = orcid_cache s.
Proof.
  split; [|split; [|split]].
  - pose proof (attempts_budget url headers max_retries
                  (range max_retries) s) as H.
    assert (L : List.length (range max_retries) = Z.to_nat max_retries)
      by (unfold range; rewrite length_map, length_seq; reflexivity).
    rewrite L in H. unfold make_api_request, bind.
    destruct (for_first (range max_retries)
                (api_attempt W url headers max_retries) s) as [[r|e] s1];
      exact H.
  - intros Hm. unfold make_api_request, range.
    destruct (Z.to_nat max_retries) as [|n] eqn:E; [lia|].
    simpl. unfold bind.
    pose proof (api_attempt_reqs W url headers max_retries 0 s) as Hr.
    destruct (api_attempt W url headers max_retries 0 s) as [[[v|]|e] s1];
      simpl in Hr |- *; try lia.
    pose proof (attempts_budget url headers max_retries
                  (map Z.of_nat (seq 1 n)) s1) as H.
    destruct (for_first (map Z.of_nat (seq 1 n))
                (api_attempt W url headers max_retries) s1) as [[r|e] s2];
      simpl in H |- *; lia.
  - intros Hm. unfold make_api_request, range.
    replace (Z.to_nat max_retries) with 0%nat by lia. reflexivity.
  - apply make_api_request_cache.
Qed.

Lemma attempts_success url headers max_retries attempts s i hs j :
  (reqs s <= i)%nat ->
  (i < reqs (snd (for_first attempts
                    (api_attempt W url headers max_retries) s)))%nat ->
  net W i = Response 200 hs (Some j) ->
  exists older,
    for_first attempts (api_attempt W url headers max_retries) s =
    (Ok (Some j),
     {| reqs := S i; draws := draws older;
        log := EvGet url headers 30 :: log older;
        orcid_cache := orcid_cache older |}).
Proof.
  revert s. induction attempts as [|a rest IH]; intros s Hle Hlt H200.
  - simpl in Hlt. lia.
  - simpl in Hlt |- *. unfold bind in Hlt |- *.
    pose proof (api_attempt_reqs W url headers max_retries a s) as Hr.
    destruct (Nat.eq_dec i (reqs s)) as [->|Hne].
    + exists (after_backoff W a s).
      rewrite api_attempt_cases. cbv zeta. rewrite H200. simpl.
      unfold with_get. rewrite reqs_after_backoff. reflexivity.
    + destruct (api_attempt W url headers max_retries a s) as [[[v|]|e] s1];
        simpl in Hr, Hlt |- *; try lia.
      apply IH; [lia|exact Hlt|exact H200].
Qed.

Lemma attempts_result url headers max_retries attempts s r s' :
  for_first attempts (api_attempt W url headers max_retries) s = (r, s') ->
  match r with
  | Ok None => True
  | Ok (Some v) =>
      v = JNull \/
      ((reqs s < reqs s')%nat /\
       exists hs, net W (pred (reqs s')) = Response 200 hs (Some v))
  | Raise e =>
      (reqs s < reqs s')%nat /\ e = ValueError /\
      exists hs b v,
        net W (pred (reqs s')) = Response 429 hs b /\
        headers_get hs "Retry-After" = Some v /\
        (PyStr.to_int v = None \/
         exists n, PyStr.to_int v = Some n /\ n < 0)
  end.
Proof.
  revert s. induction attempts as [|a rest IH]; intros s H; simpl in H.
  - inversion H. exact I.
  - unfold bind in H.
    pose proof (api_attempt_reqs W url headers max_retries a s) as Hr.
    pose proof (api_attempt_ends url headers max_retries a s) as He.
    destruct (api_attempt W url headers max_retries a s) as [[[v|]|e] s1];
      simpl in Hr.
    + inversion H; subst. destruct (He _ _ eq_refl) as [_ [E|(hs & E)]];
        [left; exact E|right].
      rewrite Hr. simpl. split; [lia|]. exists hs. exact E.
    + specialize (IH _ H). destruct r as [[v|]|e]; [|exact I|].
      * destruct IH as [E|[Hlt E]]; [left; exact E|right].
        split; [lia|exact E].
      * destruct IH as (Hlt & E). split; [lia|exact E].
    + inversion H; subst. destruct (He _ _ eq_refl) as (_ & E & X).
      rewrite Hr. simpl. split; [lia|]. split; [exact E|exact X].
Qed.

(** X5: the first 200 with a JSON body ends the call.  Whichever request
    [i] of a call is answered 200 with the document [j], the call returns
    [j], request [i] is its last one and nothing is slept after it; and a
    call that returns a document other than None got it as the body of a
    200 answer to its last request. *)
Theorem success_is_last_response url headers max_retries s :
  (forall i hs j,
     (reqs s <= i)%nat ->
     (i < reqs (snd (make_api_request W url headers max_retries s)))%nat ->
     net W i = Response 200 hs (Some j) ->
     exists older,
       make_api_request W url headers max_retries s =
       (Ok j,
        {| reqs := S i; draws := draws older;
           log := EvGet url headers 30 :: log older;
           orcid_cache := orcid_cache older |})) /\
  (forall j s',
     make_api_request W url headers max_retries s = (Ok j, s') ->
     j <> JNull ->
     (reqs s < reqs s')%nat /\
     exists hs, net W (pred (reqs s')) = Response 200 hs (Some j)).
Proof.
  split.
  - intros i hs j Hle Hlt H200. unfold make_api_request in *.
    unfold bind in *.
    destruct (attempts_success url headers max_retries (range max_retries)
                s i hs j) as (older & E); [exact Hle| |exact H200|].
    + destruct (for_first (range max_retries)
                  (api_attempt W url headers max_retries) s) as [[r|e] s1];
        exact Hlt.
    + exists older. rewrite E. reflexivity.
  - intros j s' H Hj. unfold make_api_request, bind in H.
    pose proof (attempts_result url headers max_retries
                  (range max_retries) s) as R.
    destruct (for_first (range max_retries)
                (api_attempt W url headers max_retries) s) as [[r|e] s1];
      [|discriminate H].
    specialize (R _ _ eq_refl). inversion H; subst.
    destruct r as [v|]; [|contradiction Hj; reflexivity].
    destruct R as [E|R]; [contradiction|exact R].
Qed.










End ExecutorMore.




(** ** State relations kept by every call *)

Section Walk.

Variable W : world.
Variable R : state -> state -> Prop.
Hypothesis R_refl : forall s, R s s.
Hypothesis R_trans : forall s1 s2 s3, R s1 s2 -> R s2 s3 -> R s1 s3.
Hypothesis R_api :
  forall url headers n, preserves R (make_api_request W url headers n).
Hypothesis R_sleep : forall seconds, preserves R (time_sleep seconds).
Hypothesis R_enrich : forall id, preserves R (enrich_with_orcid W id).

Ltac walk :=
  repeat lazymatch goal with
    | |- preserves _ (make_api_request _ _ _ _) => apply R_api
    | |- preserves _ (time_sleep _) => apply R_sleep
    | |- preserves _ (enrich_with_orcid _ _) => apply R_enrich
    | |- preserves _ (let _ := _ in _) => cbv zeta
    | |- _ => preserves_step R_refl R_trans
    end.

Lemma walk_institution name : preserves R (get_institution_id W name).
Proof.
  unfold get_institution_id, try_search_term, select_institution,
    match_candidate.
  walk.
Qed.

Lemma walk_by_works keyword institution_id university_name :
  preserves R (find_authors_by_works W keyword institution_id university_name).
Proof.
  unfold find_authors_by_works, scan_work, scan_authorship, new_author,
    authorship_institution, enrich_if_present, fetch_details.
  walk.
Qed.

Lemma walk_direct keyword institution_id university_name :
  preserves R (find_authors_direct W keyword institution_id university_name).
Proof.
  unfold find_authors_direct, direct_author, enrich_if_present.
  walk.
Qed.

Lemma walk_authors keyword institution_id university_name :
  preserves R (find_authors W keyword institution_id university_name).
Proof.
  unfold find_authors, append_if_new.
  repeat lazymatch goal with
    | |- preserves _ (find_authors_by_works _ _ _ _) => apply walk_by_works
    | |- preserves _ (find_authors_direct _ _ _ _) => apply walk_direct
    | |- _ => preserves_step R_refl R_trans
    end.
Qed.

Lemma walk_researchers universities keywords :
  preserves R (find_researchers_with_api W universities keywords).
Proof.
  unfold find_researchers_with_api, collect_authors, resolve_university,
    search_university, search_keyword.
  repeat lazymatch goal with
    | |- preserves _ (get_institution_id _ _) => apply walk_institution
    | |- preserves _ (find_authors _ _ _ _) => apply walk_authors
    | |- preserves _ (time_sleep _) => apply R_sleep
    | |- preserves _ (let _ := _ in _) => cbv zeta
    | |- _ => preserves_step R_refl R_trans
    end.
Qed.

Lemma walk_exec c s : R s (exec W c s).
Proof.
  destruct c; simpl.
  - apply R_api.
  - apply R_enrich.
  - apply walk_institution.
  - apply walk_by_works.
  - apply walk_direct.
  - apply walk_authors.
  - apply walk_researchers.
Qed.

Lemma walk_exec_all calls s : R s (exec_all W calls s).
Proof.
  revert s. induction calls as [|c calls IH]; intros s; simpl.
  - apply R_refl.
  - eapply R_trans; [apply walk_exec|apply IH].
Qed.

End Walk.

(** ** More on enrich_with_orcid *)

Section EnricherMore.

Variable W : world.

(** The ways a call of [enrich_with_orcid] can end. *)
Lemma enrich_outcome id s :
  match Py.hash_key id with
  | Ok k =>
      exists r s',
        enrich_with_orcid W id s = (Ok r, s') /\
        (s' = s \/
         (r = NoOrcid /\ s' = with_get (orcid_url id) orcid_headers 15 s) \/
         (r <> NoOrcid /\
          s' = with_entry k r (with_get (orcid_url id) orcid_headers 15 s)))
  | Raise _ => enrich_with_orcid W id s = (Raise TypeError, s)
  end.
Proof.
  destruct (Py.hash_key id) as [k|e] eqn:Hk.
  - destruct (cache_entry s k) as [result|] eqn:Hc.
    + exists result, s. rewrite (enrich_hit W id k result s Hk Hc).
      split; [reflexivity|left; reflexivity].
    + rewrite (enrich_miss W id k s Hk Hc). cbv zeta.
      destruct (net W (reqs s)) as [|c hs [data|]];
        try (exists NoOrcid; eexists; split; [reflexivity|];
             right; left; split; reflexivity).
      destruct (c =? 200);
        [|exists NoOrcid; eexists; split; [reflexivity|];
          right; left; split; reflexivity].
      destruct (public_email data) as [email|];
        [|exists NoOrcid; eexists; split; [reflexivity|];
          right; left; split; reflexivity].
      destruct (first_department data) as [department|];
        [|exists NoOrcid; eexists; split; [reflexivity|];
          right; left; split; reflexivity].
      exists (Orcid email department). eexists. split; [reflexivity|].
      right. right. split; [discriminate|reflexivity].
  - assert (E : e = TypeError)
      by (destruct id; simpl in Hk; inversion Hk; reflexivity).
    subst e. unfold enrich_with_orcid, bind, lift. rewrite Hk. reflexivity.
Qed.

(** X9: enrich_with_orcid never raises for an identifier that can be a
    dictionary key: it returns after no request at all, after one request
    that stored nothing, or after one request whose result it stored.  It
    never sleeps and never repeats a request.  An identifier that cannot be
    hashed is a TypeError before any request. *)
Theorem enrich_is_best_effort id s :
  match Py.hash_key id with
  | Ok k =>
      exists r s',
        enrich_with_orcid W id s = (Ok r, s') /\
        (s' = s \/
         (r = NoOrcid /\ s' = with_get (orcid_url id) orcid_headers 15 s) \/
         (r <> NoOrcid /\
          s' = with_entry k r (with_get (orcid_url id) orcid_headers 15 s)))
  | Raise _ => enrich_with_orcid W id s = (Raise TypeError, s)
  end.
Proof. exact (enrich_outcome id s). Qed.

Lemma dict_set_values {V} (P : V -> Prop) (d : list (key * V)) k v :
  Forall (fun entry => P (snd entry)) d -> P v ->
  Forall (fun entry => P (snd entry)) (dict_set Py.key_eqb d k v).
Proof.
  intros Hd Hv. induction Hd as [|[k' v'] d Hx Hd IH]; simpl.
  - constructor; [exact Hv|constructor].
  - destruct (Py.key_eqb k' k); constructor; assumption.
Qed.

Lemma clean_refl s : cache_clean s -> cache_clean s.
Proof. trivial. Qed.

Lemma clean_trans (s1 s2 s3 : state) :
  (cache_clean s1 -> cache_clean s2) -> (cache_clean s2 -> cache_clean s3) ->
  cache_clean s1 -> cache_clean s3.
Proof. auto. Qed.

Lemma same_cache_clean s s' :
  same_cache s s' -> cache_clean s -> cache_clean s'.
Proof. unfold same_cache, cache_clean. intros ->. trivial. Qed.

Lemma enrich_clean id :
  preserves (fun s s' => cache_clean s -> cache_clean s')
    (enrich_with_orcid W id).
Proof.
  intros s Hs. pose proof (enrich_outcome id s) as H.
  destruct (Py.hash_key id) as [k|e].
  - destruct H as (r & s' & -> & [->|[[_ ->]|[Hr ->]]]); simpl.
    + exact Hs.
    + exact Hs.
    + apply (dict_set_values (fun v => v <> NoOrcid)); assumption.
  - rewrite H. exact Hs.
Qed.

(** X10: only successful lookups are cached.  If every cached value is a
    real result, this is still so after any sequence of calls into the
    module; and then an empty result of [enrich_with_orcid] never comes
    from the cache: the call that returned it issued a request. *)
Theorem cache_holds_successes_only s calls :
  cache_clean s ->
  cache_clean (exec_all W calls s) /\
  (forall id s',
     enrich_with_orcid W id (exec_all W calls s) = (Ok NoOrcid, s') ->
     reqs s' = S (reqs (exec_all W calls s))).
Proof.
  intros Hs.
  assert (Hc : cache_clean (exec_all W calls s)).
  { apply (walk_exec_all W (fun s s' => cache_clean s -> cache_clean s'));
      try exact Hs.
    - exact clean_refl.
    - exact clean_trans.
    - intros url headers n s0. apply same_cache_clean.
      apply make_api_request_cache.
    - intros q s0. apply same_cache_clean. apply time_sleep_cache.
    - exact enrich_clean. }
  split; [exact Hc|].
  intros id s' H. set (s0 := exec_all W calls s) in *.
  pose proof (enrich_outcome id s0) as O.
  destruct (Py.hash_key id) as [k|e] eqn:Hk; [|rewrite O in H; discriminate H].
  destruct (cache_entry s0 k) as [result|] eqn:Hhit.
  - rewrite (enrich_hit W id k result s0 Hk Hhit) in H. inversion H; subst.
    exfalso. unfold cache_entry in Hhit. unfold cache_clean in Hc.
    clear - Hhit Hc. induction Hc as [|[k' v'] d Hx Hd IH]; simpl in Hhit.
    + discriminate Hhit.
    + destruct (Py.key_eqb k' k).
      * inversion Hhit. subst. apply Hx. reflexivity.
      * exact (IH Hhit).
  - rewrite (enrich_miss W id k s0 Hk Hhit) in H. cbv zeta in H.
    destruct (net W (reqs s0)) as [|c hs [data|]];
      try (inversion H; reflexivity).
    destruct (c =? 200); [|inversion H; reflexivity].
    destruct (public_email data); [|inversion H; reflexivity].
    destruct (first_department data); [discriminate H|].
    inversion H. reflexivity.
Qed.

Lemma find_first_skip {A B} (body : A -> outcome (option B)) pre rest :
  Forall (fun x => body x = Ok None) pre ->
  find_first (pre ++ rest) body = find_first rest body.
Proof.
  induction 1 as [|x pre Hx Hpre IH]; [reflexivity|].
  simpl. rewrite Hx. exact IH.
Qed.

(** X11: the e-mail taken from an ORCID record is the address of the first
    entry of person.emails.email whose visibility is "PUBLIC"; entries with
    another visibility, or none, are passed over, and when there is no
    public entry the e-mail is None.  A record without a person section has
    no e-mail; a person section that is null is an AttributeError. *)
Theorem public_email_is_first_public data :
  (forall person person_emails es,
     Py.get data "person" (JObj []) = Ok person ->
     Py.get person "emails" (JObj []) = Ok person_emails ->
     Py.get person_emails "email" (JArr []) = Ok (JArr es) ->
     (forall pre e post address,
        es = pre ++ e :: post ->
        Forall (fun x => exists v, Py.get x "visibility" JNull = Ok v /\
                                   Py.is_str "PUBLIC" v = false) pre ->
        Py.get e "visibility" JNull = Ok (JStr "PUBLIC") ->
        Py.get e "email" JNull = Ok address ->
        public_email data = Ok address) /\
     (Forall (fun x => exists v, Py.get x "visibility" JNull = Ok v /\
                                 Py.is_str "PUBLIC" v = false) es ->
      public_email data = Ok JNull)) /\
  (forall d, data = JObj d -> Py.dict_get d "person" = None ->
             public_email data = Ok JNull) /\
  (Py.get data "person" (JObj []) = Ok JNull ->
   public_email data = Raise AttributeError).
Proof.
  split; [|split].
  - intros person person_emails es Hp He Hes.
    assert (Hskip : forall xs,
      Forall (fun x => exists v, Py.get x "visibility" JNull = Ok v /\
                                 Py.is_str "PUBLIC" v = false) xs ->
      Forall (fun e =>
        obind (Py.get e "visibility" JNull) (fun visibility =>
          if Py.is_str "PUBLIC" visibility
          then obind (Py.get e "email" JNull)
                 (fun email => Ok (Some email))
          else Ok None) = Ok None) xs).
    { intros xs H. eapply Forall_impl; [|exact H].
      intros x (v & Hv & Hn). rewrite Hv. simpl. rewrite Hn. reflexivity. }
    split.
    + intros pre e post address -> Hpre Hvis Haddr.
      unfold public_email. rewrite Hp. simpl. rewrite He. simpl.
      rewrite Hes. simpl. rewrite (find_first_skip _ _ _ (Hskip _ Hpre)).
      simpl. rewrite Hvis. simpl. rewrite Haddr. reflexivity.
    + intros Hall. unfold public_email. rewrite Hp. simpl. rewrite He.
      simpl. rewrite Hes. simpl. rewrite <- (app_nil_r es).
      rewrite (find_first_skip _ _ _ (Hskip _ Hall)). reflexivity.
  - intros d -> Hd. unfold public_email. simpl. rewrite Hd. reflexivity.
  - intros Hp. unfold public_email. rewrite Hp. reflexivity.
Qed.

(** X12: the department taken from an ORCID record is the first non-empty
    department-name among the employment summaries, in their order; entries
    whose department-name is absent, null or empty are passed over, and
    when there is none the department is None. *)
Theorem first_department_is_first_named data activities employments emps :
  Py.get data "activities-summary" (JObj []) = Ok activities ->
  Py.get activities "employments" (JObj []) = Ok employments ->
  Py.get employments "employment-summary" (JArr []) = Ok (JArr emps) ->
  (forall pre emp post dept,
     emps = pre ++ emp :: post ->
     Forall (fun x => exists v, Py.get x "department-name" JNull = Ok v /\
                                Py.truthy v = false) pre ->
     Py.get emp "department-name" JNull = Ok dept ->
     Py.truthy dept = true ->
     first_department data = Ok dept) /\
  (Forall (fun x => exists v, Py.get x "department-name" JNull = Ok v /\
                              Py.truthy v = false) emps ->
   first_department data = Ok JNull).
Proof.
  intros Ha He Hemps.
  assert (Hskip : forall xs,
    Forall (fun x => exists v, Py.get x "department-name" JNull = Ok v /\
                               Py.truthy v = false) xs ->
    Forall (fun emp =>
      obind (Py.get emp "department-name" JNull) (fun dept =>
        if Py.truthy dept then Ok (Some dept) else Ok None) = Ok None) xs).
  { intros xs H. eapply Forall_impl; [|exact H].
    intros x (v & Hv & Hn). rewrite Hv. simpl. rewrite Hn. reflexivity. }
  split.
  - intros pre emp post dept -> Hpre Hd Ht.
    unfold first_department. rewrite Ha. simpl. rewrite He. simpl.
    rewrite Hemps. simpl. rewrite (find_first_skip _ _ _ (Hskip _ Hpre)).
    simpl. rewrite Hd. simpl. rewrite Ht. reflexivity.
  - intros Hall. unfold first_department. rewrite Ha. simpl. rewrite He.
    simpl. rewrite Hemps. simpl. rewrite <- (app_nil_r emps).
    rewrite (find_first_skip _ _ _ (Hskip _ Hall)). reflexivity.
Qed.

End EnricherMore.

(** X10, witness. *)
Lemma cache_holds_successes_only_witness :
  cache_clean
    (exec_all Stub.registry_up_once
       [CallEnrich (JStr "0000-0002-1825-0097");
        CallEnrich (JStr "0000-0001-5109-3700")] initial_state).
Proof.
  apply (cache_holds_successes_only Stub.registry_up_once initial_state).
  constructor.
Defined.

(** X11, witness: the record [Stub.orcid_doc]. *)
Lemma public_email_is_first_public_witness :
  public_email Stub.orcid_doc = Ok (JStr "j.doe@example.org").
Proof.
  destruct (public_email_is_first_public Stub.orcid_doc) as [H _].
  destruct (H _ _ _ eq_refl eq_refl eq_refl) as [Hfirst _].
  apply (Hfirst [_] _ [] _ eq_refl).
  - repeat constructor. eexists. split; reflexivity.
  - reflexivity.
  - reflexivity.
Defined.

(** X12, witness: the record [Stub.orcid_doc]. *)
Lemma first_department_is_first_named_witness :
  first_department Stub.orcid_doc = Ok (JStr "Physics").
Proof.
  destruct (first_department_is_first_named Stub.orcid_doc _ _ _
              eq_refl eq_refl eq_refl) as [Hfirst _].
  apply (Hfirst [_] _ [] _ eq_refl).
  - repeat constructor. eexists. split; reflexivity.
  - reflexivity.
  - reflexivity.
Defined.

(** ** Which exceptions can come out *)

Section Raises.

Variable P : exn -> Prop.

Lemma raises_ret {A} (a : A) : raises_only P (ret a).
Proof. intros s e s' H. discriminate H. Qed.

Lemma raises_lift {A} (o : outcome A) :
  (forall e, o = Raise e -> P e) -> raises_only P (lift o).
Proof. intros Ho s e s' H. inversion H. apply Ho. assumption. Qed.

Lemma raises_bind {A B} (c : M A) (k : A -> M B) :
  raises_only P c -> (forall a, raises_only P (k a)) ->
  raises_only P (bind c k).
Proof.
  intros Hc Hk s e s' H. unfold bind in H.
  destruct (c s) as [[a|e0] s1] eqn:E.
  - exact (Hk a _ _ _ H).
  - inversion H; subst. exact (Hc _ _ _ E).
Qed.

Lemma raises_for_first {A B} (xs : list A) (body : A -> M (option B)) :
  (forall x, raises_only P (body x)) -> raises_only P (for_first xs body).
Proof.
  intros Hb. induction xs as [|x xs IH]; simpl.
  - apply raises_ret.
  - apply raises_bind; [apply Hb|].
    intros [v|]; [apply raises_ret|exact IH].
Qed.

Lemma raises_for_each {A S} (xs : list A) (body : S -> A -> M S) :
  (forall acc x, raises_only P (body acc x)) ->
  forall acc, raises_only P (for_each xs acc body).
Proof.
  intros Hb. induction xs as [|x xs IH]; intros acc; simpl.
  - apply raises_ret.
  - apply raises_bind; [apply Hb|]. intros a. apply IH.
Qed.

End Raises.


(** Settle [forall e, o = Raise e -> P e] for a pure operation [o] by
    going through its cases. *)
Ltac pure_cases :=
  let e := fresh "e" in
  let He := fresh "He" in
  intros e He; revert He;
  unfold has_results, has_id, name_matches, chosen_id, paper_url_of,
    apply_details, has_display_name, search_terms, Py.get, Py.item, Py.iter,
    Py.first, Py.contains, Py.hash_key, Py.lower, Py.last_segment, Py.quote,
    Py.replace, obind;
  repeat match goal with
    | |- context [match ?x with _ => _ end] =>
        lazymatch x with
        | context [match _ with _ => _ end] => fail
        | _ => destruct x
        end
    end;
  intros He; inversion He; subst;
  try discriminate; try congruence; auto.

(** Reduce a [raises_only] goal along the structure of the code. *)
Ltac raises_step :=
  lazymatch goal with
  | |- raises_only _ (bind _ _) => apply raises_bind; [|intro]
  | |- raises_only _ (ret _) => apply raises_ret
  | |- raises_only _ (lift _) => apply raises_lift; pure_cases
  | |- raises_only _ (for_first _ _) => apply raises_for_first; intro
  | |- raises_only _ (for_each _ _ _) => apply raises_for_each; intros ? ?
  | |- raises_only _ (let _ := _ in _) => cbv zeta
  | |- raises_only _ (if ?b then _ else _) => destruct b
  | |- raises_only _ (match ?x with _ => _ end) => destruct x
  end.

Section NoNetworkError.

Variable W : world.

Lemma id_set_raises l e : id_set l = Raise e -> e = TypeError.
Proof.
  induction l as [|a l IH]; simpl; [discriminate|].
  destruct (Py.hash_key (OpenAlex_ID a)) as [k|e0] eqn:Hk; simpl.
  - destruct (id_set l) as [ks|e1]; simpl; [discriminate|].
    intros H. inversion H; subst. apply IH. reflexivity.
  - intros H. inversion H; subst.
    destruct (OpenAlex_ID a); simpl in Hk; inversion Hk; reflexivity.
Qed.

Lemma api_handled url headers n :
  raises_only handled (make_api_request W url headers n).
Proof.
  intros s e s' H. unfold make_api_request, bind in H.
  pose proof (attempts_result W url headers n (range n) s) as R.
  destruct (for_first (range n) (api_attempt W url headers n) s)
    as [[r|e0] s1]; [discriminate H|].
  specialize (R _ _ eq_refl). inversion H; subst.
  destruct R as (_ & -> & _). unfold handled. discriminate.
Qed.

Lemma sleep_handled seconds : raises_only handled (time_sleep seconds).
Proof.
  intros s e s' H. unfold time_sleep in H.
  destruct (Qle_bool 0 seconds); inversion H. unfold handled. discriminate.
Qed.

Lemma enrich_handled id : raises_only handled (enrich_with_orcid W id).
Proof.
  intros s e s' H. pose proof (enrich_outcome W id s) as O.
  destruct (Py.hash_key id).
  - destruct O as (r & s1 & E & _). rewrite E in H. discriminate H.
  - rewrite O in H. inversion H; subst. unfold handled. discriminate.
Qed.

Ltac handled_walk :=
  repeat lazymatch goal with
    | |- raises_only _ (make_api_request _ _ _ _) => apply api_handled
    | |- raises_only _ (time_sleep _) => apply sleep_handled
    | |- raises_only _ (enrich_with_orcid _ _) => apply enrich_handled
    | |- _ => raises_step
    end.

Lemma institution_handled name :
  raises_only handled (get_institution_id W name).
Proof.
  unfold get_institution_id, try_search_term, select_institution,
    match_candidate, handled.
  handled_walk.
Qed.

Lemma by_works_handled keyword institution_id university_name :
  raises_only handled
    (find_authors_by_works W keyword institution_id university_name).
Proof.
  unfold find_authors_by_works, scan_work, scan_authorship, new_author,
    authorship_institution, enrich_if_present, fetch_details, handled.
  handled_walk.
Qed.

Lemma direct_handled keyword institution_id university_name :
  raises_only handled
    (find_authors_direct W keyword institution_id university_name).
Proof.
  unfold find_authors_direct, direct_author, enrich_if_present, handled.
  handled_walk.
Qed.

Lemma authors_handled keyword institution_id university_name :
  raises_only handled (find_authors W keyword institution_id university_name).
Proof.
  unfold find_authors, append_if_new.
  repeat lazymatch goal with
    | |- raises_only _ (find_authors_by_works _ _ _ _) =>
        apply by_works_handled
    | |- raises_only _ (find_authors_direct _ _ _ _) => apply direct_handled
    | |- raises_only _ (lift (id_set _)) =>
        apply raises_lift; intros ? He; apply id_set_raises in He; subst;
        discriminate
    | |- _ => raises_step
    end.
Qed.

Lemma researchers_handled universities keywords :
  raises_only handled (find_researchers_with_api W universities keywords).
Proof.
  unfold find_researchers_with_api, collect_authors, resolve_university,
    search_university, search_keyword.
  repeat lazymatch goal with
    | |- raises_only _ (get_institution_id _ _) => apply institution_handled
    | |- raises_only _ (find_authors _ _ _ _) => apply authors_handled
    | |- raises_only _ (time_sleep _) => apply sleep_handled
    | |- raises_only _ (lift (drop_duplicates _)) =>
        apply raises_lift; unfold drop_duplicates; intros ? He;
        destruct (id_set _) eqn:Hi in He; simpl in He; [discriminate He|];
        inversion He; subst; apply id_set_raises in Hi; subst; discriminate
    | |- _ => raises_step
    end.
Qed.

(** X13: no entry point lets a network error out.  Whatever the replies,
    a RequestException of requests.get never leaves make_api_request,
    enrich_with_orcid, get_institution_id, the two author searches,
    find_authors or find_researchers_with_api. *)
Theorem network_errors_never_escape c s :
  call_error W c s <> Some RequestException.
Proof.
  assert (G : forall A (m : M A),
             raises_only handled m ->
             match fst (m s) with Raise e => Some e | Ok _ => None end
             <> Some RequestException).
  { intros A m Hm. destruct (m s) as [[a|e] s1] eqn:E; simpl;
      [discriminate|].
    intros Heq. inversion Heq; subst. exact (Hm _ _ _ E eq_refl). }
  destruct c; simpl; apply G.
  - apply api_handled.
  - apply enrich_handled.
  - apply institution_handled.
  - apply by_works_handled.
  - apply direct_handled.
  - apply authors_handled.
  - apply researchers_handled.
Qed.

End NoNetworkError.

(** ** More on get_institution_id *)

Section ResolverMore.

Variable W : world.










Lemma prefix_slash s :
  String.prefix "/" s =
  match s with String c _ => Ascii.eqb c "/" | EmptyString => false end.
Proof.
  destruct s as [|c r]; [reflexivity|]. cbn [String.prefix].
  destruct (ascii_dec "/" c) as [E|N].
  - subst c. rewrite Ascii.eqb_refl. destruct r; reflexivity.
  - destruct (Ascii.eqb_spec c "/") as [->|_]; [|reflexivity].
    contradiction N. reflexivity.
Qed.

Lemma contains_slash_snoc cur c :
  PyStr.contains "/" cur = false -> Ascii.eqb c "/" = false ->
  PyStr.contains "/" (PyStr.snoc cur c) = false.
Proof.
  intros Hc Hne. induction cur as [|a cur IH].
  - cbn [PyStr.snoc append PyStr.contains]. rewrite prefix_slash, Hne.
    reflexivity.
  - cbn [PyStr.contains] in Hc. rewrite prefix_slash in Hc.
    apply orb_false_iff in Hc. destruct Hc as [Ha Hr].
    change (PyStr.snoc (String a cur) c) with (String a (PyStr.snoc cur c)).
    cbn [PyStr.contains]. rewrite prefix_slash, Ha. simpl.
    apply IH. exact Hr.
Qed.

Lemma last_segment_no_slash cur s :
  PyStr.contains "/" cur = false ->
  PyStr.contains "/" (PyStr.last_segment "/" cur s) = false.
Proof.
  revert cur. induction s as [|c r IH]; intros cur Hc; simpl; [exact Hc|].
  destruct (Ascii.eqb c "/") eqn:E.
  - apply IH. reflexivity.
  - apply IH. apply contains_slash_snoc; assumption.
Qed.

Lemma chosen_id_no_slash c id :
  chosen_id c = Ok (JStr id) -> PyStr.contains "/" id = false.
Proof.
  unfold chosen_id. destruct (Py.item c "id") as [v|]; [|discriminate].
  simpl. destruct v as [| | |t|l|l]; simpl; try discriminate.
  - destruct (PyStr.contains "/" t) eqn:E; simpl;
      destruct (Py.item c "display_name"); simpl; try discriminate;
      intros H; inversion H; subst; [|exact E].
    apply last_segment_no_slash. reflexivity.
  - destruct (existsb (Py.is_str "/") l); simpl; [discriminate|].
    destruct (Py.item c "display_name"); simpl; discriminate.
  - destruct (Py.dict_get l "/"); simpl; [discriminate|].
    destruct (Py.item c "display_name"); simpl; discriminate.
Qed.

Lemma scan_no_slash name candidates s id s' :
  for_first candidates (match_candidate name) s = (Ok (Some (JStr id)), s') ->
  PyStr.contains "/" id = false.
Proof.
  revert s. induction candidates as [|x xs IH]; intros s H; simpl in H;
    [discriminate H|].
  apply bind_ok_inv in H. destruct H as (r & s1 & Hm & H).
  destruct r as [v|].
  - apply ret_ok_inv in H. destruct H as [Hv _]. inversion Hv; subst v.
    unfold match_candidate in Hm.
    apply bind_lift_inv in Hm. destruct Hm as ([|] & _ & Hm);
      [|discriminate Hm].
    apply bind_lift_inv in Hm. destruct Hm as (v & Hc & Hm).
    apply ret_ok_inv in Hm. destruct Hm as [Hv' _]. inversion Hv'; subst v.
    eapply chosen_id_no_slash. exact Hc.
  - eapply IH. exact H.
Qed.

Lemma select_no_slash name results s id s' :
  select_institution name results s = (Ok (JStr id), s') ->
  PyStr.contains "/" id = false.
Proof.
  unfold select_institution. intros H.
  apply bind_lift_inv in H. destruct H as (candidates & _ & H).
  apply bind_ok_inv in H. destruct H as ([v|] & s1 & Hscan & H).
  - apply ret_ok_inv in H. destruct H as [<- _].
    eapply scan_no_slash. exact Hscan.
  - apply bind_lift_inv in H. destruct H as (c & _ & H).
    apply bind_lift_inv in H. destruct H as (v & Hc & H).
    apply ret_ok_inv in H. destruct H as [<- _].
    eapply chosen_id_no_slash. exact Hc.
Qed.

Lemma search_loop_no_slash name terms s id s' :
  for_first terms (try_search_term W name) s = (Ok (Some (JStr id)), s') ->
  PyStr.contains "/" id = false.
Proof.
  revert s. induction terms as [|t ts IH]; intros s H; simpl in H;
    [discriminate H|].
  apply bind_ok_inv in H. destruct H as (r & s1 & Ht & H).
  destruct r as [v|].
  - apply ret_ok_inv in H. destruct H as [Hv _]. inversion Hv; subst v.
    unfold try_search_term in Ht.
    apply bind_ok_inv in Ht. destruct Ht as (data & s2 & _ & Ht).
    apply bind_lift_inv in Ht. destruct Ht as ([|] & _ & Ht);
      [|discriminate Ht].
    apply bind_lift_inv in Ht. destruct Ht as (results & _ & Ht).
    apply bind_ok_inv in Ht. destruct Ht as (v & s3 & Hsel & Ht).
    apply ret_ok_inv in Ht. destruct Ht as [Hv' _]. inversion Hv'; subst v.
    eapply select_no_slash. exact Hsel.
  - eapply IH. exact H.
Qed.

(** X16: an identifier that get_institution_id returns as a string holds
    no "/": of an OpenAlex URL only the part after the last slash is
    returned. *)
Theorem resolved_id_has_no_slash name s id s' :
  get_institution_id W name s = (Ok (JStr id), s') ->
  PyStr.contains "/" id = false.
Proof.
  unfold get_institution_id. intros H.
  apply bind_lift_inv in H. destruct H as (terms & _ & H).
  apply bind_ok_inv in H. destruct H as ([v|] & s1 & Hloop & H).
  - apply ret_ok_inv in H. destruct H as [<- _].
    eapply search_loop_no_slash. exact Hloop.
  - apply ret_ok_inv in H. destruct H as [Hv _]. discriminate Hv.
Qed.

End ResolverMore.

(** ** More on the author searches *)

Section AuthorsMore.

Variable W : world.

Lemma enrich_budget id s :
  (reqs s <= reqs (snd (enrich_with_orcid W id s)) <= reqs s + 1)%nat.
Proof.
  pose proof (enrich_outcome W id s) as O.
  destruct (Py.hash_key id).
  - destruct O as (r & s1 & E & [->|[[_ ->]|[_ ->]]]); rewrite E; simpl; lia.
  - rewrite O. simpl. lia.
Qed.

Lemma enrich_if_present_budget id s :
  (reqs s <= reqs (snd (enrich_if_present W id s)) <= reqs s + 1)%nat.
Proof.
  unfold enrich_if_present. destruct (Py.truthy id).
  - apply enrich_budget.
  - simpl. lia.
Qed.

Lemma direct_author_step keyword university_name acc item s acc' s' :
  direct_author W keyword university_name acc item s = (Ok acc', s') ->
  exists a,
    acc' = acc ++ [a] /\ direct_record keyword item a /\
    (reqs s <= reqs s' <= reqs s + 1)%nat.
Proof.
  unfold direct_author. intros H.
  apply bind_lift_inv in H. destruct H as (lki & _ & H).
  apply bind_lift_inv in H. destruct H as (named & _ & H).
  apply bind_lift_inv in H. destruct H as (institution_name & _ & H).
  apply bind_lift_inv in H. destruct H as (orcid_id & Ho & H).
  apply bind_ok_inv in H. destruct H as (enriched & s1 & He & H).
  apply bind_lift_inv in H. destruct H as (id & Hid & H).
  apply bind_lift_inv in H. destruct H as (full_name & Hn & H).
  apply bind_lift_inv in H. destruct H as (department & _ & H).
  apply bind_lift_inv in H. destruct H as (works & Hw & H).
  apply bind_lift_inv in H. destruct H as (cited & Hc & H).
  apply ret_ok_inv in H. destruct H as [-> ->].
  eexists. split; [reflexivity|]. split.
  - unfold direct_record, from_direct. simpl. repeat split; assumption.
  - pose proof (enrich_if_present_budget orcid_id s) as B.
    rewrite He in B. exact B.
Qed.

Lemma direct_loop keyword university_name items acc s r s' :
  for_each items acc (direct_author W keyword university_name) s
  = (Ok r, s') ->
  exists new,
    r = acc ++ new /\ Forall2 (direct_record keyword) items new /\
    (reqs s <= reqs s' <= reqs s + List.length items)%nat.
Proof.
  revert acc s. induction items as [|x items IH]; intros acc s H; simpl in H.
  - apply ret_ok_inv in H. destruct H as [-> ->]. exists [].
    rewrite app_nil_r. split; [reflexivity|]. split; [constructor|].
    simpl. lia.
  - apply bind_ok_inv in H. destruct H as (acc1 & s1 & Hstep & H).
    destruct (direct_author_step _ _ _ _ _ _ _ Hstep) as (a & -> & Ha & Hb).
    destruct (IH _ _ H) as (new & -> & Hnew & Hb').
    exists (a :: new). rewrite <- app_assoc. split; [reflexivity|].
    split; [constructor; assumption|]. simpl. lia.
Qed.

(** X17: the direct strategy returns one record per entry of its page, in
    the order of the page, without a cap and without removing repeated
    entries.  Each record takes identifier, name, ORCID and counts from its
    entry, names the keyword, and has no paper link, title or DOI.  Beyond
    the page query it issues at most one request per entry. *)
Theorem direct_search_shape keyword institution_id university_name s
    authors s' :
  find_authors_direct W keyword institution_id university_name s
  = (Ok authors, s') ->
  exists data s1,
    make_api_request W (authors_url keyword institution_id) api_headers 5 s
    = (Ok data, s1) /\
    ((has_results data = Ok false /\ authors = [] /\ s' = s1) \/
     (exists results items,
        has_results data = Ok true /\
        Py.item data "results" = Ok results /\
        Py.iter results = Ok items /\
        Forall2 (direct_record keyword) items authors /\
        (reqs s1 <= reqs s' <= reqs s1 + List.length items)%nat)).
Proof.
  intros H. unfold find_authors_direct in H.
  apply bind_ok_inv in H. destruct H as (data & s1 & Hq & H).
  apply bind_lift_inv in H. destruct H as (found & Hfound & H).
  exists data, s1. split; [exact Hq|].
  destruct found; cbn [negb] in H.
  - apply bind_lift_inv in H. destruct H as (results & Hitem & H).
    apply bind_lift_inv in H. destruct H as (items & Hiter & H).
    destruct (direct_loop _ _ _ _ _ _ _ H) as (new & -> & Hnew & Hb).
    right. exists results, items. repeat split; try assumption; lia.
  - apply ret_ok_inv in H. destruct H as [-> ->].
    left. repeat split. exact Hfound.
Qed.

Lemma new_author_shape keyword institution_id university_name work authorship
    author author_id s record s' :
  new_author W keyword institution_id university_name work authorship
    author author_id s = (Ok record, s') ->
  from_works keyword record.
Proof.
  unfold new_author. intros H.
  apply bind_ok_inv in H. destruct H as (inst & s1 & _ & H).
  apply bind_lift_inv in H. destruct H as (doi & _ & H).
  apply bind_lift_inv in H. destruct H as (title & _ & H).
  apply bind_lift_inv in H. destruct H as (paper_url & _ & H).
  apply bind_lift_inv in H. destruct H as (orcid_id & _ & H).
  apply bind_ok_inv in H. destruct H as (enriched & s2 & _ & H).
  apply bind_lift_inv in H. destruct H as (full_name & _ & H).
  apply bind_lift_inv in H. destruct H as (recent_title & _ & H).
  apply ret_ok_inv in H. destruct H as [-> _].
  unfold from_works. simpl. repeat split; eexists; reflexivity.
Qed.

Lemma scan_authorship_shape keyword institution_id university_name work
    d authorship s d' s' :
  Forall (fun e => from_works keyword (snd e)) d ->
  scan_authorship W keyword institution_id university_name work d authorship s
  = (Ok d', s') ->
  Forall (fun e => from_works keyword (snd e)) d'.
Proof.
  intros Hd H. unfold scan_authorship in H.
  apply bind_lift_inv in H. destruct H as (author & _ & H).
  apply bind_lift_inv in H. destruct H as ([|] & _ & H).
  - apply bind_lift_inv in H. destruct H as (author_id & _ & H).
    apply bind_lift_inv in H. destruct H as (k & Hk & H).
    destruct (negb (dict_mem Py.key_eqb d k)).
    + apply bind_ok_inv in H. destruct H as (record & s1 & Hnew & H).
      apply ret_ok_inv in H. destruct H as [-> _].
      apply (dict_set_values (from_works keyword)); [exact Hd|].
      eapply new_author_shape. exact Hnew.
    + apply ret_ok_inv in H. destruct H as [-> _]. exact Hd.
  - apply ret_ok_inv in H. destruct H as [-> _]. exact Hd.
Qed.

Lemma scan_works_shape keyword institution_id university_name works s d s' :
  for_each works [] (scan_work W keyword institution_id university_name) s
  = (Ok d, s') ->
  Forall (fun e => from_works keyword (snd e)) d.
Proof.
  intros H.
  eapply (for_each_invariant
            (fun d => Forall (fun e => from_works keyword (snd e)) d));
    [|constructor|exact H].
  intros acc work s0 acc' s0' Hacc Hstep. unfold scan_work in Hstep.
  apply bind_lift_inv in Hstep. destruct Hstep as (authorships & _ & Hstep).
  apply bind_lift_inv in Hstep. destruct Hstep as (items & _ & Hstep).
  eapply (for_each_invariant
            (fun d => Forall (fun e => from_works keyword (snd e)) d));
    [|exact Hacc|exact Hstep].
  intros acc1 x s1 acc1' s1' Hacc1 Hstep1.
  eapply scan_authorship_shape; eassumption.
Qed.

Lemma apply_details_shape keyword a detailed a' :
  from_works keyword a -> apply_details a detailed = Ok a' ->
  from_works keyword a'.
Proof.
  intros Ha. unfold apply_details.
  destruct (Py.get detailed "last_known_institution" (JObj [])) as [lki|];
    [|discriminate]. simpl.
  destruct (has_display_name lki) as [named|]; [|discriminate]. simpl.
  destruct named.
  - destruct (Py.item lki "display_name") as [n|]; [|discriminate]. simpl.
    destruct (Py.get detailed "works_count" (JNum 0)); [|discriminate]. simpl.
    destruct (Py.get detailed "cited_by_count" (JNum 0)); [|discriminate].
    simpl. intros H. inversion H. exact Ha.
  - simpl.
    destruct (Py.get detailed "works_count" (JNum 0)); [|discriminate]. simpl.
    destruct (Py.get detailed "cited_by_count" (JNum 0)); [|discriminate].
    simpl. intros H. inversion H. exact Ha.
Qed.

Lemma fetch_details_shape keyword entries acc s l s' :
  Forall (from_works keyword) acc ->
  Forall (fun e => from_works keyword (snd e)) entries ->
  for_each entries acc (fetch_details W) s = (Ok l, s') ->
  Forall (from_works keyword) l.
Proof.
  intros Hacc Hent. revert acc s Hacc.
  induction Hent as [|e entries He Hent IH]; intros acc s Hacc H; simpl in H.
  - apply ret_ok_inv in H. destruct H as [-> _]. exact Hacc.
  - apply bind_ok_inv in H. destruct H as (acc1 & s1 & Hstep & H).
    eapply IH; [|exact H].
    unfold fetch_details in Hstep.
    apply bind_ok_inv in Hstep. destruct Hstep as (u & s2 & _ & Hstep).
    apply bind_ok_inv in Hstep. destruct Hstep as (detailed & s3 & _ & Hstep).
    apply bind_lift_inv in Hstep. destruct Hstep as (a' & Ha & Hstep).
    apply ret_ok_inv in Hstep. destruct Hstep as [-> _].
    apply Forall_app. split; [exact Hacc|]. constructor; [|constructor].
    destruct (Py.truthy detailed).
    + eapply apply_details_shape; [exact He|exact Ha].
    + inversion Ha; subst. exact He.
Qed.

Lemma by_works_shape keyword institution_id university_name s authors s' :
  find_authors_by_works W keyword institution_id university_name s
  = (Ok authors, s') ->
  Forall (from_works keyword) authors.
Proof.
  intros H. unfold find_authors_by_works in H.
  apply bind_ok_inv in H. destruct H as (data & s1 & Hq & H).
  apply bind_lift_inv in H. destruct H as (found & Hfound & H).
  destruct found; cbn [negb] in H.
  - apply bind_lift_inv in H. destruct H as (results & Hitem & H).
    apply bind_lift_inv in H. destruct H as (works & Hiter & H).
    apply bind_ok_inv in H. destruct H as (authors_dict & s2 & Hscan & H).
    eapply fetch_details_shape; [constructor| |exact H].
    apply Forall_firstn. eapply scan_works_shape. exact Hscan.
  - apply ret_ok_inv in H. destruct H as [-> _]. constructor.
Qed.

Lemma id_set_ok_hashable l ks : id_set l = Ok ks -> Forall hashable l.
Proof.
  revert ks. induction l as [|a l IH]; simpl; intros ks H; [constructor|].
  destruct (Py.hash_key (OpenAlex_ID a)) as [k|] eqn:Hk; [|discriminate H].
  simpl in H. destruct (id_set l) as [ks'|]; [|discriminate H].
  constructor; [exists k; exact Hk|]. eapply IH. reflexivity.
Qed.

Lemma merge_records keyword existing B acc s r s' :
  Forall (from_direct keyword) B ->
  Forall (found_for keyword) acc ->
  for_each B acc (append_if_new existing) s = (Ok r, s') ->
  Forall (found_for keyword) r.
Proof.
  intros HB. revert acc s.
  induction HB as [|b B Hb HB IH]; intros acc s Hacc H; simpl in H.
  - apply ret_ok_inv in H. destruct H as [-> _]. exact Hacc.
  - apply bind_ok_inv in H. destruct H as (acc1 & s1 & Hstep & H).
    eapply IH; [|exact H].
    unfold append_if_new in Hstep.
    apply bind_lift_inv in Hstep. destruct Hstep as (k & Hk & Hstep).
    destruct (negb (key_in k existing)).
    + apply ret_ok_inv in Hstep. destruct Hstep as [-> _].
      apply Forall_app. split; [exact Hacc|]. constructor; [|constructor].
      split; [exact (proj1 Hb)|]. split; [exists k; exact Hk|right; exact Hb].
    + apply ret_ok_inv in Hstep. destruct Hstep as [-> _]. exact Hacc.
Qed.

Lemma direct_records_plain keyword items B :
  Forall2 (direct_record keyword) items B -> Forall (from_direct keyword) B.
Proof.
  induction 1 as [|x b items B Hb _ IH]; constructor; [|exact IH].
  destruct Hb as (_ & _ & _ & _ & _ & Hd). exact Hd.
Qed.

Lemma direct_shape keyword institution_id university_name s B s' :
  find_authors_direct W keyword institution_id university_name s
  = (Ok B, s') ->
  Forall (from_direct keyword) B.
Proof.
  intros H. unfold find_authors_direct in H.
  apply bind_ok_inv in H. destruct H as (data & s1 & Hq & H).
  apply bind_lift_inv in H. destruct H as (found & Hfound & H).
  destruct found; cbn [negb] in H.
  - apply bind_lift_inv in H. destruct H as (results & Hitem & H).
    apply bind_lift_inv in H. destruct H as (items & Hiter & H).
    destruct (direct_loop _ _ _ _ _ _ _ H) as (new & -> & Hnew & _).
    eapply direct_records_plain. exact Hnew.
  - apply ret_ok_inv in H. destruct H as [-> _]. constructor.
Qed.

Lemma find_authors_found keyword institution_id university_name s authors s' :
  find_authors W keyword institution_id university_name s = (Ok authors, s') ->
  Forall (found_for keyword) authors.
Proof.
  intros H. unfold find_authors in H.
  apply bind_ok_inv in H. destruct H as (A & s1 & HA & H).
  assert (GA : Forall (found_for keyword) A).
  { pose proof (by_works_shape _ _ _ _ _ _ HA) as Hs.
    destruct (by_works_keys W _ _ _ _ _ _ HA) as [Hids _].
    apply id_set_ok_hashable in Hids.
    rewrite Forall_forall in *. intros a Ha.
    pose proof (Hs a Ha) as Hw. split; [exact (proj1 Hw)|].
    split; [exact (Hids a Ha)|left; exact Hw]. }
  destruct (Z.of_nat (List.length A) <? 5).
  - apply bind_ok_inv in H. destruct H as (B & s2 & HB & H).
    apply bind_lift_inv in H. destruct H as (existing & _ & H).
    eapply merge_records; [|exact GA|exact H].
    eapply direct_shape. exact HB.
  - apply ret_ok_inv in H. destruct H as [-> _]. exact GA.
Qed.

(** X18: every record find_authors returns names the keyword that was
    searched, has an identifier that can be a dictionary key, and is either
    a work-centric record (with paper link, title and DOI fields) or a
    direct one (without them). *)
Theorem found_authors_are_well_formed keyword institution_id university_name
    s authors s' :
  find_authors W keyword institution_id university_name s = (Ok authors, s') ->
  Forall (found_for keyword) authors.
Proof.
  intros H. eapply find_authors_found. exact H.
Qed.

End AuthorsMore.

(** X16, witness: the identifier chosen in [Stub.third_term_only] is the
    last segment of "https://openalex.org/I1". *)
Lemma resolved_id_has_no_slash_witness :
  exists id s',
    get_institution_id Stub.third_term_only "Example Institute" initial_state
    = (Ok (JStr id), s') /\
    PyStr.contains "/" id = false.
Proof.
  destruct (get_institution_id Stub.third_term_only "Example Institute"
              initial_state) as [[v|e] s'] eqn:E;
    [|vm_compute in E; discriminate E].
  destruct v as [| | |id| |]; try (vm_compute in E; discriminate E).
  exists id, s'. split; [reflexivity|].
  exact (resolved_id_has_no_slash Stub.third_term_only "Example Institute"
           initial_state id s' E).
Defined.

(** X17, witness: the direct search of [Stub.two_strategies], issued as
    the fourth request, lists b, c and d. *)
Lemma direct_search_shape_witness :
  exists authors s',
    find_authors_direct Stub.two_strategies "cooling" (JStr "1")
      "Example University"
      {| reqs := 3; draws := 0; log := []; orcid_cache := [] |}
    = (Ok authors, s') /\
    map OpenAlex_ID authors = [JStr "b"; JStr "c"; JStr "d"] /\
    Forall (from_direct "cooling") authors.
Proof.
  destruct (find_authors_direct Stub.two_strategies "cooling" (JStr "1")
              "Example University"
              {| reqs := 3; draws := 0; log := []; orcid_cache := [] |})
    as [[authors|e] s'] eqn:E; [|vm_compute in E; discriminate E].
  exists authors, s'. split; [reflexivity|].
  destruct (direct_search_shape Stub.two_strategies "cooling" (JStr "1")
              "Example University" _ _ _ E)
    as (data & s1 & _ &
        [(_ & Hnil & _)|(results & items & _ & _ & _ & Hrec & _)]).
  - vm_compute in E. inversion E as [[Ha Hs]]. rewrite <- Ha in Hnil.
    discriminate Hnil.
  - split; [vm_compute in E; inversion E; reflexivity|].
    clear E. induction Hrec as [|x a items authors Hx _ IH]; constructor;
      [|exact IH].
    destruct Hx as (_ & _ & _ & _ & _ & Hd). exact Hd.
Defined.

(** X18, witness: the merged result of [Stub.two_strategies]. *)
Lemma found_authors_are_well_formed_witness :
  exists authors s',
    find_authors Stub.two_strategies "cooling" (JStr "1") "Example University"
      initial_state = (Ok authors, s') /\
    Forall (found_for "cooling") authors.
Proof.
  destruct (find_authors Stub.two_strategies "cooling" (JStr "1")
              "Example University" initial_state)
    as [[authors|e] s'] eqn:E; [|vm_compute in E; discriminate E].
  exists authors, s'. split; [reflexivity|].
  exact (found_authors_are_well_formed Stub.two_strategies "cooling" (JStr "1")
           "Example University" initial_state authors s' E).
Defined.

(** ** More on find_researchers_with_api *)

Section OrchestratorMore.

Variable W : world.

Lemma keyword_sweep_found uni_name uni_id keywords s found s' :
  keyword_sweep W uni_name uni_id keywords s found s' ->
  Forall (fun a => In (Matched_Keyword a) keywords /\ hashable a)
    (List.concat found).
Proof.
  induction 1 as [s|keyword keywords s authors s1 found s2 Hf Hs IH]; simpl.
  - constructor.
  - apply Forall_app. split.
    + pose proof (find_authors_found W _ _ _ _ _ _ Hf) as Hg.
      eapply Forall_impl; [|exact Hg].
      intros a (Hk & Hh & _). split; [left; symmetry; exact Hk|exact Hh].
    + eapply Forall_impl; [|exact IH].
      intros a [Hk Hh]. split; [right; exact Hk|exact Hh].
Qed.

Lemma university_sweep_found keywords entries s found s' :
  university_sweep W keywords entries s found s' ->
  Forall (fun a => In (Matched_Keyword a) keywords /\ hashable a)
    (List.concat found).
Proof.
  induction 1 as [s|entry entries s found s1 found' s2 Hk Hu IH]; simpl.
  - constructor.
  - rewrite List.concat_app. apply Forall_app. split; [|exact IH].
    eapply keyword_sweep_found. exact Hk.
Qed.

Lemma collect_authors_found universities keywords s all s' :
  collect_authors W universities keywords s = (Ok all, s') ->
  Forall (fun a => In (Matched_Keyword a) keywords /\ hashable a) all.
Proof.
  intros Hc. unfold collect_authors in Hc.
  apply bind_ok_inv in Hc. destruct Hc as (institution_data & s0 & Hr & Hc).
  destruct (university_loop W _ _ _ _ _ _ Hc) as (found & Hsweep & ->).
  simpl. eapply university_sweep_found. exact Hsweep.
Qed.

(** X19: removing the duplicates never fails.  Whatever
    find_researchers_with_api raises was raised while collecting; it
    answers None exactly when nothing was collected; and a collection it
    returns is never empty, has one row per identifier, and each row names
    one of the given keywords. *)
Theorem researchers_rows universities keywords s :
  match find_researchers_with_api W universities keywords s with
  | (Raise e, s') =>
      collect_authors W universities keywords s = (Raise e, s')
  | (Ok None, s') =>
      collect_authors W universities keywords s = (Ok [], s')
  | (Ok (Some rows), s') =>
      rows <> [] /\ NoDup (map row_key rows) /\
      Forall (fun a => In (Matched_Keyword a) keywords /\ hashable a) rows /\
      exists all,
        collect_authors W universities keywords s = (Ok all, s') /\
        incl rows all
  end.
Proof.
  unfold find_researchers_with_api, bind.
  destruct (collect_authors W universities keywords s) as [[all|e] s1] eqn:Hc;
    [|reflexivity].
  pose proof (collect_authors_found _ _ _ _ _ Hc) as Hg.
  destruct all as [|a all']; [reflexivity|].
  assert (Hh : Forall (fun b => exists k, Py.hash_key (OpenAlex_ID b) = Ok k)
                 (a :: all')).
  { eapply Forall_impl; [|exact Hg]. intros b [_ Hb]. exact Hb. }
  unfold lift, drop_duplicates. rewrite (id_set_hashable _ Hh).
  cbn [obind]. rewrite combine_keys. cbn beta iota.
  split; [simpl; discriminate|].
  split; [apply keep_first_nodup|].
  split.
  - rewrite Forall_forall in *. intros r Hr. apply Hg.
    exact (proj1 (keep_first_sound _ _ _ Hr)).
  - exists (a :: all'). split; [reflexivity|].
    intros r Hr. exact (proj1 (keep_first_sound _ _ _ Hr)).
Qed.

Lemma dict_set_str_in {V} (d : list (string * V)) k v e :
  In e (dict_set String.eqb d k v) -> e = (k, v) \/ In e d.
Proof.
  induction d as [|[k' v'] d IH]; simpl.
  - intros [<-|[]]. left. reflexivity.
  - destruct (String.eqb_spec k' k) as [->|Hne]; simpl.
    + intros [<-|H]; [left; reflexivity|right; right; exact H].
    + intros [<-|H]; [right; left; reflexivity|].
      destruct (IH H) as [E|Hin]; [left; exact E|right; right; exact Hin].
Qed.

Lemma dict_set_str_nodup {V} (d : list (string * V)) k v :
  NoDup (map fst d) -> NoDup (map fst (dict_set String.eqb d k v)).
Proof.
  induction d as [|[k' v'] d IH]; simpl; intros Hnd.
  - constructor; [intros []|constructor].
  - inversion Hnd as [|? ? Hx Hd]; subst.
    destruct (String.eqb_spec k' k) as [->|Hne]; simpl.
    + constructor; assumption.
    + constructor; [|apply IH; exact Hd].
      intros Hin. apply in_map_iff in Hin. destruct Hin as (e & He & Hin).
      destruct (dict_set_str_in _ _ _ _ Hin) as [->|Hin'].
      * simpl in He. contradiction Hne. symmetry. exact He.
      * apply Hx. rewrite <- He. apply in_map. exact Hin'.
Qed.

Lemma dict_set_str_length {V} (d : list (string * V)) k v :
  (List.length (dict_set String.eqb d k v) <= S (List.length d))%nat.
Proof.
  induction d as [|[k' v'] d IH]; simpl; [lia|].
  destruct (String.eqb k' k); simpl; lia.
Qed.

Lemma resolve_step institution_data uni_name s data s' :
  resolve_university W institution_data uni_name s = (Ok data, s') ->
  exists uni_id s1,
    get_institution_id W uni_name s = (Ok uni_id, s1) /\
    s' = with_sleep 1 s1 /\
    data = if Py.truthy uni_id
           then dict_set String.eqb institution_data uni_name uni_id
           else institution_data.
Proof.
  unfold resolve_university. intros H.
  apply bind_ok_inv in H. destruct H as (uni_id & s1 & Hg & H).
  cbv zeta in H. unfold bind, time_sleep in H. simpl in H.
  exists uni_id, s1. split; [exact Hg|]. inversion H. split; reflexivity.
Qed.

Lemma resolve_loop all universities acc s data s' :
  incl universities all ->
  NoDup (map fst acc) ->
  Forall (resolved W all) acc ->
  for_each universities acc (resolve_university W) s = (Ok data, s') ->
  NoDup (map fst data) /\ Forall (resolved W all) data /\
  (List.length data <= List.length acc + List.length universities)%nat.
Proof.
  revert acc s. induction universities as [|u us IH];
    intros acc s Hincl Hnd Hacc H; simpl in H.
  - apply ret_ok_inv in H. destruct H as [-> _].
    split; [exact Hnd|]. split; [exact Hacc|]. lia.
  - apply bind_ok_inv in H. destruct H as (acc1 & s1 & Hstep & H).
    destruct (resolve_step _ _ _ _ _ Hstep) as (uni_id & s0 & Hg & _ & ->).
    destruct (Py.truthy uni_id) eqn:Ht.
    + destruct (IH _ _ (fun x Hx => Hincl x (or_intror Hx))
                  (dict_set_str_nodup acc u uni_id Hnd)
                  ltac:(rewrite Forall_forall in *; intros e He;
                        destruct (dict_set_str_in _ _ _ _ He) as [->|Hin];
                        [split; [apply Hincl; left; reflexivity|];
                         split; [exact Ht|]; exists s, s0; exact Hg
                        |exact (Hacc e Hin)])
                  H) as (H1 & H2 & H3).
      split; [exact H1|]. split; [exact H2|].
      pose proof (dict_set_str_length acc u uni_id). simpl. lia.
    + destruct (IH _ _ (fun x Hx => Hincl x (or_intror Hx)) Hnd Hacc H)
        as (H1 & H2 & H3).
      split; [exact H1|]. split; [exact H2|]. simpl. lia.
Qed.

(** X20: the table of resolved institutions has one entry per name, at
    most as many entries as names were given, and each entry holds a
    listed name with an identifier that get_institution_id returned for
    that name and that is truthy: a name resolved to None or to an empty
    identifier is left out and never searched. *)
Theorem resolved_institutions universities s institution_data s' :
  for_each universities [] (resolve_university W) s
  = (Ok institution_data, s') ->
  NoDup (map fst institution_data) /\
  Forall (resolved W universities) institution_data /\
  (List.length institution_data <= List.length universities)%nat.
Proof.
  intros H.
  destruct (resolve_loop universities universities [] s institution_data s'
              (fun x Hx => Hx) ltac:(constructor) ltac:(constructor) H)
    as (H1 & H2 & H3).
  split; [exact H1|]. split; [exact H2|]. simpl in H3. exact H3.
Qed.

End OrchestratorMore.

(** X20, witness: the same name listed twice is resolved twice and stored
    once. *)
Lemma resolved_institutions_witness :
  exists institution_data s',
    for_each ["Example Institute"; "Example Institute"] []
      (resolve_university Stub.third_term_only) initial_state
    = (Ok institution_data, s') /\
    NoDup (map fst institution_data) /\
    (List.length institution_data <= 2)%nat.
Proof.
  destruct (for_each ["Example Institute"; "Example Institute"] []
              (resolve_university Stub.third_term_only) initial_state)
    as [[institution_data|e] s'] eqn:E; [|vm_compute in E; discriminate E].
  exists institution_data, s'. split; [reflexivity|].
  destruct (resolved_institutions Stub.third_term_only _ _ _ _ E)
    as (H1 & _ & H3).
  split; [exact H1|exact H3].
Defined.

(** ** Candidates without a display name *)

Lemma contains_empty s : PyStr.contains "" s = true.
Proof. destruct s; reflexivity. Qed.

(** X21: a candidate without a display name counts as a match for every
    institution name, because the empty string is contained in any name;
    choosing it then fails, since its display name is read again for the
    message.  So when such a candidate comes before any other match on a
    results page, select_institution raises and returns no identifier. *)
Theorem unnamed_candidate_is_fatal name results pre l post s :
  Py.iter results = Ok (pre ++ JObj l :: post) ->
  Forall (fun x => name_matches name x = Ok false) pre ->
  Py.dict_get l "display_name" = None ->
  name_matches name (JObj l) = Ok true /\
  exists e,
    select_institution name results s = (Raise e, s) /\
    (e = KeyError \/ e = TypeError \/ e = AttributeError).
Proof.
  intros Hi Hpre Hn.
  assert (Hm : name_matches name (JObj l) = Ok true).
  { unfold name_matches. simpl. rewrite Hn. simpl.
    rewrite contains_empty. apply f_equal. apply orb_true_r. }
  split; [exact Hm|].
  rewrite (select_first_match name results pre (JObj l) post s Hi Hpre Hm).
  unfold chosen_id. simpl. rewrite Hn.
  destruct (Py.dict_get l "id") as [[| | |t|ids|d]|]; simpl;
    try (eexists; split; [reflexivity|tauto]).
  - destruct (PyStr.contains "/" t); simpl; eexists;
      (split; [reflexivity|tauto]).
  - destruct (existsb (Py.is_str "/") ids); simpl; eexists;
      (split; [reflexivity|tauto]).
  - destruct (Py.dict_get d "/"); simpl; eexists;
      (split; [reflexivity|tauto]).
Qed.

(** X21, witness: a page whose only entry has an identifier and no name. *)
Lemma unnamed_candidate_is_fatal_witness :
  exists e,
    select_institution "Example University"
      (JArr [JObj [("id", JStr "https://openalex.org/I9")]]) initial_state
    = (Raise e, initial_state).
Proof.
  destruct (unnamed_candidate_is_fatal "Example University"
              (JArr [JObj [("id", JStr "https://openalex.org/I9")]])
              [] [("id", JStr "https://openalex.org/I9")] [] initial_state
              eq_refl ltac:(constructor) eq_refl) as (_ & e & H & _).
  exists e. exact H.
Defined.
